(** * FlexiPage record form: layout interpretation and rule evaluation

    A shallow embedding of the layout parser ([parseFlexiPageJson], utils.js)
    and of the rule evaluators and assembler of the [FlexipageRecordForm]
    component (flexipageRecordForm.js), followed by the properties established
    about them.

    Conventions of the embedding.
    - A JavaScript string is a [string] of code units below 256.
    - A JavaScript number is a value of IEEE 754 binary64 (type [JNum], the
      [spec_float] of the Standard Library with precision 53 and exponents
      up to 1024): the zeros, the infinities, [NaN] and the finite numbers in
      canonical form.  [Number], [isNaN], the comparisons and [String] on
      numbers follow ECMAScript, conversions round to nearest, ties to even.
    - The values of record fields, operands and property values are
      primitives ([JSValue]).
    - A plain object used as a dictionary whose enumeration order matters is
      an association list in insertion order ([obj_set], [obj_delete]); the
      keys of the layout and of the default values are API names and facet
      ids, none of which is an array index.  [recordData] and the icon rule cache are only read by
      key, they are [gmap]s.  Properties inherited from [Object.prototype]
      are not modelled.
    - A function that can raise returns a [result].
    - An [async] function is a tree of the steps it makes on the state of the
      component ([Async]); what runs between two [await]s runs to completion
      ([run], [resume], [startAll]).  [processSections] is the value that the
      promise of the method is fulfilled with; [awaitProcessSections] runs
      the awaited evaluations and tells whether it is fulfilled at all. *)

From Stdlib Require Import ZArith Lia Ascii String List DecimalString Permutation Sorted.
From Stdlib Require SpecFloat.
From stdpp Require Import base option list strings gmap.

Import ListNotations.
Local Open Scope string_scope.
Local Open Scope Z_scope.

(** ** JavaScript strings *)

Module JsString.

Definition code (c : ascii) : nat := nat_of_ascii c.

Definition is_digit (c : ascii) : bool :=
  ((48 <=? code c) && (code c <=? 57))%nat.

Definition is_upper (c : ascii) : bool :=
  ((65 <=? code c) && (code c <=? 90))%nat.

Definition is_lower (c : ascii) : bool :=
  ((97 <=? code c) && (code c <=? 122))%nat.

(** The class [\w] of a regular expression without the [u] and [i] flags. *)
Definition is_word_char (c : ascii) : bool :=
  is_digit c || is_upper c || is_lower c || (code c =? 95)%nat.

(** White space and line terminators among the code units below 256. *)
Definition is_white_space (c : ascii) : bool :=
  ((9 <=? code c) && (code c <=? 13) || (code c =? 32) || (code c =? 160))%nat.

(** [toLowerCase] on one code unit: A-Z and the Latin-1 capitals
    (U+00C0..U+00DE except the multiplication sign U+00D7). *)
Definition lower_char (c : ascii) : ascii :=
  if is_upper c then ascii_of_nat (code c + 32)
  else if ((192 <=? code c) && (code c <=? 222) && negb (code c =? 215))%nat
       then ascii_of_nat (code c + 32)
       else c.

Fixpoint toLowerCase (s : string) : string :=
  match s with
  | EmptyString => EmptyString
  | String c s' => String (lower_char c) (toLowerCase s')
  end.

Fixpoint trimStart (s : string) : string :=
  match s with
  | EmptyString => EmptyString
  | String c s' => if is_white_space c then trimStart s' else s
  end.

Fixpoint rev_string (acc s : string) : string :=
  match s with
  | EmptyString => acc
  | String c s' => rev_string (String c acc) s'
  end.

Definition trimEnd (s : string) : string :=
  rev_string "" (trimStart (rev_string "" s)).

Definition trim (s : string) : string := trimEnd (trimStart s).

(** [drop n s] is [s.substring(n)]. *)
Fixpoint drop (n : nat) (s : string) : string :=
  match n, s with
  | O, _ => s
  | S _, EmptyString => EmptyString
  | S k, String _ s' => drop k s'
  end.

(** [take n s] is [s.substring(0, n)]. *)
Fixpoint take (n : nat) (s : string) : string :=
  match n, s with
  | S k, String c s' => String c (take k s')
  | _, _ => EmptyString
  end.

(** [s.startsWith(p)] *)
Fixpoint startsWith (p s : string) : bool :=
  match p, s with
  | EmptyString, _ => true
  | String _ _, EmptyString => false
  | String a p', String b s' => if Ascii.eqb a b then startsWith p' s' else false
  end.

(** [s.includes(p)] *)
Fixpoint includes (p s : string) : bool :=
  startsWith p s ||
  match s with
  | EmptyString => false
  | String _ s' => includes p s'
  end.

(** [s.replace(p, r)] for a string pattern [p] and a replacement [r] without
    [$]: only the first occurrence is replaced. *)
Fixpoint replace (p r s : string) : string :=
  if startsWith p s then r ++ drop (String.length p) s
  else match s with
       | EmptyString => EmptyString
       | String c s' => String c (replace p r s')
       end.

(** [s.split(sep)] for a non-empty separator; [skip] counts the code units
    of a separator still to be consumed, [cur] is the current piece,
    reversed. *)
Fixpoint split_go (sep : string) (skip : nat) (cur : string) (s : string)
  : list string :=
  match s with
  | EmptyString => [rev_string "" cur]
  | String c s' =>
      match skip with
      | S k => split_go sep k cur s'
      | O =>
          if startsWith sep s
          then rev_string "" cur :: split_go sep (String.length sep - 1) "" s'
          else split_go sep O (String c cur) s'
      end
  end.

Definition split (sep s : string) : list string :=
  match sep with
  | EmptyString => List.map (fun c => String c "") (list_ascii_of_string s)
  | String _ _ =>
      (* a separator that ends the string leaves an empty last piece *)
      split_go sep O "" s
  end.

(** [pieces.join(sep)] *)
Fixpoint join (sep : string) (l : list string) : string :=
  match l with
  | [] => ""
  | [x] => x
  | x :: l' => x ++ sep ++ join sep l'
  end.

Definition head_char (s : string) : option ascii :=
  match s with
  | EmptyString => None
  | String c _ => Some c
  end.

Fixpoint last_char (s : string) : option ascii :=
  match s with
  | EmptyString => None
  | String c EmptyString => Some c
  | String _ s' => last_char s'
  end.

Definition is_word (o : option ascii) : bool :=
  match o with
  | Some c => is_word_char c
  | None => false
  end.

(** The assertion [\b] between a code unit [before] and a code unit [after]
    ([None] outside the string). *)
Definition word_boundary (before after : option ascii) : bool :=
  xorb (is_word before) (is_word after).

(** Does [/\bw\b/] match at the head of [s], [prev] being the code unit in
    front of it? *)
Definition word_match (w : string) (prev : option ascii) (s : string) : bool :=
  match w with
  | EmptyString => false
  | String _ _ =>
      startsWith w s
      && word_boundary prev (head_char s)
      && word_boundary (last_char w) (head_char (drop (String.length w) s))
  end.

(** [s.replace(/\bw\b/g, r)] for a literal [w] and a replacement [r] without
    [$]: matches are taken from left to right and do not overlap, and the
    text put in is not scanned again. *)
Fixpoint replaceWord_go (w r : string) (prev : option ascii) (skip : nat)
  (s : string) : string :=
  match s with
  | EmptyString => EmptyString
  | String c s' =>
      match skip with
      | S k => replaceWord_go w r (Some c) k s'
      | O =>
          if word_match w prev s
          then r ++ replaceWord_go w r (Some c) (String.length w - 1) s'
          else String c (replaceWord_go w r (Some c) O s')
      end
  end.

Definition replaceWord (w r s : string) : string :=
  replaceWord_go w r None O s.

(** Lexicographic order on code units, the order of [<] on two strings. *)
Fixpoint ltb (a b : string) : bool :=
  match a, b with
  | _, EmptyString => false
  | EmptyString, String _ _ => true
  | String x a', String y b' =>
      if (code x <? code y)%nat then true
      else if (code y <? code x)%nat then false
      else ltb a' b'
  end.

Definition of_nat (n : nat) : string :=
  NilZero.string_of_uint (Nat.to_uint n).

Definition of_Z (z : Z) : string :=
  NilZero.string_of_int (Z.to_int z).

End JsString.

(** ** JavaScript values *)

(** A number: a value of IEEE 754 binary64, [S754_finite s m e] being
    (-1)^s * m * 2^e with [m] and [e] in canonical form. *)
Definition JNum : Type := SpecFloat.spec_float.

Definition NaN : JNum := SpecFloat.S754_nan.

(** The number nearest to an integer. *)
Definition Int (z : Z) : JNum := SpecFloat.binary_normalize 53 1024 z 0 false.

(** The primitive values that record data, rule operands and criterion
    outcomes range over. *)
Inductive JSValue : Type :=
  | VUndefined
  | VNull
  | VBool (b : bool)
  | VNum (n : JNum)
  | VStr (s : string).

Inductive JSError : Type :=
  | TypeError (msg : string)
  | Error (msg : string).

(** The outcome of a call that may raise. *)
Inductive result (A : Type) : Type :=
  | Ok (a : A)
  | Throw (e : JSError).

Arguments Ok {A} a.
Arguments Throw {A} e.

#[global] Instance result_ret : MRet result := fun A a => Ok a.

#[global] Instance result_bind : MBind result :=
  fun A B f m =>
    match m with
    | Ok a => f a
    | Throw e => Throw e
    end.

(** [xs.map(f)] where [f] may raise: elements are visited in order and the
    first exception ends the traversal. *)
Fixpoint map_result {A B : Type} (f : A -> result B) (l : list A)
  : result (list B) :=
  match l with
  | [] => Ok []
  | x :: l' => y ← f x; ys ← map_result f l'; Ok (y :: ys)
  end.

Module Js.

Definition prec : Z := 53.
Definition emax : Z := 1024.

(** [m * 10^e] for a natural number [m], rounded to the nearest number, ties
    to even.  A product beyond every number is an infinity, a quotient below
    every number a zero: the bounds 310 and -330 only keep the powers of ten
    small, [m * 10^310] is beyond 2^1024 and [m * 10^e < 10^-330] is below
    2^-1075 when [m] has less than [-330 - e] binary digits. *)
Definition decimal (negative : bool) (m e : Z) : JNum :=
  if m <=? 0 then SpecFloat.S754_zero negative
  else if 0 <=? e then
    if 310 <=? e then SpecFloat.S754_infinity negative
    else SpecFloat.binary_round prec emax negative (Z.to_pos (m * 10 ^ e)) 0
  else if e + Z.log2 m + 1 <? -330 then SpecFloat.S754_zero negative
  else
    let '(q, e', l) := SpecFloat.SFdiv_core_binary prec emax m 0 (10 ^ (- e)) 0 in
    SpecFloat.binary_round_aux prec emax negative q e' l.

Definition digit_value (c : ascii) : option Z :=
  let n := Z.of_nat (JsString.code c) in
  if JsString.is_digit c then Some (n - 48)
  else if (97 <=? n) && (n <=? 102) then Some (n - 87)
  else if (65 <=? n) && (n <=? 70) then Some (n - 55)
  else None.

(** The value of a string that consists of digits of a radix. *)
Fixpoint digits_value (radix acc : Z) (s : string) : option Z :=
  match s with
  | EmptyString => Some acc
  | String c s' =>
      match digit_value c with
      | Some d =>
          if d <? radix then digits_value radix (radix * acc + d) s' else None
      | None => None
      end
  end.

(** The digits of a literal with a radix prefix. *)
Definition radix_literal (radix : Z) (s : string) : JNum :=
  match s with
  | EmptyString => NaN
  | String _ _ =>
      match digits_value radix 0 s with Some z => Int z | None => NaN end
  end.

(** The longest run of decimal digits at the head of [s]: its value after
    the digits [acc], its length added to [len], and what follows it. *)
Fixpoint span_digits (acc len : Z) (s : string) : Z * Z * string :=
  match s with
  | EmptyString => (acc, len, s)
  | String c s' =>
      if JsString.is_digit c
      then span_digits (10 * acc + Z.of_nat (JsString.code c - 48)) (len + 1) s'
      else (acc, len, s)
  end.

(** The exponent of a decimal literal, [s] being what follows its digits. *)
Definition exponent_part (s : string) : option Z :=
  match s with
  | EmptyString => Some 0
  | String c s' =>
      if Ascii.eqb c "e" || Ascii.eqb c "E" then
        let '(negative, ds) :=
          match s' with
          | String "+" t => (false, t)
          | String "-" t => (true, t)
          | _ => (false, s')
          end in
        match span_digits 0 0 ds with
        | (v, len, EmptyString) =>
            if 0 <? len then Some (if negative : bool then - v else v) else None
        | _ => None
        end
      else None
  end.

(** An unsigned decimal literal: digits, a point and more digits, one of the
    two runs of digits being possibly empty, and an exponent. *)
Definition decimal_literal (negative : bool) (s : string) : JNum :=
  let '(i, li, r1) := span_digits 0 0 s in
  let '(m, l, r2) :=
    match r1 with
    | String "." r => span_digits i li r
    | _ => (i, li, r1)
    end in
  if l =? 0 then NaN
  else match exponent_part r2 with
       | Some e => decimal negative m (e - (l - li))
       | None => NaN
       end.

Definition unsigned_literal (negative : bool) (s : string) : JNum :=
  if String.eqb s "Infinity" then SpecFloat.S754_infinity negative
  else decimal_literal negative s.

(** [Number(s)] on a string: surrounding white space is dropped, the empty
    string is 0; a decimal literal or [Infinity] may have a sign, a literal
    with the prefix [0x], [0o] or [0b] may not; anything else is [NaN]. *)
Definition StringToNumber (s : string) : JNum :=
  match JsString.trim s with
  | EmptyString => Int 0
  | String "+" s' => unsigned_literal false s'
  | String "-" s' => unsigned_literal true s'
  | String "0" (String c s') as t =>
      if Ascii.eqb c "x" || Ascii.eqb c "X" then radix_literal 16 s'
      else if Ascii.eqb c "o" || Ascii.eqb c "O" then radix_literal 8 s'
      else if Ascii.eqb c "b" || Ascii.eqb c "B" then radix_literal 2 s'
      else unsigned_literal false t
  | t => unsigned_literal false t
  end.

(** [Number(v)] *)
Definition ToNumber (v : JSValue) : JNum :=
  match v with
  | VUndefined => NaN
  | VNull => Int 0
  | VBool true => Int 1
  | VBool false => Int 0
  | VNum n => n
  | VStr s => StringToNumber s
  end.

(** [isNaN(v)] *)
Definition isNaN (v : JSValue) : bool :=
  match ToNumber v with
  | SpecFloat.S754_nan => true
  | _ => false
  end.

(** [m * 2^e * 10^j] as a fraction. *)
Definition scaled (m : positive) (e j : Z) : Z * Z :=
  (Z.pos m * 2 ^ Z.max e 0 * 10 ^ Z.max j 0,
   2 ^ Z.max (- e) 0 * 10 ^ Z.max (- j) 0).

(** The least [n' >= n] with [m * 2^e < 10^n']. *)
Fixpoint magnitude_from (fuel : nat) (m : positive) (e n : Z) : Z :=
  match fuel with
  | O => n
  | S fuel' =>
      let '(a, b) := scaled m e (- n) in
      if a <? b then n else magnitude_from fuel' m e (n + 1)
  end.

(** The [n] with [10^(n-1) <= m * 2^e < 10^n].  With [l] the binary
    logarithm of [m * 2^e] rounded down, the search starts at [l * log 2]
    rounded down, a power of ten that is not above [2^l]: 0.30102 is below
    the decimal logarithm of 2 and 0.30103 is above it. *)
Definition magnitude (m : positive) (e : Z) : Z :=
  let l := Z.log2 (Z.pos m) + e in
  magnitude_from 700 m e
    (if 0 <=? l then l * 30102 / 100000 else l * 30103 / 100000).

(** Does [s * 10^d] round to [m * 2^e]? *)
Definition rounds_to (m : positive) (e s d : Z) : bool :=
  SpecFloat.SFeqb (decimal false s d) (SpecFloat.S754_finite false m e).

(** The integer [s] next to [m * 2^e * 10^(k-n)], and whether [s * 10^(n-k)]
    rounds to [m * 2^e]: of the integers below and above, the one that does;
    the nearer one when both do, the even one when they are as near. *)
Definition nearest_digits (m : positive) (e n k : Z) : Z * bool :=
  let '(a, b) := scaled m e (k - n) in
  let lo := a / b in
  let r := a mod b in
  let hi := lo + 1 in
  let nearer :=
    if 2 * r <? b then lo
    else if b <? 2 * r then hi
    else if Z.even lo then lo else hi in
  match rounds_to m e lo (n - k), rounds_to m e hi (n - k) with
  | true, true => (nearer, true)
  | true, false => (lo, true)
  | false, true => (hi, true)
  | false, false => (nearer, false)
  end.

(** The shortest run of digits [s] such that [s * 10^(n-k)] rounds to
    [m * 2^e], [k] being the number of digits tried; 17 digits always do. *)
Fixpoint shortest_digits (fuel : nat) (m : positive) (e n k : Z) : Z * Z :=
  match fuel with
  | O => ((nearest_digits m e n k).1, k)
  | S fuel' =>
      match nearest_digits m e n k with
      | (s, true) => (s, k)
      | (_, false) => shortest_digits fuel' m e n (k + 1)
      end
  end.

Fixpoint zeros (n : nat) : string :=
  match n with
  | O => ""
  | S n' => String "0" (zeros n')
  end.

(** The text of [0.digits * 10^n]. *)
Definition format_digits (digits : string) (n : Z) : string :=
  let k := Z.of_nat (String.length digits) in
  if (k <=? n) && (n <=? 21) then digits ++ zeros (Z.to_nat (n - k))
  else if (0 <? n) && (n <=? 21)
  then JsString.take (Z.to_nat n) digits ++ "." ++ JsString.drop (Z.to_nat n) digits
  else if (-6 <? n) && (n <=? 0) then "0." ++ zeros (Z.to_nat (- n)) ++ digits
  else
    let exponent :=
      (if 0 <=? n - 1 then "e+" else "e-") ++ JsString.of_Z (Z.abs (n - 1)) in
    match digits with
    | EmptyString => ""
    | String d EmptyString => String d exponent
    | String d rest => String d ("." ++ rest ++ exponent)
    end.

(** [String(n)] on a number: the shortest decimal that reads back as [n]. *)
Definition NumberToString (n : JNum) : string :=
  match n with
  | SpecFloat.S754_nan => "NaN"
  | SpecFloat.S754_zero _ => "0"
  | SpecFloat.S754_infinity negative =>
      if negative then "-Infinity" else "Infinity"
  | SpecFloat.S754_finite negative m e =>
      let n := magnitude m e in
      let '(s, k) := shortest_digits 16 m e n 1 in
      (* the integer above may be 10^k: it is the digit 1 one place up *)
      let '(s, n) := if s =? 10 ^ k then (10 ^ (k - 1), n + 1) else (s, n) in
      (if negative then "-" else "") ++ format_digits (JsString.of_Z s) n
  end.

(** [String(v)] *)
Definition ToString (v : JSValue) : string :=
  match v with
  | VUndefined => "undefined"
  | VNull => "null"
  | VBool true => "true"
  | VBool false => "false"
  | VNum n => NumberToString n
  | VStr s => s
  end.

(** Truthiness, as tested by [if (v)], [!v], [v || w] and [v && w]. *)
Definition truthy (v : JSValue) : bool :=
  match v with
  | VUndefined | VNull => false
  | VBool b => b
  | VNum SpecFloat.S754_nan | VNum (SpecFloat.S754_zero _) => false
  | VNum _ => true
  | VStr s => negb (String.eqb s "")
  end.

(** [a === b] on numbers: [NaN] equals nothing, the two zeros are equal. *)
Definition num_eqb (a b : JNum) : bool := SpecFloat.SFeqb a b.

(** [a === b] *)
Definition strict_eq (a b : JSValue) : bool :=
  match a, b with
  | VUndefined, VUndefined => true
  | VNull, VNull => true
  | VBool x, VBool y => Bool.eqb x y
  | VNum x, VNum y => num_eqb x y
  | VStr x, VStr y => String.eqb x y
  | _, _ => false
  end.

(** The abstract relational comparison [a < b]: [None] is its result
    [undefined], reached when an operand converts to [NaN]. *)
Definition less_than (a b : JSValue) : option bool :=
  match a, b with
  | VStr x, VStr y => Some (JsString.ltb x y)
  | _, _ =>
      match SpecFloat.SFcompare (ToNumber a) (ToNumber b) with
      | Some Lt => Some true
      | Some _ => Some false
      | None => None
      end
  end.

Definition is_true (o : option bool) : bool :=
  match o with Some true => true | _ => false end.

Definition is_false (o : option bool) : bool :=
  match o with Some false => true | _ => false end.

Definition lt (a b : JSValue) : bool := is_true (less_than a b).
Definition gt (a b : JSValue) : bool := is_true (less_than b a).
Definition le (a b : JSValue) : bool := is_false (less_than b a).
Definition ge (a b : JSValue) : bool := is_false (less_than a b).

(** [parseInt(s, 10)]: leading white space, an optional sign and the
    longest run of decimal digits. *)
Fixpoint digits_prefix (acc : option Z) (s : string) : option Z :=
  match s with
  | EmptyString => acc
  | String c s' =>
      if JsString.is_digit c
      then digits_prefix
             (Some (10 * default 0 acc + Z.of_nat (JsString.code c - 48))) s'
      else acc
  end.

Definition of_option (o : option Z) : JNum :=
  match o with Some z => Int z | None => NaN end.

Definition parseInt (s : string) : JNum :=
  match JsString.trimStart s with
  | String "+" s' => of_option (digits_prefix None s')
  | String "-" s' => SpecFloat.SFopp (of_option (digits_prefix None s'))
  | s' => of_option (digits_prefix None s')
  end.

(** [n % 2 === 0]: [n] is zero or an even integer. *)
Definition is_even (n : JNum) : bool :=
  match n with
  | SpecFloat.S754_zero _ => true
  | SpecFloat.S754_finite _ m e =>
      if 0 <? e then true else Z.pos m mod 2 ^ (1 - e) =? 0
  | _ => false
  end.

End Js.

(** ** Visibility evaluator *)

Record Criterion : Type := {
  leftValue : string;
  operator : string;
  rightValue : JSValue
}.

Record VisibilityRule : Type := {
  criteria : option (list Criterion);
  booleanFilter : option string
}.

(** [this.recordData]: current values under lower-cased field ids. *)
Abbreviation RecordData := (gmap string JSValue).

(** [recordData[key]]: [undefined] for a key that is not there. *)
Definition recordData_get (recordData : RecordData) (key : string) : JSValue :=
  default VUndefined (recordData !! key).

(** The body of the inner loop of [evaluateBooleanExpression]. *)
Definition evaluateAndPart (andResult : bool) (andPart : string) : result bool :=
  let value := JsString.trim andPart in
  if String.eqb value "1" then Ok (andResult && true)
  else if String.eqb value "0" then Ok (andResult && false)
  else Throw (Error ("Unexpected value in boolean expression: " ++ value)).

Fixpoint evaluateAndParts (andResult : bool) (andParts : list string)
  : result bool :=
  match andParts with
  | [] => Ok andResult
  | andPart :: rest =>
      r ← evaluateAndPart andResult andPart; evaluateAndParts r rest
  end.

(** The outer loop of [evaluateBooleanExpression]. *)
Fixpoint evaluateOrParts (orParts : list string) : result bool :=
  match orParts with
  | [] => Ok false
  | orPart :: rest =>
      andResult ← evaluateAndParts true (JsString.split "&&" (JsString.trim orPart));
      if (andResult : bool) then Ok true else evaluateOrParts rest
  end.

Definition evaluateBooleanExpression (expression : string) : result bool :=
  let evalExpression := JsString.replaceWord "true" "1" expression in
  let evalExpression := JsString.replaceWord "false" "0" evalExpression in
  evaluateOrParts (JsString.split "||" evalExpression).

(** [criterion.leftValue.replace("{!Record.", "").replace("}", "")
      .toLowerCase()] *)
Definition leftFieldApiName (criterion : Criterion) : string :=
  JsString.toLowerCase
    (JsString.replace "}" ""
       (JsString.replace "{!Record." "" (leftValue criterion))).

(** The callback of [visibilityRule.criteria.map] in [evaluateVisibilityRule].
    [leftValue?.includes(rightValue)] is [undefined] on a missing left value,
    a substring test on a string and a [TypeError] on a number or a boolean. *)
Definition evaluateCriterion (recordData : RecordData) (criterion : Criterion)
  : result JSValue :=
  let leftV := recordData_get recordData (leftFieldApiName criterion) in
  let rightV := rightValue criterion in
  let op := operator criterion in
  if String.eqb op "CONTAINS" then
    match leftV with
    | VUndefined | VNull => Ok VUndefined
    | VStr s => Ok (VBool (JsString.includes (Js.ToString rightV) s))
    | VBool _ | VNum _ => Throw (TypeError "leftValue.includes is not a function")
    end
  else if String.eqb op "EQUAL" then Ok (VBool (Js.strict_eq leftV rightV))
  else if String.eqb op "NE" then Ok (VBool (negb (Js.strict_eq leftV rightV)))
  else if String.eqb op "GT" then Ok (VBool (Js.gt leftV rightV))
  else if String.eqb op "GE" then Ok (VBool (Js.ge leftV rightV))
  else if String.eqb op "LE" then Ok (VBool (Js.le leftV rightV))
  else if String.eqb op "LT" then Ok (VBool (Js.lt leftV rightV))
  else Ok (VBool false).

(** [results.forEach((result, index) => expression = expression.replace(
    new RegExp(`\\b${index + 1}\\b`, "g"), result))], from position [index]
    on; the replacement is the outcome converted to a string. *)
Fixpoint substituteResults (index : nat) (results : list JSValue)
  (expression : string) : string :=
  match results with
  | [] => expression
  | r :: rest =>
      substituteResults (S index) rest
        (JsString.replaceWord (JsString.of_nat (index + 1)) (Js.ToString r)
           expression)
  end.

(** The expression handed to [evaluateBooleanExpression]: the filter in lower
    case, [and] and [or] replaced by [&&] and [||], positions replaced by the
    outcomes. *)
Definition filterExpression (f : string) (results : list JSValue) : string :=
  let expression :=
    JsString.replaceWord "or" "||"
      (JsString.replaceWord "and" "&&" (JsString.toLowerCase f)) in
  substituteResults 0 results expression.

(** An absent or empty [booleanFilter] is falsy. *)
Definition activeFilter (rule : VisibilityRule) : option string :=
  match booleanFilter rule with
  | Some f => if String.eqb f "" then None else Some f
  | None => None
  end.

Definition evaluateVisibilityRule (recordData : RecordData)
  (visibilityRule : option VisibilityRule) : result JSValue :=
  match visibilityRule with
  | None => Ok (VBool true)
  | Some rule =>
      match criteria rule with
      | None => Ok (VBool true)
      | Some cs =>
          results ← map_result (evaluateCriterion recordData) cs;
          let isVisible :=
            match results with
            | r :: _ => r
            | [] => VBool true
            end in
          match activeFilter rule with
          | None => Ok isVisible
          | Some f =>
              match evaluateBooleanExpression (filterExpression f results) with
              | Ok b => Ok (VBool b)
              | Throw _ => Ok (VBool false)
              end
          end
      end
  end.

(** ** Arrays and plain objects *)

(** [Array.prototype.sort] with a comparator: the sort is stable, an element
    is placed in front of the first later element that it does not follow. *)
Fixpoint sort_insert {A : Type} (cmp : A -> A -> Z) (x : A) (l : list A)
  : list A :=
  match l with
  | [] => [x]
  | y :: l' => if cmp x y <=? 0 then x :: y :: l' else y :: sort_insert cmp x l'
  end.

Fixpoint Array_sort {A : Type} (cmp : A -> A -> Z) (l : list A) : list A :=
  match l with
  | [] => []
  | x :: l' => sort_insert cmp x (Array_sort cmp l')
  end.

(** A plain object as the list of its own properties in insertion order. *)
Abbreviation Obj V := (list (string * V)).

(** [o[key]] *)
Fixpoint obj_get {V : Type} (o : Obj V) (key : string) : option V :=
  match o with
  | [] => None
  | (k, v) :: o' => if String.eqb k key then Some v else obj_get o' key
  end.

(** [o[key] = v]: an existing property keeps its position. *)
Fixpoint obj_set {V : Type} (o : Obj V) (key : string) (v : V) : Obj V :=
  match o with
  | [] => [(key, v)]
  | (k, w) :: o' =>
      if String.eqb k key then (k, v) :: o' else (k, w) :: obj_set o' key v
  end.

(** [delete o[key]] *)
Fixpoint obj_delete {V : Type} (o : Obj V) (key : string) : Obj V :=
  match o with
  | [] => []
  | (k, w) :: o' =>
      if String.eqb k key then obj_delete o' key else (k, w) :: obj_delete o' key
  end.

(** [Object.keys(o)] *)
Definition obj_keys {V : Type} (o : Obj V) : list string := List.map fst o.

(** [keys.includes(key)] on an array of strings. *)
Definition array_includes (keys : list string) (key : string) : bool :=
  existsb (String.eqb key) keys.

(** ** Format evaluator: icon rules *)

Record Icon : Type := {
  iconName : JSValue;
  iconResourcePath : JSValue
}.

Record IconRule : Type := {
  visibilityGroup : Z;
  visibilityRank : Z;
  rule_operator : string;
  operand : JSValue;
  icon : option Icon;
  iconColor : JSValue
}.

(** The object returned for a matching icon rule. *)
Record IconFormat : Type := {
  fmt_type : string;
  fmt_iconName : JSValue;
  fmt_iconResourcePath : JSValue;
  fmt_iconColor : JSValue
}.

(** [!isNaN(v) ? Number(v) : v] *)
Definition coerceNumeric (v : JSValue) : JSValue :=
  if negb (Js.isNaN v) then VNum (Js.ToNumber v) else v.

(** The comparator handed to [sort] in [evaluateIconRules]. *)
Definition compareIconRules (a b : IconRule) : Z :=
  if negb (visibilityGroup a =? visibilityGroup b)
  then visibilityGroup a - visibilityGroup b
  else visibilityRank a - visibilityRank b.

(** The [switch] on [rule.operator] in [evaluateIconRules]. *)
Definition iconRuleMatches (numValue : JSValue) (rule : IconRule) : bool :=
  let operand := coerceNumeric (operand rule) in
  let op := rule_operator rule in
  if String.eqb op "GT" then Js.gt numValue operand
  else if String.eqb op "GE" then Js.ge numValue operand
  else if String.eqb op "LT" then Js.lt numValue operand
  else if String.eqb op "LE" then Js.le numValue operand
  else if String.eqb op "EQUAL" then Js.strict_eq numValue operand
  else if String.eqb op "NE" then negb (Js.strict_eq numValue operand)
  else false.

Definition iconFormatOf (rule : IconRule) (i : Icon) : IconFormat :=
  {| fmt_type := "icon";
     fmt_iconName := iconName i;
     fmt_iconResourcePath := iconResourcePath i;
     fmt_iconColor := iconColor rule |}.

(** The loop over the sorted rules: the first rule that matches and has an
    icon ends it. *)
Fixpoint firstIconMatch (numValue : JSValue) (sortedRules : list IconRule)
  : option IconFormat :=
  match sortedRules with
  | [] => None
  | rule :: rest =>
      if iconRuleMatches numValue rule
      then match icon rule with
           | Some i => Some (iconFormatOf rule i)
           | None => firstIconMatch numValue rest
           end
      else firstIconMatch numValue rest
  end.

Definition is_nullish (v : JSValue) : bool :=
  match v with
  | VUndefined | VNull => true
  | _ => false
  end.

(** [None] is the result [null]. *)
Definition evaluateIconRules (recordData : RecordData)
  (iconRules : option (list IconRule)) (fieldId : string) : option IconFormat :=
  match iconRules with
  | None | Some [] => None
  | Some rules =>
      let fieldValue := recordData_get recordData (JsString.toLowerCase fieldId) in
      if is_nullish fieldValue then None
      else
        let numValue := coerceNumeric fieldValue in
        let sortedRules := Array_sort compareIconRules rules in
        firstIconMatch numValue sortedRules
  end.

(** ** Format evaluator: rule sets, cache and fetch *)

Record TextRule : Type := {
  text_criteria : option (list Criterion);
  formatValue : option string
}.

(** What [getUiFormatSpecificationSet] resolves to. *)
Record IconRuleSet : Type := {
  rules : option (list IconRule)
}.

(** The object form of a [conditionalFormatRuleset]. *)
Record FormatRuleset : Type := {
  ruleset_type : option string;
  ruleset_value : option string;
  ruleset_rules : option (list TextRule)
}.

(** A [conditionalFormatRuleset] is a primitive (a developer name when it is a
    string) or an object. *)
Inductive ConditionalFormatRuleset : Type :=
  | RulesetValue (v : JSValue)
  | RulesetObject (o : FormatRuleset).

(** [!isNaN(v) && v !== "" ? Number(v) : v] *)
Definition coerceNumericNonEmpty (v : JSValue) : JSValue :=
  if negb (Js.isNaN v) && negb (Js.strict_eq v (VStr ""))
  then VNum (Js.ToNumber v) else v.

(** The callback of [rule.criteria.every] in [evaluateConditionalFormatRule]. *)
Definition evaluateFormatCriterion (recordData : RecordData)
  (criterion : Criterion) : result JSValue :=
  let leftV := recordData_get recordData (leftFieldApiName criterion) in
  let rightV := rightValue criterion in
  let leftNum := coerceNumericNonEmpty leftV in
  let rightNum := coerceNumericNonEmpty rightV in
  let op := operator criterion in
  if String.eqb op "CONTAINS" then
    match leftV with
    | VUndefined | VNull => Ok VUndefined
    | VStr s => Ok (VBool (JsString.includes (Js.ToString rightV) s))
    | VBool _ | VNum _ => Throw (TypeError "leftValue.includes is not a function")
    end
  else if String.eqb op "EQUAL" then Ok (VBool (Js.strict_eq leftV rightV))
  else if String.eqb op "NE" then Ok (VBool (negb (Js.strict_eq leftV rightV)))
  else if String.eqb op "GT" then Ok (VBool (Js.gt leftNum rightNum))
  else if String.eqb op "GE" then Ok (VBool (Js.ge leftNum rightNum))
  else if String.eqb op "LE" then Ok (VBool (Js.le leftNum rightNum))
  else if String.eqb op "LT" then Ok (VBool (Js.lt leftNum rightNum))
  else Ok (VBool false).

(** [xs.every(f)]: the first falsy outcome ends the traversal. *)
Fixpoint every_result {A : Type} (f : A -> result JSValue) (l : list A)
  : result bool :=
  match l with
  | [] => Ok true
  | x :: l' => v ← f x; if Js.truthy v then every_result f l' else Ok false
  end.

(** [this.iconFormatCache] *)
Abbreviation IconFormatCache := (gmap string (option IconRuleSet)).

(** [cache[key]] as far as its truthiness and content matter: [None] for a
    missing entry and for a stored [null]. *)
Definition cache_get (cache : IconFormatCache) (key : string)
  : option IconRuleSet :=
  mjoin (cache !! key).

(** An [async] function body: reads and writes of the component's state run
    to the next [await]; [Await] is
    [await getUiFormatSpecificationSet({ developerName })], resumed with the
    value the promise settles to. *)
Inductive Async (A : Type) : Type :=
  | Return (r : result A)
  | GetRecordData (k : RecordData -> Async A)
  | GetCache (key : string) (k : option IconRuleSet -> Async A)
  | SetCache (key : string) (v : option IconRuleSet) (k : Async A)
  | Await (developerName : string) (k : result (option IconRuleSet) -> Async A).

Arguments Return {A} r.
Arguments GetRecordData {A} k.
Arguments GetCache {A} key k.
Arguments SetCache {A} key v k.
Arguments Await {A} developerName k.

Section FormatEvaluator.

(** The style objects encoded in [formatValue], and [JSON.parse] on them. *)
Variable Json : Type.
Variable JSON_parse : string -> result Json.

Inductive FormatStyle : Type :=
  | IconStyle (f : IconFormat)
  | TextStyle (j : Json).

(** The loop over the inline text rules; [None] is [null]. *)
Fixpoint evaluateTextRules (recordData : RecordData) (textRules : list TextRule)
  : result (option FormatStyle) :=
  match textRules with
  | [] => Ok None
  | rule :: rest =>
      match text_criteria rule with
      | None => evaluateTextRules recordData rest
      | Some cs =>
          allCriteriaMet ← every_result (evaluateFormatCriterion recordData) cs;
          match (allCriteriaMet : bool), formatValue rule with
          | true, Some fv =>
              if String.eqb fv "" then evaluateTextRules recordData rest
              else match JSON_parse fv with
                   | Ok formatStyle => Ok (Some (TextStyle formatStyle))
                   | Throw _ => evaluateTextRules recordData rest
                   end
          | _, _ => evaluateTextRules recordData rest
          end
      end
  end.

(** The part of [evaluateConditionalFormatRule] after the icon branch. *)
Definition textFormat (o : FormatRuleset) : Async (option FormatStyle) :=
  match ruleset_rules o with
  | None => Return (Ok None)
  | Some textRules =>
      GetRecordData (fun recordData =>
        Return (evaluateTextRules recordData textRules))
  end.

(** [const iconRuleSet = this.iconFormatCache[value]] and what follows. *)
Definition iconFormat (o : FormatRuleset) (key fieldId : string)
  : Async (option FormatStyle) :=
  GetCache key (fun iconRuleSet =>
    match iconRuleSet with
    | Some rs =>
        match rules rs with
        | Some iconRules =>
            GetRecordData (fun recordData =>
              Return (Ok (IconStyle <$>
                            evaluateIconRules recordData (Some iconRules) fieldId)))
        | None => textFormat o
        end
    | None => textFormat o
    end).

Definition evaluateFormatObject (o : FormatRuleset) (fieldId : string)
  : Async (option FormatStyle) :=
  match ruleset_type o, ruleset_value o with
  | Some ty, Some value =>
      if String.eqb ty "icon" && negb (String.eqb value "") then
        GetCache value (fun cached =>
          match cached with
          | None =>
              Await value (fun response =>
                match response with
                | Ok iconRules =>
                    SetCache value iconRules (iconFormat o value fieldId)
                | Throw _ => Return (Ok None)
                end)
          | Some _ => iconFormat o value fieldId
          end)
      else textFormat o
  | _, _ => textFormat o
  end.

Definition evaluateConditionalFormatRule
  (conditionalFormatRuleset : option ConditionalFormatRuleset)
  (fieldId : string) : Async (option FormatStyle) :=
  match conditionalFormatRuleset with
  | None => Return (Ok None)
  | Some (RulesetValue v) =>
      if Js.truthy v then
        match v with
        | VStr developerName =>
            evaluateFormatObject
              {| ruleset_type := Some "icon";
                 ruleset_value := Some developerName;
                 ruleset_rules := None |} fieldId
        | _ => Return (Ok None)
        end
      else Return (Ok None)
  | Some (RulesetObject o) => evaluateFormatObject o fieldId
  end.

End FormatEvaluator.

Arguments IconStyle {Json} f.
Arguments TextStyle {Json} j.

(** *** The event loop *)

(** The state of the component that format evaluation touches, and the log
    of the calls made to [getUiFormatSpecificationSet]. *)
Record FormState : Type := {
  recordData : RecordData;
  iconFormatCache : IconFormatCache;
  fetchLog : list string
}.

(** An [async] call is settled or waits for the response to a fetch. *)
Inductive Status (A : Type) : Type :=
  | Settled (r : result A)
  | Pending (developerName : string)
      (k : result (option IconRuleSet) -> Async A).

Arguments Settled {A} r.
Arguments Pending {A} developerName k.

(** Run to completion or to the next [await]; reaching an [await] issues
    the fetch. *)
Fixpoint run {A : Type} (p : Async A) (st : FormState) : Status A * FormState :=
  match p with
  | Return r => (Settled r, st)
  | GetRecordData k => run (k (recordData st)) st
  | GetCache key k => run (k (cache_get (iconFormatCache st) key)) st
  | SetCache key v k =>
      run k {| recordData := recordData st;
               iconFormatCache := <[key := v]> (iconFormatCache st);
               fetchLog := fetchLog st |}
  | Await developerName k =>
      (Pending developerName k,
       {| recordData := recordData st;
          iconFormatCache := iconFormatCache st;
          fetchLog := fetchLog st ++ [developerName] |})
  end.

(** The promise a pending call waits for settles with [response]. *)
Definition resume {A : Type} (s : Status A)
  (response : result (option IconRuleSet)) (st : FormState)
  : Status A * FormState :=
  match s with
  | Settled r => (Settled r, st)
  | Pending _ k => run (k response) st
  end.

(** [fields.map(async ...)]: every call runs up to its first [await] before
    any response is delivered. *)
Fixpoint startAll {A : Type} (ps : list (Async A)) (st : FormState)
  : list (Status A) * FormState :=
  match ps with
  | [] => ([], st)
  | p :: ps' =>
      let '(s, st1) := run p st in
      let '(ss, st2) := startAll ps' st1 in
      (s :: ss, st2)
  end.

(** ** Layout document and canonical tree *)

(** An entry of [fieldInstanceProperties] or [componentInstanceProperties];
    the metadata encodes property values as primitives. *)
Record Property : Type := {
  prop_name : string;
  prop_value : JSValue
}.

Record FieldInstance : Type := {
  fieldItem : string;
  fieldInstanceProperties : option (list Property);
  fieldInstance_visibilityRule : option VisibilityRule
}.

Record ComponentInstance : Type := {
  componentName : string;
  identifier : option string;
  componentInstanceProperties : option (list Property)
}.

Record ItemInstance : Type := {
  fieldInstance : option FieldInstance;
  componentInstance : option ComponentInstance
}.

Record Region : Type := {
  region_type : string;
  region_name : string;
  itemInstances : option (list ItemInstance)
}.

(** [flexiPageRegions] is [None] when it is missing or not an array. *)
Record FlexiPage : Type := {
  flexiPageRegions : option (list Region)
}.

(** A field slot of the canonical tree.  A blank space only carries
    [isBlankSpace], [isVisible] and [order]; its other members are absent in
    the source and are never read. *)
Record FieldSlot : Type := {
  value : JSValue;
  isVisible : JSValue;
  isRequired : bool;
  isReadOnly : bool;
  visibilityRule : option VisibilityRule;
  conditionalFormatRuleset : option ConditionalFormatRuleset;
  order : nat;
  isBlankSpace : bool
}.

Record Column : Type := {
  side : string;
  fields : Obj FieldSlot
}.

Record Section_ : Type := {
  label : JSValue;
  columns : Obj Column
}.

Abbreviation ParsedSections := (Obj Section_).

(** [props.find((prop) => prop.name === name)] *)
Definition findProperty (props : list Property) (name : string)
  : option Property :=
  List.find (fun prop => String.eqb (prop_name prop) name) props.

(** [props?.find((prop) => prop.name === name)?.value] *)
Definition propertyValue (props : option (list Property)) (name : string)
  : JSValue :=
  match props with
  | None => VUndefined
  | Some ps =>
      match findProperty ps name with
      | Some prop => prop_value prop
      | None => VUndefined
      end
  end.

(** [props.find((prop) => prop.name === name).value], which raises when
    [props] is missing or has no such entry. *)
Definition requiredPropertyValue (props : option (list Property)) (name : string)
  : result JSValue :=
  match props with
  | None => Throw (TypeError "Cannot read properties of undefined (reading 'find')")
  | Some ps =>
      match findProperty ps name with
      | Some prop => Ok (prop_value prop)
      | None => Throw (TypeError "Cannot read properties of undefined (reading 'value')")
      end
  end.

(** [v || w] *)
Definition or_else (v w : JSValue) : JSValue := if Js.truthy v then v else w.

(** [xs.forEach((x, index) => ...)] for a callback that updates a state and
    may raise; [index] is the position of the head of [xs]. *)
Fixpoint forEach_result {A St : Type} (f : St -> A -> nat -> result St)
  (xs : list A) (index : nat) (s : St) : result St :=
  match xs with
  | [] => Ok s
  | x :: xs' => s' ← f s x index; forEach_result f xs' (S index) s'
  end.

(** [region.itemInstances.forEach(...)], which raises when the region has no
    [itemInstances]. *)
Definition forEachItem {St : Type} (f : St -> ItemInstance -> nat -> result St)
  (region : Region) (s : St) : result St :=
  match itemInstances region with
  | None => Throw (TypeError "Cannot read properties of undefined (reading 'forEach')")
  | Some items => forEach_result f items 0%nat s
  end.

(** *** Simple layouts *)

Definition hasSimpleLayout (regions : list Region) : bool :=
  existsb
    (fun region =>
       String.eqb (region_type region) "Region" &&
       match itemInstances region with
       | Some items =>
           existsb (fun item => bool_decide (is_Some (fieldInstance item))) items
       | None => false
       end)
    regions.

Definition simpleFieldSlot (fi : FieldInstance) (index : nat) : FieldSlot :=
  {| value := or_else (propertyValue (fieldInstanceProperties fi) "value") (VStr "");
     isVisible := VBool true;
     isRequired := false;
     isReadOnly := false;
     visibilityRule := None;
     conditionalFormatRuleset := None;
     order := index;
     isBlankSpace := false |}.

(** [region.itemInstances.forEach((item, index) => ...)] of the simple
    branch, from position [index] on. *)
Fixpoint addSimpleItems (items : list ItemInstance) (index : nat)
  (defaultFields : Obj FieldSlot) : Obj FieldSlot :=
  match items with
  | [] => defaultFields
  | item :: rest =>
      addSimpleItems rest (S index)
        match fieldInstance item with
        | Some fi =>
            let fieldApiName := JsString.replace "Record." "" (fieldItem fi) in
            obj_set defaultFields fieldApiName (simpleFieldSlot fi index)
        | None => defaultFields
        end
  end.

Definition addSimpleRegion (defaultFields : Obj FieldSlot) (region : Region)
  : Obj FieldSlot :=
  if String.eqb (region_type region) "Region" then
    match itemInstances region with
    | Some items => addSimpleItems items 0%nat defaultFields
    | None => defaultFields
    end
  else defaultFields.

Definition parseSimpleLayout (regions : list Region) : ParsedSections :=
  [("defaultSection",
    {| label := VStr "Information";
       columns :=
         [("defaultColumn",
           {| side := "left";
              fields := fold_left addSimpleRegion regions [] |})] |})].

(** *** Complex layouts *)

(** First pass: a [flexipage:fieldSection] component declares a section. *)
Definition collectSection (sections : ParsedSections)
  (itemInstance : ItemInstance) (_ : nat) : result ParsedSections :=
  match componentInstance itemInstance with
  | Some ci =>
      if String.eqb (componentName ci) "flexipage:fieldSection" then
        columnsValue ← requiredPropertyValue (componentInstanceProperties ci) "columns";
        labelValue ← requiredPropertyValue (componentInstanceProperties ci) "label";
        let sectionFacetId := Js.ToString columnsValue in
        let sectionLabel := or_else labelValue (VStr "Unnamed Section") in
        match obj_get sections sectionFacetId with
        | Some _ => Ok sections
        | None =>
            Ok (obj_set sections sectionFacetId
                  {| label := sectionLabel; columns := [] |})
        end
      else Ok sections
  | None => Ok sections
  end.

(** [parseInt(identifier.replace("flexipage_column", ""), 10) % 2 === 0
     ? "right" : "left"] *)
Definition columnSide (identifier : string) : string :=
  if Js.is_even (Js.parseInt (JsString.replace "flexipage_column" "" identifier))
  then "right" else "left".

(** Second pass: a [flexipage:column] component of a facet region declares a
    column of the section named like the region. *)
Definition collectColumn (region : Region) (sections : ParsedSections)
  (itemInstance : ItemInstance) (_ : nat) : result ParsedSections :=
  match componentInstance itemInstance with
  | Some ci =>
      if String.eqb (componentName ci) "flexipage:column" then
        bodyValue ← requiredPropertyValue (componentInstanceProperties ci) "body";
        let columnFacetId := Js.ToString bodyValue in
        let sectionFacetId := region_name region in
        sideValue ←
          match identifier ci with
          | Some ident => Ok (columnSide ident)
          | None =>
              Throw (TypeError "Cannot read properties of undefined (reading 'replace')")
          end;
        match obj_get sections sectionFacetId with
        | Some section =>
            Ok (obj_set sections sectionFacetId
                  {| label := label section;
                     columns :=
                       obj_set (columns section) columnFacetId
                         {| side := sideValue; fields := [] |} |})
        | None => Ok sections
        end
      else Ok sections
  | None => Ok sections
  end.

(** [Object.keys(sections).find((sectionId) =>
      Object.keys(sections[sectionId].columns).includes(columnFacetId))] *)
Definition owningSection (sections : ParsedSections) (columnFacetId : string)
  : option string :=
  List.find
    (fun sectionId =>
       match obj_get sections sectionId with
       | Some section => array_includes (obj_keys (columns section)) columnFacetId
       | None => false
       end)
    (obj_keys sections).

(** [sections[sid].columns[cid].fields[fid] = slot] *)
Definition setField (sections : ParsedSections) (sid cid fid : string)
  (slot : FieldSlot) : ParsedSections :=
  match obj_get sections sid with
  | Some section =>
      match obj_get (columns section) cid with
      | Some column =>
          obj_set sections sid
            {| label := label section;
               columns :=
                 obj_set (columns section) cid
                   {| side := side column;
                      fields := obj_set (fields column) fid slot |} |}
      | None => sections
      end
  | None => sections
  end.

Definition complexFieldSlot (fi : FieldInstance) (itemIndex : nat) : FieldSlot :=
  let props := fieldInstanceProperties fi in
  let uiBehavior := propertyValue props "uiBehavior" in
  {| value := or_else (propertyValue props "value") (VStr "");
     isVisible := VBool true;
     isRequired := Js.strict_eq uiBehavior (VStr "required");
     isReadOnly := Js.strict_eq uiBehavior (VStr "readonly");
     visibilityRule := fieldInstance_visibilityRule fi;
     conditionalFormatRuleset :=
       match propertyValue props "conditionalFormatRuleset" with
       | VUndefined => None
       | v => Some (RulesetValue v)
       end;
     order := itemIndex;
     isBlankSpace := false |}.

Definition blankSpaceSlot (itemIndex : nat) : FieldSlot :=
  {| value := VUndefined;
     isVisible := VBool true;
     isRequired := false;
     isReadOnly := false;
     visibilityRule := None;
     conditionalFormatRuleset := None;
     order := itemIndex;
     isBlankSpace := true |}.

(** Third pass: a field instance or a blank space of a facet region goes into
    the column named like the region. *)
Definition placeItem (region : Region) (sections : ParsedSections)
  (itemInstance : ItemInstance) (itemIndex : nat) : result ParsedSections :=
  let columnFacetId := region_name region in
  match owningSection sections columnFacetId with
  | Some sectionFacetId =>
      if String.eqb sectionFacetId "" then Ok sections
      else
        match fieldInstance itemInstance, componentInstance itemInstance with
        | Some fi, _ =>
            let fieldApiName := JsString.replace "Record." "" (fieldItem fi) in
            Ok (setField sections sectionFacetId columnFacetId fieldApiName
                  (complexFieldSlot fi itemIndex))
        | None, Some ci =>
            if String.eqb (componentName ci) "flexipage:blankSpace" then
              let spacerId :=
                match identifier ci with
                | Some ident =>
                    if String.eqb ident ""
                    then "spacer_" ++ JsString.of_nat itemIndex
                    else ident
                | None => "spacer_" ++ JsString.of_nat itemIndex
                end in
              Ok (setField sections sectionFacetId columnFacetId spacerId
                    (blankSpaceSlot itemIndex))
            else Ok sections
        | None, None => Ok sections
        end
  | None => Ok sections
  end.

Definition sectionHasFields (section : Section_) : bool :=
  existsb
    (fun column => negb (Nat.eqb (List.length (obj_keys (fields column.2))) 0))
    (columns section).

(** Last pass: [Object.keys(sections).forEach(...)] deleting the sections
    without a field. *)
Definition removeEmptySections (sections : ParsedSections) : ParsedSections :=
  fold_left
    (fun acc sectionKey =>
       match obj_get acc sectionKey with
       | Some section =>
           if sectionHasFields section then acc else obj_delete acc sectionKey
       | None => acc
       end)
    (obj_keys sections) sections.

Definition onFacet (f : Region -> ParsedSections -> ItemInstance -> nat -> result ParsedSections)
  (sections : ParsedSections) (region : Region) (_ : nat)
  : result ParsedSections :=
  if String.eqb (region_type region) "Facet"
  then forEachItem (f region) region sections
  else Ok sections.

Definition parseComplexLayout (regions : list Region) : result ParsedSections :=
  sections ←
    forEach_result (fun s region _ => forEachItem collectSection region s)
      regions 0%nat [];
  sections ← forEach_result (onFacet collectColumn) regions 0%nat sections;
  sections ← forEach_result (onFacet placeItem) regions 0%nat sections;
  Ok (removeEmptySections sections).

(** [parseFlexiPageJson] of utils.js; [None] is a document that is [null] or
    [undefined]. *)
Definition parseFlexiPageJson (flexiPageJson : option FlexiPage)
  : result ParsedSections :=
  match flexiPageJson with
  | None => Ok []
  | Some doc =>
      match flexiPageRegions doc with
      | None => Ok []
      | Some regions =>
          if hasSimpleLayout regions then Ok (parseSimpleLayout regions)
          else parseComplexLayout regions
      end
  end.

(** ** View-model assembler *)

(** The properties of the component that the assembler reads: [_recordId]
    and the [@api] properties [excludedFields], [defaultValues], [isReadOnly]
    and [flowContext]. *)
Record FormComponent : Type := {
  api_recordId : option string;
  api_excludedFields : string;
  api_defaultValues : string;
  api_isReadOnly : bool;
  api_flowContext : bool
}.

Definition readOnlyFields : list string :=
  ["CreatedById"; "LastModifiedById"; "Id"; "SystemModstamp"; "CreatedDate";
   "LastModifiedDate"; "OwnerId"].

(** The getter [allExcludedFields]. *)
Definition allExcludedFields (this : FormComponent) : list string :=
  let userExcludedFields :=
    if String.eqb (api_excludedFields this) "" then []
    else List.map JsString.trim (JsString.split "," (api_excludedFields this)) in
  let excludedFieldsList :=
    (userExcludedFields ++
       if negb (api_isReadOnly this) then readOnlyFields else [])%list in
  List.map JsString.toLowerCase excludedFieldsList.

(** Apply [f] to every value of an object, keys and order unchanged. *)
Definition obj_map {V W : Type} (f : V -> W) (o : Obj V) : Obj W :=
  List.map (fun kv => (kv.1, f kv.2)) o.

(** [Object.keys(column.fields).forEach((fieldId) => { if
    (excludedFields.includes(fieldId.toLowerCase())) delete
    column.fields[fieldId]; })] *)
Definition removeExcludedFromColumn (excluded : list string) (column : Column)
  : Column :=
  {| side := side column;
     fields :=
       fold_left
         (fun fs fieldId =>
            if array_includes excluded (JsString.toLowerCase fieldId)
            then obj_delete fs fieldId
            else fs)
         (obj_keys (fields column)) (fields column) |}.

(** [JSON.parse(JSON.stringify(v))] on the value of a member: [NaN] and the
    infinities are written as [null] and -0 as 0, every other number is
    written with the digits that read back as the same number; a member that
    holds [undefined] is left out and reads as [undefined] again. *)
Definition jsonCopy (v : JSValue) : JSValue :=
  match v with
  | VNum SpecFloat.S754_nan | VNum (SpecFloat.S754_infinity _) => VNull
  | VNum (SpecFloat.S754_zero _) => VNum (Int 0)
  | _ => v
  end.

Definition jsonCopyCriterion (criterion : Criterion) : Criterion :=
  {| leftValue := leftValue criterion;
     operator := operator criterion;
     rightValue := jsonCopy (rightValue criterion) |}.

Definition jsonCopyRule (rule : VisibilityRule) : VisibilityRule :=
  {| criteria := List.map jsonCopyCriterion <$> criteria rule;
     booleanFilter := booleanFilter rule |}.

Definition jsonCopyTextRule (rule : TextRule) : TextRule :=
  {| text_criteria := List.map jsonCopyCriterion <$> text_criteria rule;
     formatValue := formatValue rule |}.

Definition jsonCopyRuleset (ruleset : ConditionalFormatRuleset)
  : ConditionalFormatRuleset :=
  match ruleset with
  | RulesetValue v => RulesetValue (jsonCopy v)
  | RulesetObject o =>
      RulesetObject
        {| ruleset_type := ruleset_type o;
           ruleset_value := ruleset_value o;
           ruleset_rules := List.map jsonCopyTextRule <$> ruleset_rules o |}
  end.

Definition jsonCopySlot (field : FieldSlot) : FieldSlot :=
  {| value := jsonCopy (value field);
     isVisible := jsonCopy (isVisible field);
     isRequired := isRequired field;
     isReadOnly := isReadOnly field;
     visibilityRule := jsonCopyRule <$> visibilityRule field;
     conditionalFormatRuleset := jsonCopyRuleset <$> conditionalFormatRuleset field;
     order := order field;
     isBlankSpace := isBlankSpace field |}.

Definition jsonCopyColumn (column : Column) : Column :=
  {| side := side column; fields := obj_map jsonCopySlot (fields column) |}.

(** [JSON.parse(JSON.stringify(parsedSections))]: keys and their order are
    kept, the values of the members are copied. *)
Definition jsonCopySections (parsedSections : ParsedSections) : ParsedSections :=
  obj_map
    (fun section =>
       {| label := jsonCopy (label section);
          columns := obj_map jsonCopyColumn (columns section) |})
    parsedSections.

(** The loops of [removeExcludedFields] over the copy. *)
Definition deleteExcludedFields (this : FormComponent)
  (sections : ParsedSections) : ParsedSections :=
  let excluded := allExcludedFields this in
  obj_map
    (fun section =>
       {| label := label section;
          columns := obj_map (removeExcludedFromColumn excluded) (columns section) |})
    sections.

(** [removeExcludedFields]: the excluded fields are deleted from a deep copy
    of the tree. *)
Definition removeExcludedFields (this : FormComponent)
  (parsedSections : ParsedSections) : ParsedSections :=
  deleteExcludedFields this (jsonCopySections parsedSections).

(** The two maps returned by [parseDefaultValues]. *)
Record DefaultValues : Type := {
  original : Obj JSValue;
  lowercase : Obj JSValue
}.

(** The coercion of a default value: boolean, then number, else the text. *)
Definition processDefaultValue (v : string) : JSValue :=
  if String.eqb (JsString.toLowerCase v) "true" then VBool true
  else if String.eqb (JsString.toLowerCase v) "false" then VBool false
  else if negb (Js.isNaN (VStr v)) && negb (String.eqb (JsString.trim v) "")
       then VNum (Js.StringToNumber v)
       else VStr v.

(** The callback of [fieldPairs.forEach] in [parseDefaultValues]. *)
Definition addDefaultPair (acc : DefaultValues) (pair : string) : DefaultValues :=
  if String.eqb (JsString.trim pair) "" then acc
  else
    match List.map JsString.trim (JsString.split ":" pair) with
    | [] => acc
    | fieldName :: valueParts =>
        let v := JsString.join ":" valueParts in
        if String.eqb fieldName "" then acc
        else
          let processedValue := processDefaultValue v in
          {| original := obj_set (original acc) fieldName processedValue;
             lowercase :=
               obj_set (lowercase acc) (JsString.toLowerCase fieldName)
                 processedValue |}
    end.

Definition parseDefaultValues (this : FormComponent) : DefaultValues :=
  let empty := {| original := []; lowercase := [] |} in
  if String.eqb (api_defaultValues this) "" then empty
  else
    let separator := if JsString.includes ";" (api_defaultValues this) then ";" else "," in
    let fieldPairs := JsString.split separator (api_defaultValues this) in
    fold_left addDefaultPair fieldPairs empty.

(** [!this._recordId || this._recordId.length < 15] *)
Definition isNewRecord (this : FormComponent) : bool :=
  match api_recordId this with
  | None => true
  | Some id => String.eqb id "" || (String.length id <? 15)%nat
  end.

(** [Object.entries(o).forEach(([key, v]) => ...)] for a callback that
    updates the entry in place and a state beside it. *)
Fixpoint obj_forEach {V St : Type} (f : string -> V -> St -> V * St)
  (o : Obj V) (s : St) : Obj V * St :=
  match o with
  | [] => ([], s)
  | (k, v) :: o' =>
      let '(v', s1) := f k v s in
      let '(o'', s2) := obj_forEach f o' s1 in
      ((k, v') :: o'', s2)
  end.

Definition withValue (field : FieldSlot) (v : JSValue) : FieldSlot :=
  {| value := v;
     isVisible := isVisible field;
     isRequired := isRequired field;
     isReadOnly := isReadOnly field;
     visibilityRule := visibilityRule field;
     conditionalFormatRuleset := conditionalFormatRuleset field;
     order := order field;
     isBlankSpace := isBlankSpace field |}.

(** The innermost callback of [applyDefaultValues]; the state is
    [this.recordData] and the flag [updatedFields]. *)
Definition applyDefaultToField (lookupValues : Obj JSValue) (isNew : bool)
  (fieldId : string) (field : FieldSlot) (s : RecordData * bool)
  : FieldSlot * (RecordData * bool) :=
  if isBlankSpace field then (field, s)
  else
    match obj_get lookupValues (JsString.toLowerCase fieldId) with
    | Some v =>
        if isNew || negb (Js.truthy (value field))
        then (withValue field v, (<[JsString.toLowerCase fieldId := v]> s.1, true))
        else (field, s)
    | None => (field, s)
    end.

(** What [applyDefaultValues] leaves behind: the tree, [this.recordData] and
    the record handed to the flow, if one was dispatched. *)
Record DefaultsApplied : Type := {
  applied_sections : ParsedSections;
  applied_recordData : RecordData;
  applied_varRecord : option RecordData
}.

Definition applyDefaultValues (this : FormComponent) (recordData : RecordData)
  (parsedSections : ParsedSections) : DefaultsApplied :=
  let lookupValues := lowercase (parseDefaultValues this) in
  match lookupValues with
  | [] =>
      {| applied_sections := parsedSections;
         applied_recordData := recordData;
         applied_varRecord := None |}
  | _ :: _ =>
      let isNew := isNewRecord this in
      let '(sections, (recordData', updatedFields)) :=
        obj_forEach
          (fun _ section s =>
             let '(cols, s') :=
               obj_forEach
                 (fun _ column s =>
                    let '(fs, s') :=
                      obj_forEach (applyDefaultToField lookupValues isNew)
                        (fields column) s in
                    ({| side := side column; fields := fs |}, s'))
                 (columns section) s in
             ({| label := label section; columns := cols |}, s'))
          parsedSections (recordData, false) in
      {| applied_sections := sections;
         applied_recordData := recordData';
         applied_varRecord :=
           if api_flowContext this && updatedFields then Some recordData' else None |}
  end.

(** [Object.keys(o).forEach((key) => ...)] for a callback that updates the
    entry in place and may raise. *)
Fixpoint obj_forEach_result {V : Type} (f : string -> V -> result V) (o : Obj V)
  : result (Obj V) :=
  match o with
  | [] => Ok []
  | (k, v) :: o' =>
      v' ← f k v; o'' ← obj_forEach_result f o'; Ok ((k, v') :: o'')
  end.

Definition withVisible (field : FieldSlot) (v : JSValue) : FieldSlot :=
  {| value := value field;
     isVisible := v;
     isRequired := isRequired field;
     isReadOnly := isReadOnly field;
     visibilityRule := visibilityRule field;
     conditionalFormatRuleset := conditionalFormatRuleset field;
     order := order field;
     isBlankSpace := isBlankSpace field |}.

(** [calculateVisibility]: the flag of every field that has a rule is set to
    the outcome of [evaluateVisibilityRule]; an exception of the evaluation
    is not caught. *)
Definition calculateVisibility (recordData : RecordData)
  (parsedSections : ParsedSections) : result ParsedSections :=
  obj_forEach_result
    (fun _ section =>
       cols ←
         obj_forEach_result
           (fun _ column =>
              fs ←
                obj_forEach_result
                  (fun _ field =>
                     if isBlankSpace field then Ok field
                     else
                       match visibilityRule field with
                       | Some rule =>
                           v ← evaluateVisibilityRule recordData (Some rule);
                           Ok (withVisible field v)
                       | None => Ok field
                       end)
                  (fields column);
              Ok {| side := side column; fields := fs |})
           (columns section);
       Ok {| label := label section; columns := cols |})
    parsedSections.

(** The members of an enhanced field that depend neither on the field
    metadata nor on the awaited format evaluation. *)
Record EnhancedField : Type := {
  enhanced_fieldId : string;
  enhanced_isBlankSpace : bool;
  enhanced_value : JSValue;
  enhanced_isEditable : bool
}.

Record ColumnView : Type := {
  view_side : string;
  fieldIds : list string;
  view_fields : Obj FieldSlot;
  enhancedFields : list EnhancedField;
  view_class : string
}.

Record SectionView : Type := {
  sectionId : string;
  view_columns : list ColumnView
}.

(** [Object.entries(column.fields).filter(([, field]) => field.isVisible)
      .sort((a, b) => (a[1].order || 0) - (b[1].order || 0))] *)
Definition visibleFields (column : Column) : Obj FieldSlot :=
  Array_sort
    (fun a b => Z.of_nat (order a.2) - Z.of_nat (order b.2))
    (List.filter (fun kv => Js.truthy (isVisible kv.2)) (fields column)).

Definition enhanceField (recordData : RecordData) (kv : string * FieldSlot)
  : EnhancedField :=
  let fieldId := kv.1 in
  let field := kv.2 in
  if isBlankSpace field then
    {| enhanced_fieldId := fieldId;
       enhanced_isBlankSpace := true;
       enhanced_value := VUndefined;
       enhanced_isEditable := false |}
  else
    {| enhanced_fieldId := fieldId;
       enhanced_isBlankSpace := false;
       enhanced_value := recordData_get recordData (JsString.toLowerCase fieldId);
       enhanced_isEditable :=
         negb (array_includes readOnlyFields fieldId) && negb (isReadOnly field) |}.

Definition processColumn (recordData : RecordData) (column : Column)
  : ColumnView :=
  let visible := visibleFields column in
  {| view_side := side column;
     fieldIds := obj_keys visible;
     view_fields := visible;
     enhancedFields := List.map (enhanceField recordData) visible;
     view_class := "" |}.

Definition withClass (c : string) (column : ColumnView) : ColumnView :=
  {| view_side := view_side column;
     fieldIds := fieldIds column;
     view_fields := view_fields column;
     enhancedFields := enhancedFields column;
     view_class := c |}.

(** [processSections], restricted to the members above: per section the
    columns that keep a visible field, and the sections that keep a column.
    This is the value that the promise of the method is fulfilled with;
    whether it is fulfilled is told by [awaitProcessSections] below. *)
Definition processSections (recordData : RecordData)
  (parsedSections : ParsedSections) : list SectionView :=
  let sections :=
    List.map
      (fun kv =>
         let columnsArray :=
           List.map (fun c => processColumn recordData c.2) (columns kv.2) in
         let filteredColumns :=
           List.filter
             (fun column => negb (Nat.eqb (List.length (fieldIds column)) 0))
             columnsArray in
         let columnClass :=
           if Nat.eqb (List.length filteredColumns) 1
           then "slds-col slds-size_1-of-1"
           else "slds-col slds-size_1-of-2 slds-p-horizontal_small" in
         {| sectionId := kv.1;
            view_columns := List.map (withClass columnClass) filteredColumns |})
      parsedSections in
  List.filter
    (fun section => negb (Nat.eqb (List.length (view_columns section)) 0))
    sections.

(** The calls of [evaluateConditionalFormatRule] that [processSections]
    starts, in the order in which it starts them: section by section, column
    by column, one for every visible field that is not a blank space and has
    a truthy [conditionalFormatRuleset].  The callbacks are [async] and are
    started by nested [map]s, so all of them run up to their first [await]
    before any response is delivered. *)
Definition formatEvaluations (Json : Type) (JSON_parse : string -> result Json)
  (parsedSections : ParsedSections) : list (Async (option (FormatStyle Json))) :=
  List.concat
    (List.map
       (fun s =>
          List.concat
            (List.map
               (fun c =>
                  List.concat
                    (List.map
                       (fun kv =>
                          if isBlankSpace kv.2 then []
                          else
                            match conditionalFormatRuleset kv.2 with
                            | Some (RulesetValue v) =>
                                if Js.truthy v
                                then [evaluateConditionalFormatRule Json JSON_parse
                                        (Some (RulesetValue v)) kv.1]
                                else []
                            | Some (RulesetObject o) =>
                                [evaluateConditionalFormatRule Json JSON_parse
                                   (Some (RulesetObject o)) kv.1]
                            | None => []
                            end)
                       (visibleFields c.2)))
               (columns s.2)))
       parsedSections).

(** The ids of the fields of an assembled view model. *)
Definition assembledFieldIds (sections : list SectionView) : list string :=
  List.concat
    (List.map
       (fun section => List.concat (List.map fieldIds (view_columns section)))
       sections).

(** [processFieldData]: the assembly made when record values arrive, as far
    as its synchronous steps can raise; [processFieldDataSettled] below adds
    the awaited [processSections]. *)
Definition processFieldData (this : FormComponent) (config : option FlexiPage)
  (recordData : RecordData) : result (list SectionView * RecordData) :=
  parsedSections ← parseFlexiPageJson config;
  let applied := applyDefaultValues this recordData parsedSections in
  let parsedSections :=
    removeExcludedFields this (applied_sections applied) in
  parsedSections ← calculateVisibility (applied_recordData applied) parsedSections;
  Ok (processSections (applied_recordData applied) parsedSections,
      applied_recordData applied).

(** The assembly made by [connectedCallback] for a new record:
    [this.recordData] starts as a copy of the lower-cased default values.
    [connectedCallbackNewRecord] has the synchronous steps;
    [connectedCallbackSettled] below adds the awaited [processSections] and
    the [catch]. *)
Definition recordDataOfDefaults (lookupValues : Obj JSValue) : RecordData :=
  fold_left (fun m kv => <[kv.1 := kv.2]> m) lookupValues ∅.

Definition connectedCallbackNewRecord (this : FormComponent)
  (config : option FlexiPage) : result (list SectionView * RecordData) :=
  let recordData := recordDataOfDefaults (lowercase (parseDefaultValues this)) in
  parsedSections ← parseFlexiPageJson config;
  let parsedSections := removeExcludedFields this parsedSections in
  Ok (processSections recordData parsedSections, recordData).

(** ** Field collection and the values from the wire *)

(** [[...new Set(xs)]]: the first occurrence of every string, in order;
    [seen] holds the strings that are in the set already. *)
Fixpoint Set_values (seen : list string) (xs : list string) : list string :=
  match xs with
  | [] => []
  | x :: xs' =>
      if array_includes seen x then Set_values seen xs'
      else x :: Set_values (x :: seen) xs'
  end.

(** The filter of [collectFields] on the entries of a column:
    [!excludedFields.includes(fieldId.toLowerCase()) && !field.isBlankSpace] *)
Definition isCollected (excludedFields : list string) (kv : string * FieldSlot)
  : bool :=
  negb (array_includes excludedFields (JsString.toLowerCase kv.1))
  && negb (isBlankSpace kv.2).

Definition collectFields (this : FormComponent) (parsedSections : ParsedSections)
  : list string :=
  let excludedFields := allExcludedFields this in
  let collected :=
    List.concat
      (List.map
         (fun s =>
            List.concat
              (List.map
                 (fun c =>
                    List.map fst (List.filter (isCollected excludedFields) (fields c.2)))
                 (columns s.2)))
         parsedSections) in
  Set_values [] collected.

(** What [fetchFieldValues] stores: [this.fields] and
    [this.fieldApiNamesForWire]. *)
Record FieldsToFetch : Type := {
  form_fields : list string;
  fieldApiNamesForWire : list string
}.

Definition fetchFieldValues (this : FormComponent) (config : option FlexiPage)
  : result FieldsToFetch :=
  parsedSections ← parseFlexiPageJson config;
  let collected := collectFields this parsedSections in
  let excludedFields := allExcludedFields this in
  let filteredFields :=
    List.filter
      (fun field => negb (array_includes excludedFields (JsString.toLowerCase field)))
      collected in
  Ok {| form_fields := collected; fieldApiNamesForWire := filteredFields |}.

(** [mapFieldValues]: the own properties of [data] under lower-cased keys,
    a later property replacing an earlier one of the same lower-cased name. *)
Definition mapFieldValues (data : Obj JSValue) : RecordData :=
  fold_left (fun mappedValues kv => <[JsString.toLowerCase kv.1 := kv.2]> mappedValues)
    data ∅.

(** ** Section state *)

(** The getter [isDataAvailable]; [error] is [this.error], [None] when it is
    not set. *)
Definition isDataAvailable (error : option JSError) (sections : list SectionView)
  : bool :=
  match error with
  | Some _ => false
  | None =>
      let hasFields :=
        if (0 <? List.length sections)%nat then
          existsb
            (fun section =>
               existsb
                 (fun column => (0 <? List.length (enhancedFields column))%nat)
                 (view_columns section))
            sections
        else false in
      (0 <? List.length sections)%nat && hasFields
  end.

(** The members of an entry of [this.sections] that [toggleSection] reads
    and writes; [section_view] carries the others. *)
Record SectionState : Type := {
  sectionName : string;
  section_view : SectionView;
  isOpen : bool;
  section_class : string
}.

(** [`slds-section ${isOpen ? "slds-is-open" : ""}`] *)
Definition sectionClass (isOpen : bool) : string :=
  "slds-section " ++ (if isOpen then "slds-is-open" else "").

(** [toggleSection]; [name] is [event.target.dataset.name]. *)
Definition toggleSection (name : string) (sections : list SectionState)
  : list SectionState :=
  List.map
    (fun section =>
       if String.eqb (sectionName section) name then
         let isOpen := negb (isOpen section) in
         {| sectionName := sectionName section;
            section_view := section_view section;
            isOpen := isOpen;
            section_class := sectionClass isOpen |}
       else section)
    sections.

(** ** Saving *)

(** The members of a [lightning-input-field] that [handleSave] reads. *)
Record InputField : Type := {
  fieldName : string;
  input_value : JSValue;
  defaultValue : JSValue;
  readOnly : bool
}.

(** The argument of [updateRecord] or of [createRecord]. *)
Inductive RecordInput : Type :=
  | UpdateRecordInput (fields : Obj JSValue)
  | CreateRecordInput (apiName : string) (fields : Obj JSValue).

(** The callback of [inputFields.forEach] in [handleSave], on [fields]. *)
Definition addChangedField (this : FormComponent) (changed : Obj JSValue)
  (field : InputField) : Obj JSValue :=
  if negb (Js.strict_eq (input_value field) (defaultValue field))
     && negb (readOnly field)
     && negb (array_includes (allExcludedFields this)
                (JsString.toLowerCase (fieldName field)))
  then obj_set changed (fieldName field) (input_value field)
  else changed.

(** [handleSave] up to the call of the save operation: the record input it
    builds from the input fields of the template. *)
Definition handleSave (this : FormComponent) (objectApiName : string)
  (inputFields : list InputField) : RecordInput :=
  let changed := fold_left (addChangedField this) inputFields [] in
  let changed := fold_left (fun fs field => obj_delete fs field) readOnlyFields changed in
  match api_recordId this with
  | Some recordId =>
      if String.eqb recordId "" then CreateRecordInput objectApiName changed
      else UpdateRecordInput (obj_set changed "Id" (VStr recordId))
  | None => CreateRecordInput objectApiName changed
  end.

(** ** Format classes *)

(** The members of a format style that [processSections] turns into CSS
    classes. *)
Record StyleObject : Type := {
  style_type : JSValue;
  fontColor : JSValue;
  fontWeight : JSValue;
  fontStyle : JSValue;
  textDecoration : JSValue;
  borderColor : JSValue
}.

(** [switch (formatStyle.fontColor.toLowerCase())] *)
Definition fontColorClass (color : string) : string :=
  if String.eqb color "green" then " slds-text-color_success"
  else if String.eqb color "red" then " slds-text-color_error"
  else if String.eqb color "orange" then " slds-text-color_warning"
  else if String.eqb color "blue" then " slds-text-color_blue"
  else if String.eqb color "purple" then " slds-text-color_purple"
  else if String.eqb color "yellow" then " slds-text-color_yellow"
  else "".

(** [switch (formatStyle.borderColor.toLowerCase())] *)
Definition borderColorClass (color : string) : string :=
  if String.eqb color "green" then " slds-border-success"
  else if String.eqb color "red" then " slds-border-error"
  else if String.eqb color "orange" then " slds-border-warning"
  else "".

(** [v.toLowerCase()] on a truthy value, which raises unless [v] is a
    string. *)
Definition toLowerCaseOf (v : JSValue) : result string :=
  match v with
  | VStr s => Ok (JsString.toLowerCase s)
  | _ => Throw (TypeError "toLowerCase is not a function")
  end.

(** The translation of a truthy format style into [formatClasses]. *)
Definition formatClasses (formatStyle : StyleObject) : result string :=
  classes ←
    (if Js.strict_eq (style_type formatStyle) (VStr "icon") then Ok ""
     else if Js.truthy (fontColor formatStyle) then
       color ← toLowerCaseOf (fontColor formatStyle); Ok (fontColorClass color)
     else Ok "");
  let classes :=
    if Js.strict_eq (fontWeight formatStyle) (VStr "bold")
    then classes ++ " slds-text-heading_small" else classes in
  let classes :=
    if Js.strict_eq (fontStyle formatStyle) (VStr "italic")
    then classes ++ " slds-text-italic" else classes in
  let classes :=
    if Js.strict_eq (textDecoration formatStyle) (VStr "underline")
    then classes ++ " slds-text-underline"
    else if Js.strict_eq (textDecoration formatStyle) (VStr "line-through")
         then classes ++ " slds-text-line-through"
         else classes in
  classes ←
    (if Js.truthy (borderColor formatStyle) then
       color ← toLowerCaseOf (borderColor formatStyle);
       Ok (classes ++ borderColorClass color)
     else Ok classes);
  Ok (JsString.trim classes).

(** ** The assembly as its callers await it

    [processSections] above is the value that the promise of the method is
    fulfilled with.  The method awaits a format evaluation for every visible
    field with a rule set, translates the style into classes, and converts
    the label of every section with [sanitizeHeader]; when one of these
    raises, the promise is rejected and the callers get no sections. *)

(** A promise once every response has arrived.  Which of the exceptions
    raised a rejected promise carries depends on the order in which the
    callbacks settle; it is not modelled. *)
Inductive Promise (A : Type) : Type :=
  | Fulfilled (a : A)
  | Rejected.

Arguments Fulfilled {A} a.
Arguments Rejected {A}.

(** Does [sanitizeHeader(header)] raise?  A falsy header gives the empty
    text and a text is rewritten; any other value has no [startsWith]. *)
Definition sanitizeHeaderRaises (header : JSValue) : bool :=
  match header with
  | VStr _ => false
  | _ => Js.truthy header
  end.

Section AwaitedAssembly.

Variable Json : Type.
Variable JSON_parse : string -> result Json.

(** What the class translation reads of a parsed format style: [None] for a
    falsy value, else its members, [undefined] where it has none. *)
Variable JSON_style : Json -> option StyleObject.

(** What [getUiFormatSpecificationSet] settles with for a developer name. *)
Variable server : string -> result (option IconRuleSet).

(** Run to completion, every fetch being answered by the server. *)
Fixpoint finish {A : Type} (p : Async A) (st : FormState) : result A * FormState :=
  match p with
  | Return r => (r, st)
  | GetRecordData k => finish (k (recordData st)) st
  | GetCache key k => finish (k (cache_get (iconFormatCache st) key)) st
  | SetCache key v k =>
      finish k {| recordData := recordData st;
                  iconFormatCache := <[key := v]> (iconFormatCache st);
                  fetchLog := fetchLog st |}
  | Await developerName k =>
      finish (k (server developerName))
        {| recordData := recordData st;
           iconFormatCache := iconFormatCache st;
           fetchLog := fetchLog st ++ [developerName] |}
  end.

(** The response to the fetch of a pending call arrives. *)
Definition settle {A : Type} (s : Status A) (st : FormState)
  : result A * FormState :=
  match s with
  | Settled r => (r, st)
  | Pending developerName k => finish (k (server developerName)) st
  end.

(** The responses arrive one after the other, here in the order of the
    fetches. *)
Fixpoint settleAll {A : Type} (ss : list (Status A)) (st : FormState)
  : list (result A) * FormState :=
  match ss with
  | [] => ([], st)
  | s :: ss' =>
      let '(r, st1) := settle s st in
      let '(rs, st2) := settleAll ss' st1 in
      (r :: rs, st2)
  end.

(** The members that the class translation reads of a format style; an icon
    format has the member [type] only. *)
Definition styleOf (formatStyle : FormatStyle Json) : option StyleObject :=
  match formatStyle with
  | IconStyle f =>
      Some {| style_type := VStr (fmt_type f);
              fontColor := VUndefined;
              fontWeight := VUndefined;
              fontStyle := VUndefined;
              textDecoration := VUndefined;
              borderColor := VUndefined |}
  | TextStyle j => JSON_style j
  end.

(** What follows [await this.evaluateConditionalFormatRule(...)] in the
    callback of a field, [settled] being what the evaluation settled with:
    the classes of the field. *)
Definition fieldFormatClasses (settled : result (option (FormatStyle Json)))
  : result string :=
  formatStyle ← settled;
  match formatStyle with
  | Some fs =>
      match styleOf fs with
      | Some o => formatClasses o
      | None => Ok ""
      end
  | None => Ok ""
  end.

Definition raises {A : Type} (r : result A) : bool :=
  match r with
  | Ok _ => false
  | Throw _ => true
  end.

(** [await this.processSections(parsedSections)] with the state [st] of the
    component: the evaluations are started, the responses arrive, and the
    promise is fulfilled unless the callback of a field or the conversion
    of a section label raised. *)
Definition awaitProcessSections (parsedSections : ParsedSections) (st : FormState)
  : Promise (list SectionView) * FormState :=
  let '(started, st1) :=
    startAll (formatEvaluations Json JSON_parse parsedSections) st in
  let '(settled, st2) := settleAll started st1 in
  (if existsb (fun r => raises (fieldFormatClasses r)) settled
      || existsb (fun kv => sanitizeHeaderRaises (label kv.2)) parsedSections
   then Rejected
   else Fulfilled (processSections (recordData st) parsedSections),
   st2).

(** What the new-record branch of [connectedCallback] leaves in the
    component once its promises have settled. *)
Inductive FormOutcome : Type :=
  | FormShown (sections : list SectionView) (fields : list string)
      (* [this.sections] and [this.fields] are assigned, no error is set *)
  | FormFailed.
      (* the exception was caught: [this.error] is set, and [this.sections]
         stay empty *)

(** The new-record branch of [connectedCallback], [config] being the layout
    document that [getFlexiPageMetadata] resolved to: [this.recordData], and
    what is shown. *)
Definition connectedCallbackSettled (this : FormComponent)
  (config : option FlexiPage) : RecordData * FormOutcome :=
  let recordData := recordDataOfDefaults (lowercase (parseDefaultValues this)) in
  (recordData,
   match parseFlexiPageJson config with
   | Throw _ => FormFailed
   | Ok parsedSections =>
       let parsedSections := removeExcludedFields this parsedSections in
       match
         (awaitProcessSections parsedSections
            {| recordData := recordData; iconFormatCache := ∅; fetchLog := [] |}).1
       with
       | Fulfilled sections => FormShown sections (collectFields this parsedSections)
       | Rejected => FormFailed
       end
   end).

(** [await this.processFieldData()] with the record data and the cache of
    the component: [newSections] and [this.recordData], unless the promise
    is rejected. *)
Definition processFieldDataSettled (this : FormComponent)
  (config : option FlexiPage) (recordData : RecordData) (cache : IconFormatCache)
  : Promise (list SectionView * RecordData) :=
  match parseFlexiPageJson config with
  | Throw _ => Rejected
  | Ok parsedSections =>
      let applied := applyDefaultValues this recordData parsedSections in
      let parsedSections := removeExcludedFields this (applied_sections applied) in
      match calculateVisibility (applied_recordData applied) parsedSections with
      | Throw _ => Rejected
      | Ok parsedSections =>
          match
            (awaitProcessSections parsedSections
               {| recordData := applied_recordData applied;
                  iconFormatCache := cache;
                  fetchLog := [] |}).1
          with
          | Fulfilled sections => Fulfilled (sections, applied_recordData applied)
          | Rejected => Rejected
          end
      end
  end.

End AwaitedAssembly.

(** ** Property editor

    The functions of the custom property editor (flexipageRecordFormCPE.js)
    that write the [defaultValues] and [excludedFields] strings read by the
    form, and that read them back. *)

Module CPE.

(** [formatDefaultValuesString]; [defaultFieldValues] maps a field to the
    text entered for it. *)
Definition formatDefaultValuesString (defaultFieldValues : Obj string) : string :=
  let pairs :=
    List.map (fun kv => kv.1 ++ ":" ++ kv.2)
      (List.filter (fun kv => negb (String.eqb kv.2 "")) defaultFieldValues) in
  JsString.join "," pairs.

(** The string that [saveExcludedFields] dispatches. *)
Definition excludedFieldsString (excludedFields : list string) : string :=
  JsString.join "," excludedFields.

(** [s.split(/[,;]/)]; [cur] is the current piece, reversed. *)
Fixpoint split_pairs (cur : string) (s : string) : list string :=
  match s with
  | EmptyString => [JsString.rev_string "" cur]
  | String c s' =>
      if Ascii.eqb c "," || Ascii.eqb c ";"
      then JsString.rev_string "" cur :: split_pairs "" s'
      else split_pairs (String c cur) s'
  end.

(** The callback of [pairs.forEach] in [parseDefaultValues]: only the first
    two pieces of a pair are read. *)
Definition addPair (values : Obj string) (pair : string) : Obj string :=
  match List.map JsString.trim (JsString.split ":" pair) with
  | field :: v :: _ =>
      if negb (String.eqb field "") && negb (String.eqb v "")
      then obj_set values field v
      else values
  | _ => values
  end.

(** [parseDefaultValues]: the value it stores in [this.defaultFieldValues]. *)
Definition parseDefaultValues (defaultValuesString : string) : Obj string :=
  if String.eqb defaultValuesString "" then []
  else fold_left addPair (split_pairs "" defaultValuesString) [].

End CPE.

(** ** Vocabulary of the statements *)

(** The operands of one OR part, as the inner loop of
    [evaluateBooleanExpression] reads them. *)
Definition operandsOf (orPart : string) : list string :=
  List.map JsString.trim (JsString.split "&&" (JsString.trim orPart)).

(** The OR parts that [evaluateBooleanExpression] splits an expression into. *)
Definition orPartsOf (expression : string) : list string :=
  JsString.split "||"
    (JsString.replaceWord "false" "0"
       (JsString.replaceWord "true" "1" expression)).

(** An operand is well formed when it is [1] or [0]. *)
Definition wellFormedOperand (v : string) : bool :=
  String.eqb v "1" || String.eqb v "0".

Definition malformedPart (orPart : string) : Prop :=
  exists v, In v (operandsOf orPart) /\ wellFormedOperand v = false.

Definition allOnes (orPart : string) : Prop :=
  forall v, In v (operandsOf orPart) -> v = "1".

(** A criterion evaluates without raising. *)
Definition evaluates (recordData : RecordData) (criterion : Criterion) : Prop :=
  exists r, evaluateCriterion recordData criterion = Ok r.

(** The order that [compareIconRules] sorts by: [visibilityGroup], then
    [visibilityRank]. *)
Definition ruleBefore (a b : IconRule) : Prop :=
  visibilityGroup a < visibilityGroup b
  \/ (visibilityGroup a = visibilityGroup b /\ visibilityRank a <= visibilityRank b).

(** A rule ends the loop of [evaluateIconRules]: its comparison holds and it
    has an icon. *)
Definition applicable (numValue : JSValue) (rule : IconRule) : Prop :=
  iconRuleMatches numValue rule = true /\ is_Some (icon rule).

(** The slot of [fieldId] comes from a field instance of a flat region, and
    its [order] is the position of that instance in the region. *)
Definition placedIn (regions : list Region) (fieldId : string) (slot : FieldSlot)
  : Prop :=
  exists region items item fi,
    In region regions
    /\ region_type region = "Region"
    /\ itemInstances region = Some items
    /\ items !! order slot = Some item
    /\ fieldInstance item = Some fi
    /\ fieldId = JsString.replace "Record." "" (fieldItem fi).

(** The order that the specification describes for a simple layout: the
    field instances of all flat regions in one list, region after region and
    item after item, each paired with its index in that list. *)
Definition flattenedFieldOrder (regions : list Region) : list (string * nat) :=
  imap (fun index fieldApiName => (fieldApiName, index))
    (List.concat
       (List.map
          (fun region =>
             if String.eqb (region_type region) "Region" then
               match itemInstances region with
               | Some items =>
                   omap
                     (fun item =>
                        (fun fi => JsString.replace "Record." "" (fieldItem fi))
                          <$> fieldInstance item)
                     items
               | None => []
               end
             else [])
          regions)).

(** The field ids of a canonical tree. *)
Definition columnFieldIds (cols : Obj Column) : list string :=
  List.concat (List.map (fun c => obj_keys (fields c.2)) cols).

Definition allFieldIds (parsedSections : ParsedSections) : list string :=
  List.concat (List.map (fun s => columnFieldIds (columns s.2)) parsedSections).

(** The slots of a canonical tree, by field id. *)
Definition allSlots (parsedSections : ParsedSections) : Obj FieldSlot :=
  List.concat
    (List.map
       (fun s => List.concat (List.map (fun c => fields c.2) (columns s.2)))
       parsedSections).

(** [field] is the slot of [fieldId] in some column of the tree. *)
Definition slotIn (parsedSections : ParsedSections) (fieldId : string)
  (field : FieldSlot) : Prop :=
  exists sid section cid column,
    In (sid, section) parsedSections
    /\ In (cid, column) (columns section)
    /\ In (fieldId, field) (fields column).

(** The enhanced fields of an assembled view model. *)
Definition assembledFields (sections : list SectionView) : list EnhancedField :=
  List.concat
    (List.map
       (fun section => List.concat (List.map enhancedFields (view_columns section)))
       sections).

(** A field id is a system field in some letter case. *)
Definition isSystemField (fieldId : string) : Prop :=
  exists s, In s readOnlyFields /\ JsString.toLowerCase fieldId = JsString.toLowerCase s.

(** The record data holds the default value of [key]. *)
Definition mirrored (lookupValues : Obj JSValue) (recordData : RecordData)
  (key : string) : Prop :=
  exists v, obj_get lookupValues key = Some v /\ recordData !! key = Some v.

Definition mirrorGrows (lookupValues : Obj JSValue) (s s' : RecordData * bool)
  : Prop :=
  forall key, mirrored lookupValues s.1 key -> mirrored lookupValues s'.1 key.

(** A slot that is not a blank space carries the default value of its id, and
    the record data holds it under the lower-cased id. *)
Definition defaulted (lookupValues : Obj JSValue) (fieldId : string)
  (field : FieldSlot) (s : RecordData * bool) : Prop :=
  isBlankSpace field = false ->
  forall v,
    obj_get lookupValues (JsString.toLowerCase fieldId) = Some v ->
    value field = v /\ s.1 !! JsString.toLowerCase fieldId = Some v.

Definition columnDefaulted (lookupValues : Obj JSValue) (_ : string)
  (column : Column) (s : RecordData * bool) : Prop :=
  forall fieldId field,
    In (fieldId, field) (fields column) -> defaulted lookupValues fieldId field s.

Definition sectionDefaulted (lookupValues : Obj JSValue) (_ : string)
  (section : Section_) (s : RecordData * bool) : Prop :=
  forall cid column,
    In (cid, column) (columns section) -> columnDefaulted lookupValues cid column s.

(** A [conditionalFormatRuleset] that names an icon rule set. *)
Definition iconReference (developerName : string)
  : option ConditionalFormatRuleset :=
  Some (RulesetValue (VStr developerName)).

Definition withCache (st : FormState) (cache : IconFormatCache) : FormState :=
  {| recordData := recordData st;
     iconFormatCache := cache;
     fetchLog := fetchLog st |}.

Definition withFetches (st : FormState) (log : list string) : FormState :=
  {| recordData := recordData st;
     iconFormatCache := iconFormatCache st;
     fetchLog := log |}.

(** ** Sample inputs *)

Definition statusRecord : RecordData :=
  <["status__c" := VStr "New"]> (<["amount__c" := VNum (Int 60)]> ∅).

Definition statusIsNew : Criterion :=
  {| leftValue := "{!Record.Status__c}"; operator := "EQUAL"; rightValue := VStr "New" |}.

Definition statusIsClosed : Criterion :=
  {| leftValue := "{!Record.Status__c}"; operator := "EQUAL"; rightValue := VStr "Closed" |}.

Definition amountContains : Criterion :=
  {| leftValue := "{!Record.Amount__c}"; operator := "CONTAINS"; rightValue := VStr "6" |}.

Definition missingField (op : string) (right : JSValue) : Criterion :=
  {| leftValue := "{!Record.Rating__c}"; operator := op; rightValue := right |}.

Definition filteredRule (cs : list Criterion) (f : string) : VisibilityRule :=
  {| criteria := Some cs; booleanFilter := Some f |}.

Definition unfilteredRule (cs : list Criterion) : VisibilityRule :=
  {| criteria := Some cs; booleanFilter := None |}.

Definition arrowUp : Icon :=
  {| iconName := VStr "utility:arrowup"; iconResourcePath := VStr "/icons/arrowup.svg" |}.

Definition arrowDown : Icon :=
  {| iconName := VStr "utility:arrowdown"; iconResourcePath := VStr "/icons/arrowdown.svg" |}.

Definition iconRule (group rank : Z) (op : string) (v : JSValue)
  (i : option Icon) (color : string) : IconRule :=
  {| visibilityGroup := group; visibilityRank := rank; rule_operator := op;
     operand := v; icon := i; iconColor := VStr color |}.

Definition above50 : IconRule := iconRule 1 1 "GT" (VStr "50") (Some arrowUp) "success".
Definition upTo50 : IconRule := iconRule 1 2 "LE" (VStr "50") (Some arrowDown) "error".
Definition above10NoIcon : IconRule := iconRule 1 1 "GT" (VStr "10") None "warning".
Definition above5 : IconRule := iconRule 1 2 "GT" (VStr "5") (Some arrowUp) "success".
Definition not5 : IconRule := iconRule 1 1 "NE" (VStr "5") (Some arrowUp) "success".

Definition scoreRecord (v : JSValue) : RecordData := <["score__c" := v]> ∅.

Definition freshForm (v : JSValue) : FormState :=
  {| recordData := scoreRecord v; iconFormatCache := ∅; fetchLog := [] |}.

Definition scoreIcons : IconRuleSet := {| rules := Some [above50; upTo50] |}.

Definition parseNothing (_ : string) : result unit := Ok tt.

Definition flatField (fieldName : string) : ItemInstance :=
  {| fieldInstance :=
       Some {| fieldItem := "Record." ++ fieldName;
               fieldInstanceProperties := None;
               fieldInstance_visibilityRule := None |};
     componentInstance := None |}.

Definition flatRegion (regionName : string) (fieldNames : list string) : Region :=
  {| region_type := "Region";
     region_name := regionName;
     itemInstances := Some (List.map flatField fieldNames) |}.

Definition twoRegionPage : FlexiPage :=
  {| flexiPageRegions := Some [flatRegion "R1" ["a"; "b"]; flatRegion "R2" ["c"]] |}.

Definition systemPage : FlexiPage :=
  {| flexiPageRegions :=
       Some [flatRegion "main" ["Name"; "Id"; "OWNERID"; "Amount__c"; "Stage__c"]] |}.

Definition property (name v : string) : Property :=
  {| prop_name := name; prop_value := VStr v |}.

Definition component (name : string) (id : string) (props : list Property)
  : ItemInstance :=
  {| fieldInstance := None;
     componentInstance :=
       Some {| componentName := name;
               identifier := Some id;
               componentInstanceProperties := Some props |} |}.

Definition fieldWith (fieldName : string) (props : list Property)
  (rule : option VisibilityRule) : ItemInstance :=
  {| fieldInstance :=
       Some {| fieldItem := "Record." ++ fieldName;
               fieldInstanceProperties := Some props;
               fieldInstance_visibilityRule := rule |};
     componentInstance := None |}.

(** A page with one section of two columns. *)
Definition sectionPage : FlexiPage :=
  {| flexiPageRegions :=
       Some
         [{| region_type := "Facet"; region_name := "Facet-col1";
             itemInstances :=
               Some [fieldWith "Name" [property "uiBehavior" "required"] None;
                     component "flexipage:blankSpace" "blank1" [];
                     fieldWith "Status__c" [] (Some (unfilteredRule [statusIsClosed]))] |};
          {| region_type := "Facet"; region_name := "Facet-col2";
             itemInstances :=
               Some [fieldWith "Amount__c"
                       [property "conditionalFormatRuleset" "Score_Icons"] None] |};
          {| region_type := "Facet"; region_name := "Facet-sec1";
             itemInstances :=
               Some [component "flexipage:column" "flexipage_column1"
                       [property "body" "Facet-col1"];
                     component "flexipage:column" "flexipage_column2"
                       [property "body" "Facet-col2"]] |};
          {| region_type := "Region"; region_name := "main";
             itemInstances :=
               Some [component "flexipage:fieldSection" "section1"
                       [property "columns" "Facet-sec1"; property "label" "Details"]] |}] |}.

(** A page with two fields that name the same icon rule set. *)
Definition scoredPage : FlexiPage :=
  {| flexiPageRegions :=
       Some
         [{| region_type := "Facet"; region_name := "Facet-col1";
             itemInstances :=
               Some [fieldWith "Score__c"
                       [property "conditionalFormatRuleset" "Score_Icons"] None;
                     fieldWith "Rating__c"
                       [property "conditionalFormatRuleset" "Score_Icons"] None] |};
          {| region_type := "Facet"; region_name := "Facet-sec1";
             itemInstances :=
               Some [component "flexipage:column" "flexipage_column1"
                       [property "body" "Facet-col1"]] |};
          {| region_type := "Region"; region_name := "main";
             itemInstances :=
               Some [component "flexipage:fieldSection" "section1"
                       [property "columns" "Facet-sec1"; property "label" "Scores"]] |}] |}.

Definition editForm (excluded defaults : string) : FormComponent :=
  {| api_recordId := None;
     api_excludedFields := excluded;
     api_defaultValues := defaults;
     api_isReadOnly := false;
     api_flowContext := false |}.

(** ** Vocabulary of the further properties *)

(** The outcome that an OR part stands for: the conjunction of its
    operands, [1] being true. *)
Definition andOutcome (orPart : string) : bool :=
  forallb (fun v => String.eqb v "1") (operandsOf orPart).

(** Every operand of every OR part of an expression is [1] or [0]. *)
Definition wellFormedExpression (expression : string) : bool :=
  forallb (fun orPart => forallb wellFormedOperand (operandsOf orPart))
    (orPartsOf expression).

(** A slot is subject to a visibility rule. *)
Definition ruledBy (field : FieldSlot) (rule : VisibilityRule) : Prop :=
  isBlankSpace field = false /\ visibilityRule field = Some rule.

(** A field id is not excluded by the component. *)
Definition notExcluded (this : FormComponent) (fieldId : string) : bool :=
  negb (array_includes (allExcludedFields this) (JsString.toLowerCase fieldId)).

(** A tree with one field whose rule tests [CONTAINS] on a number. *)
Definition raisingTree : ParsedSections :=
  [("s1",
    {| label := VStr "Details";
       columns :=
         [("c1",
           {| side := "left";
              fields :=
                [("Amount__c",
                  {| value := VStr "";
                     isVisible := VBool true;
                     isRequired := false;
                     isReadOnly := false;
                     visibilityRule := Some (unfilteredRule [amountContains]);
                     conditionalFormatRuleset := None;
                     order := 0%nat;
                     isBlankSpace := false |})] |})] |})].

(** The fields of a record input. *)
Definition sentFields (recordInput : RecordInput) : Obj JSValue :=
  match recordInput with
  | UpdateRecordInput fs => fs
  | CreateRecordInput _ fs => fs
  end.

(** An input field that [handleSave] takes over: its value differs from the
    one it was rendered with, it is not read-only, and the field is not
    excluded. *)
Definition isSubmitted (this : FormComponent) (field : InputField) : Prop :=
  Js.strict_eq (input_value field) (defaultValue field) = false
  /\ readOnly field = false
  /\ notExcluded this (fieldName field) = true.

(** The class of a section agrees with its state, as it does in the
    sections that [processSections] and [toggleSection] make. *)
Definition classAgrees (section : SectionState) : Prop :=
  section_class section = sectionClass (isOpen section).

(** The order of the entries of a column view. *)
Definition byOrder (a b : string * FieldSlot) : Prop :=
  (order a.2 <= order b.2)%nat.

(** Some slot of the tree is visible. *)
Definition hasVisibleSlot (parsedSections : ParsedSections) : Prop :=
  exists fieldId field,
    slotIn parsedSections fieldId field /\ Js.truthy (isVisible field) = true.

(** The width class of the columns of a section view. *)
Definition widthClass (section : SectionView) : string :=
  if Nat.eqb (List.length (view_columns section)) 1
  then "slds-col slds-size_1-of-1"
  else "slds-col slds-size_1-of-2 slds-p-horizontal_small".

Definition inputField (name : string) (v d : JSValue) : InputField :=
  {| fieldName := name; input_value := v; defaultValue := d; readOnly := false |}.

(** A read-only form on an existing record, and the input fields of its
    template: [Phone] is unchanged, [Stage__c] is excluded. *)
Definition viewForm : FormComponent :=
  {| api_recordId := Some "001000000000001AAA";
     api_excludedFields := "Stage__c";
     api_defaultValues := "";
     api_isReadOnly := true;
     api_flowContext := false |}.

Definition editedInputs : list InputField :=
  [inputField "Name" (VStr "Acme") (VStr "Old");
   inputField "OwnerId" (VStr "005") (VStr "004");
   inputField "Stage__c" (VStr "Won") (VStr "Open");
   inputField "Phone" (VStr "1") (VStr "1")].

(** The key that [compareIconRules] sorts by. *)
Definition ruleKey (rule : IconRule) : Z * Z :=
  (visibilityGroup rule, visibilityRank rule).




(** A stand-in for [JSON.parse] in the samples: it reads the texts [true]
    and [false] and rejects every other text. *)
Definition parseFlag (s : string) : result bool :=
  if String.eqb s "true" then Ok true
  else if String.eqb s "false" then Ok false
  else Throw (Error "Unexpected token").

Definition textRule (cs : list Criterion) (fv : string) : TextRule :=
  {| text_criteria := Some cs; formatValue := Some fv |}.

Definition textRuleset (textRules : list TextRule) : FormatRuleset :=
  {| ruleset_type := Some "text"; ruleset_value := None;
     ruleset_rules := Some textRules |}.


(** What the class translation reads of the stand-in styles: [true] is a
    truthy value without members, [false] is falsy. *)
Definition flagStyle (b : bool) : option StyleObject :=
  if b then
    Some {| style_type := VUndefined; fontColor := VUndefined;
            fontWeight := VUndefined; fontStyle := VUndefined;
            textDecoration := VUndefined; borderColor := VUndefined |}
  else None.

(** A server that knows the rule set [Score_Icons] and no other. *)
Definition scoreServer (developerName : string) : result (option IconRuleSet) :=
  if String.eqb developerName "Score_Icons" then Ok (Some scoreIcons)
  else Throw (Error "List has no rows for assignment to SObject").

(** A tree with one field whose format rule tests [CONTAINS] on a number. *)
Definition raisingFormatTree : ParsedSections :=
  [("s1",
    {| label := VStr "Details";
       columns :=
         [("c1",
           {| side := "left";
              fields :=
                [("Amount__c",
                  {| value := VStr "";
                     isVisible := VBool true;
                     isRequired := false;
                     isReadOnly := false;
                     visibilityRule := None;
                     conditionalFormatRuleset :=
                       Some (RulesetObject
                               (textRuleset [textRule [amountContains] "true"]));
                     order := 0%nat;
                     isBlankSpace := false |})] |})] |})].

Definition statusForm : FormState :=
  {| recordData := statusRecord; iconFormatCache := ∅; fetchLog := [] |}.

(** The tree of the page [scoredPage]. *)
Definition scoredTree : ParsedSections :=
  match parseFlexiPageJson (Some scoredPage) with
  | Ok parsedSections => parsedSections
  | Throw _ => []
  end.

(** The slot that the simple branch makes: visible, neither required nor
    read-only, without rules, and not a blank space. *)
Definition plainSlot (slot : FieldSlot) : Prop :=
  isVisible slot = VBool true
  /\ isRequired slot = false
  /\ isReadOnly slot = false
  /\ visibilityRule slot = None
  /\ conditionalFormatRuleset slot = None
  /\ isBlankSpace slot = false.

(** The entry that the third pass makes of an item at position [index]: a
    field instance gives the slot of its field, a blank space component
    gives a blank space. *)
Definition slotOfItem (item : ItemInstance) (index : nat) (fieldId : string)
  (slot : FieldSlot) : Prop :=
  (exists fi,
     fieldInstance item = Some fi
     /\ fieldId = JsString.replace "Record." "" (fieldItem fi)
     /\ slot = complexFieldSlot fi index)
  \/ (fieldInstance item = None
      /\ exists ci,
           componentInstance item = Some ci
           /\ componentName ci = "flexipage:blankSpace"
           /\ slot = blankSpaceSlot index).

(** The slot of [fieldId] in the column [columnFacetId] comes from an item
    of the facet region of that name, and its [order] is the position of the
    item in the region. *)
Definition placedInFacet (regions : list Region) (columnFacetId fieldId : string)
  (slot : FieldSlot) : Prop :=
  exists region items item,
    In region regions
    /\ region_type region = "Facet"
    /\ region_name region = columnFacetId
    /\ itemInstances region = Some items
    /\ items !! order slot = Some item
    /\ slotOfItem item (order slot) fieldId slot.

(** Every slot of the tree is placed. *)
Definition allPlaced (regions : list Region) (sections : ParsedSections) : Prop :=
  forall sid section cid column fieldId slot,
    In (sid, section) sections ->
    In (cid, column) (columns section) ->
    In (fieldId, slot) (fields column) ->
    placedInFacet regions cid fieldId slot.

(** [applyDefaultValues] leaves a slot as it is or gives it the default
    value of its id; the latter only if the slot is no blank space and the
    record is new or the slot had no value. *)
Definition defaultApplied (this : FormComponent) (fieldId : string)
  (slot slot' : FieldSlot) : Prop :=
  slot' = slot
  \/ (isBlankSpace slot = false
      /\ (isNewRecord this = true \/ Js.truthy (value slot) = false)
      /\ exists d,
           obj_get (lowercase (parseDefaultValues this)) (JsString.toLowerCase fieldId)
           = Some d
           /\ slot' = withValue slot d).

(** The record data changes at the keys of default values only, and only
    to the default value. *)
Definition defaultsWritten (lookupValues : Obj JSValue) (s s' : RecordData * bool)
  : Prop :=
  (forall key, obj_get lookupValues key = None -> s'.1 !! key = s.1 !! key)
  /\ (forall key v,
        s'.1 !! key = Some v ->
        s.1 !! key = Some v \/ obj_get lookupValues key = Some v).

(** A default value is a boolean, a number other than [NaN] or a text. *)
Definition isDefaultValue (v : JSValue) : Prop :=
  match v with
  | VBool _ | VStr _ => True
  | VNum n => Js.isNaN (VNum n) = false
  | VUndefined | VNull => False
  end.

(** What the loop of [parseDefaultValues] maintains. *)
Definition defaultsConsistent (acc : DefaultValues) : Prop :=
  List.NoDup (obj_keys (original acc))
  /\ List.NoDup (obj_keys (lowercase acc))
  /\ (forall k v,
        In (k, v) (original acc) ->
        k <> "" /\ isDefaultValue v
        /\ In (JsString.toLowerCase k) (obj_keys (lowercase acc)))
  /\ (forall k v,
        In (k, v) (lowercase acc) ->
        isDefaultValue v
        /\ exists k0, In (k0, v) (original acc) /\ JsString.toLowerCase k0 = k).

(** The code unit [c] does not occur in [s]. *)
Definition freeOf (c : ascii) (s : string) : Prop :=
  ~ In c (list_ascii_of_string s).

(** A text that the property editor can put into a list: it is not empty,
    has no white space around it and no comma. *)
Definition isListItem (s : string) : Prop :=
  s <> "" /\ JsString.trim s = s /\ freeOf "," s.

(** A text that the property editor can put into a pair: a list item
    without a semicolon and a colon. *)
Definition isPlainText (s : string) : Prop :=
  isListItem s /\ freeOf ";" s /\ freeOf ":" s.

(** The entries that [formatDefaultValuesString] writes. *)
Definition writtenDefaults (defaultFieldValues : Obj string) : Obj string :=
  List.filter (fun kv => negb (String.eqb kv.2 "")) defaultFieldValues.

(** The field names and values of the entries can be written as pairs. *)
Definition writable (defaultFieldValues : Obj string) : Prop :=
  List.NoDup (obj_keys defaultFieldValues)
  /\ forall field v,
       In (field, v) defaultFieldValues ->
       isPlainText field /\ (v = "" \/ isPlainText v).







(** * Properties *)

(** ** Checks of the string and value primitives *)

Example split_trailing : JsString.split "||" "a||" = ["a"; ""].
Proof. reflexivity. Qed.

Example split_none : JsString.split "||" "" = [""].
Proof. reflexivity. Qed.

Example split_and : JsString.split "&&" "1 && (0 " = ["1 "; " (0 "].
Proof. reflexivity. Qed.

Example replaceWord_and :
  JsString.replaceWord "and" "&&" "1 and (2 or 3) band and" = "1 && (2 or 3) band &&".
Proof. reflexivity. Qed.

Example replaceWord_digit :
  JsString.replaceWord "1" "true" "1 && 11 || (1)" = "true && 11 || (true)".
Proof. reflexivity. Qed.

Example trim_ex : JsString.trim "  (0 " = "(0".
Proof. reflexivity. Qed.

Example of_Z_ex : JsString.of_Z (-12) = "-12" /\ JsString.of_nat 10 = "10".
Proof. split; reflexivity. Qed.

Example StringToNumber_ex :
  Js.StringToNumber " 100 " = Int 100 /\ Js.StringToNumber "-7" = Int (-7)
  /\ Js.StringToNumber "" = Int 0 /\ Js.StringToNumber "Prospecting" = NaN
  /\ Js.StringToNumber "1 2" = NaN /\ Js.StringToNumber "-" = NaN.
Proof. repeat split; reflexivity. Qed.

(** 100 is 100 * 2^46 * 2^-46, 30.5 is 61 * 2^47 * 2^-48, and 0.1 is the
    number next to one tenth. *)
Example StringToNumber_fraction :
  Int 100 = SpecFloat.S754_finite false 7036874417766400 (-46)
  /\ 7036874417766400 = 100 * 2 ^ 46
  /\ Js.StringToNumber "30.5" = SpecFloat.S754_finite false 8584986789675008 (-48)
  /\ 8584986789675008 = 61 * 2 ^ 47
  /\ Js.StringToNumber "0.1" = SpecFloat.S754_finite false 7205759403792794 (-56)
  /\ Js.StringToNumber "100.0" = Int 100
  /\ Js.StringToNumber "1e3" = Int 1000
  /\ Js.StringToNumber ".5e1" = Int 5
  /\ Js.StringToNumber "0x10" = Int 16
  /\ Js.StringToNumber "+0x10" = NaN
  /\ Js.StringToNumber "-Infinity" = SpecFloat.S754_infinity true
  /\ Js.StringToNumber "9007199254740993" = Int 9007199254740992
  /\ Js.StringToNumber "1e400" = SpecFloat.S754_infinity false
  /\ Js.StringToNumber "-1e-400" = SpecFloat.S754_zero true
  /\ Js.StringToNumber "1e" = NaN /\ Js.StringToNumber "." = NaN.
Proof. repeat split; vm_compute; reflexivity. Qed.

Example NumberToString_ex :
  List.map (fun s => Js.NumberToString (Js.StringToNumber s))
    ["30.5"; "100.0"; "1e3"; "0.1"; "-0"; "1e21"; "123456789012345680000";
     "0.000001"; "0.0000001"; "-12.75"; "5e-324"; "9007199254740993"; "x"]
  = ["30.5"; "100"; "1000"; "0.1"; "0"; "1e+21"; "123456789012345680000";
     "0.000001"; "1e-7"; "-12.75"; "5e-324"; "9007199254740992"; "NaN"].
Proof. vm_compute. reflexivity. Qed.

Example parseInt_ex :
  Js.parseInt "12px" = Int 12 /\ Js.parseInt "" = NaN /\ Js.parseInt "-3" = Int (-3).
Proof. repeat split; reflexivity. Qed.

Example relational_ex :
  Js.gt (VNum (Int 60)) (VStr "50") = true
  /\ Js.gt (VStr "abc") (VStr "50") = true
  /\ Js.gt (VStr "abc") (VNum (Int 50)) = false
  /\ Js.le VUndefined (VNum (Int 50)) = false
  /\ Js.ge VNull (VNum (Int 0)) = true.
Proof. repeat split; reflexivity. Qed.

Example complex_layout_example :
  exists parsedSections,
    parseFlexiPageJson (Some sectionPage) = Ok parsedSections
    /\ List.map
         (fun s => (s.1, label s.2,
                    List.map (fun c => (c.1, side c.2, obj_keys (fields c.2)))
                      (columns s.2)))
         parsedSections
       = [("Facet-sec1", VStr "Details",
           [("Facet-col1", "left", ["Name"; "blank1"; "Status__c"]);
            ("Facet-col2", "right", ["Amount__c"])])]
    /\ List.map (fun kv => (kv.1, order kv.2, isBlankSpace kv.2))
         (allSlots parsedSections)
       = [("Name", 0%nat, false); ("blank1", 1%nat, true);
          ("Status__c", 2%nat, false); ("Amount__c", 0%nat, false)].
Proof. eexists. repeat split; reflexivity. Qed.

(** The status is ["New"]: the rule of [Status__c] fails, the field is left
    out of the assembled column, the blank space stays. *)
Example assembly_example :
  exists view recordData',
    processFieldData (editForm "" "") (Some sectionPage) statusRecord
    = Ok (view, recordData')
    /\ List.map (fun s => List.map fieldIds (view_columns s)) view
       = [[["Name"; "blank1"]; ["Amount__c"]]].
Proof. eexists _, _. split; reflexivity. Qed.

(** ** Visibility evaluator *)

Lemma bind_Ok {A B : Type} (a : A) (k : A -> result B) :
  (x ← Ok a; k x) = k a.
Proof. reflexivity. Qed.

Lemma bind_Throw {A B : Type} (e : JSError) (k : A -> result B) :
  (x ← Throw e; k x) = Throw e.
Proof. reflexivity. Qed.

Lemma map_result_evaluates recordData cs :
  Forall (evaluates recordData) cs ->
  exists results,
    map_result (evaluateCriterion recordData) cs = Ok results
    /\ List.length results = List.length cs.
Proof.
  induction 1 as [|c cs [r Hr] _ [rs [Hrs Hlen]]].
  - exists []. split; reflexivity.
  - exists (r :: rs). simpl. rewrite Hr, bind_Ok, Hrs, bind_Ok.
    split; [reflexivity | simpl; congruence].
Qed.

Lemma map_result_head recordData c cs results :
  map_result (evaluateCriterion recordData) (c :: cs) = Ok results ->
  exists r rs, results = r :: rs /\ evaluateCriterion recordData c = Ok r.
Proof.
  simpl. destruct (evaluateCriterion recordData c) as [r|e]; [|discriminate].
  rewrite bind_Ok.
  destruct (map_result (evaluateCriterion recordData) cs) as [rs|e]; [|discriminate].
  rewrite bind_Ok. intros [= <-]. eauto.
Qed.

(** C1 (the behaviour of the code at the input of the claim).  With the
    filter ["1 AND (2 OR 3)"] and criteria whose outcomes are true, false and
    true, the expression handed to the evaluator is
    ["true && (false || true)"]; its operand ["(0"] is rejected and the rule
    evaluates to [false], not to [true]. *)
Theorem parenthesised_filter_is_rejected recordData cs :
  map_result (evaluateCriterion recordData) cs
    = Ok [VBool true; VBool false; VBool true] ->
  filterExpression "1 AND (2 OR 3)" [VBool true; VBool false; VBool true]
    = "true && (false || true)"
  /\ evaluateBooleanExpression "true && (false || true)"
     = Throw (Error "Unexpected value in boolean expression: (0")
  /\ evaluateVisibilityRule recordData (Some (filteredRule cs "1 AND (2 OR 3)"))
     = Ok (VBool false).
Proof.
  intros Hcs. split; [reflexivity | split; [reflexivity |]].
  unfold evaluateVisibilityRule, filteredRule. cbn [criteria].
  rewrite Hcs, bind_Ok. reflexivity.
Qed.

Lemma parenthesised_filter_is_rejected_witness :
  map_result (evaluateCriterion statusRecord)
    [statusIsNew; statusIsClosed; statusIsNew]
    = Ok [VBool true; VBool false; VBool true]
  /\ evaluateVisibilityRule statusRecord
       (Some (filteredRule [statusIsNew; statusIsClosed; statusIsNew]
                "1 AND (2 OR 3)"))
     = Ok (VBool false).
Proof.
  split; [reflexivity |].
  apply (parenthesised_filter_is_rejected statusRecord
           [statusIsNew; statusIsClosed; statusIsNew]).
  reflexivity.
Defined.

Lemma evaluateAndPart_well_formed andResult andPart :
  wellFormedOperand (JsString.trim andPart) = true ->
  exists b, evaluateAndPart andResult andPart = Ok b.
Proof.
  unfold wellFormedOperand, evaluateAndPart. intros H.
  destruct (String.eqb (JsString.trim andPart) "1"); [eauto |].
  destruct (String.eqb (JsString.trim andPart) "0"); [eauto | discriminate].
Qed.

Lemma evaluateAndPart_malformed andResult andPart :
  wellFormedOperand (JsString.trim andPart) = false ->
  exists e, evaluateAndPart andResult andPart = Throw e.
Proof.
  unfold wellFormedOperand, evaluateAndPart. intros H.
  apply orb_false_iff in H as [-> ->]. eauto.
Qed.

(** The inner loop inspects every operand, whatever the running result. *)
Lemma evaluateAndParts_malformed andParts : forall andResult,
  (exists p, In p andParts /\ wellFormedOperand (JsString.trim p) = false) ->
  exists e, evaluateAndParts andResult andParts = Throw e.
Proof.
  induction andParts as [|p0 rest IH]; intros andResult [p [Hin Hbad]].
  - destruct Hin.
  - simpl. destruct (wellFormedOperand (JsString.trim p0)) eqn:Hp0.
    + destruct (evaluateAndPart_well_formed andResult p0 Hp0) as [b ->].
      rewrite bind_Ok. apply IH. destruct Hin as [<- | Hin].
      * congruence.
      * eauto.
    + destruct (evaluateAndPart_malformed andResult p0 Hp0) as [e ->]. eauto.
Qed.

Lemma evaluateAndParts_true andParts : forall andResult,
  evaluateAndParts andResult andParts = Ok true ->
  andResult = true /\ forall p, In p andParts -> JsString.trim p = "1".
Proof.
  induction andParts as [|p0 rest IH]; intros andResult; simpl.
  - intros [= ->]. split; [reflexivity | intros p []].
  - unfold evaluateAndPart.
    destruct (String.eqb_spec (JsString.trim p0) "1") as [H1 | H1].
    + rewrite bind_Ok. intros H. apply IH in H as [Hb Hrest].
      apply andb_true_iff in Hb as [-> _].
      split; [reflexivity |]. intros p [<- | Hin]; auto.
    + destruct (String.eqb (JsString.trim p0) "0").
      * rewrite bind_Ok. intros H. apply IH in H as [Hb _].
        apply andb_true_iff in Hb as [_ Hb]. discriminate.
      * discriminate.
Qed.

Lemma malformedPart_raw orPart :
  malformedPart orPart ->
  exists p, In p (JsString.split "&&" (JsString.trim orPart))
            /\ wellFormedOperand (JsString.trim p) = false.
Proof.
  intros [v [Hin Hbad]]. unfold operandsOf in Hin.
  apply in_map_iff in Hin as [p [<- Hp]]. eauto.
Qed.

(** The outer loop raises at the first OR part with a malformed operand
    unless an earlier part made it return. *)
Lemma evaluateOrParts_malformed pre bad post :
  malformedPart bad ->
  (forall p, In p pre -> ~ allOnes p) ->
  exists e, evaluateOrParts (pre ++ bad :: post) = Throw e.
Proof.
  intros Hbad.
  induction pre as [|p pre IH]; intros Hpre; cbn [app evaluateOrParts].
  - destruct (evaluateAndParts_malformed _ true (malformedPart_raw _ Hbad))
      as [e ->].
    eauto.
  - destruct (evaluateAndParts true (JsString.split "&&" (JsString.trim p)))
      as [[|]|e] eqn:Hp.
    + exfalso. apply (Hpre p); [left; reflexivity |].
      apply evaluateAndParts_true in Hp as [_ Hones].
      intros v Hv. unfold operandsOf in Hv.
      apply in_map_iff in Hv as [raw [<- Hraw]]. auto.
    + rewrite bind_Ok. apply IH. intros q Hq. apply Hpre. right. exact Hq.
    + rewrite bind_Throw. eauto.
Qed.

Lemma evaluateAndParts_ones andParts :
  (forall p, In p andParts -> JsString.trim p = "1") ->
  evaluateAndParts true andParts = Ok true.
Proof.
  induction andParts as [|p0 rest IH]; intros Hones; cbn [evaluateAndParts].
  - reflexivity.
  - unfold evaluateAndPart. rewrite (Hones p0) by (left; reflexivity).
    cbn [String.eqb Ascii.eqb Bool.eqb andb]. rewrite bind_Ok.
    apply IH. intros p Hp. apply Hones. right. exact Hp.
Qed.

Lemma evaluateAndParts_returns andParts : forall andResult,
  (forall p, In p andParts -> wellFormedOperand (JsString.trim p) = true) ->
  exists b, evaluateAndParts andResult andParts = Ok b.
Proof.
  induction andParts as [|p0 rest IH]; intros andResult Hwf; cbn [evaluateAndParts].
  - eauto.
  - destruct (evaluateAndPart_well_formed andResult p0
                (Hwf p0 (or_introl eq_refl))) as [b ->].
    rewrite bind_Ok. apply IH. intros p Hp. apply Hwf. right. exact Hp.
Qed.

(** The outer loop returns [true] at the first OR part whose operands are
    all [1], unless an earlier part made it raise. *)
Lemma evaluateOrParts_all_ones pre good post :
  allOnes good ->
  (forall p, In p pre -> ~ malformedPart p) ->
  evaluateOrParts (pre ++ good :: post) = Ok true.
Proof.
  intros Hgood.
  induction pre as [|p pre IH]; intros Hpre; cbn [app evaluateOrParts].
  - rewrite evaluateAndParts_ones; [reflexivity |].
    intros raw Hraw. apply Hgood. unfold operandsOf.
    apply in_map_iff. exists raw. auto.
  - destruct (evaluateAndParts_returns
                (JsString.split "&&" (JsString.trim p)) true) as [b ->].
    + intros raw Hraw.
      destruct (wellFormedOperand (JsString.trim raw)) eqn:Hwf; [reflexivity |].
      exfalso. apply (Hpre p); [left; reflexivity |].
      exists (JsString.trim raw). split; [| exact Hwf].
      unfold operandsOf. apply in_map_iff. exists raw. auto.
    + rewrite bind_Ok. destruct b; [reflexivity |].
      apply IH. intros q Hq. apply Hpre. right. exact Hq.
Qed.

(** C2 (amended).  Take a rule whose criteria evaluate and the OR parts of
    the expression that its filter yields.  When an OR part has an operand
    other than [1] and [0] and no OR part in front of it consists of
    operands [1] only, the rule evaluates to [false] and no error reaches
    the caller.  When an OR part consists of operands [1] only and no OR
    part in front of it has an operand other than [1] and [0], the rule
    evaluates to [true], whatever the parts behind it hold: a malformed
    operand there is not inspected. *)
Theorem malformed_filter_fails_closed recordData rule cs f results :
  criteria rule = Some cs ->
  booleanFilter rule = Some f ->
  f <> "" ->
  map_result (evaluateCriterion recordData) cs = Ok results ->
  (forall pre bad post,
     orPartsOf (filterExpression f results) = (pre ++ bad :: post)%list ->
     malformedPart bad ->
     (forall p, In p pre -> ~ allOnes p) ->
     evaluateVisibilityRule recordData (Some rule) = Ok (VBool false))
  /\ (forall pre good post,
        orPartsOf (filterExpression f results) = (pre ++ good :: post)%list ->
        allOnes good ->
        (forall p, In p pre -> ~ malformedPart p) ->
        evaluateVisibilityRule recordData (Some rule) = Ok (VBool true)).
Proof.
  intros Hcs Hf Hne Hres.
  assert (Heval : evaluateVisibilityRule recordData (Some rule)
                  = match evaluateOrParts (orPartsOf (filterExpression f results)) with
                    | Ok b => Ok (VBool b)
                    | Throw _ => Ok (VBool false)
                    end).
  { unfold evaluateVisibilityRule. rewrite Hcs, Hres, bind_Ok.
    unfold activeFilter. rewrite Hf.
    destruct (String.eqb_spec f "") as [-> | _]; [congruence | reflexivity]. }
  rewrite Heval. split.
  - intros pre bad post Hparts Hbad Hpre. rewrite Hparts.
    destruct (evaluateOrParts_malformed pre bad post Hbad Hpre) as [e ->].
    reflexivity.
  - intros pre good post Hparts Hgood Hpre. rewrite Hparts.
    rewrite (evaluateOrParts_all_ones pre good post Hgood Hpre). reflexivity.
Qed.

Lemma malformed_filter_fails_closed_witness :
  evaluateVisibilityRule statusRecord
    (Some (filteredRule [statusIsClosed] "1 OR x")) = Ok (VBool false)
  /\ evaluateVisibilityRule statusRecord
       (Some (filteredRule [statusIsClosed] "x OR 1 OR y")) = Ok (VBool false)
  /\ evaluateVisibilityRule statusRecord
       (Some (filteredRule [statusIsNew] "0 OR 1 OR y")) = Ok (VBool true).
Proof.
  split; [| split].
  - apply (proj1 (malformed_filter_fails_closed statusRecord
                    (filteredRule [statusIsClosed] "1 OR x") [statusIsClosed]
                    "1 OR x" [VBool false] eq_refl eq_refl ltac:(discriminate)
                    eq_refl)
             ["0 "] " x" []).
    + reflexivity.
    + exists "x". split; [left; reflexivity | reflexivity].
    + intros p [<- | []] H. specialize (H "0" (or_introl eq_refl)). discriminate.
  - apply (proj1 (malformed_filter_fails_closed statusRecord
                    (filteredRule [statusIsClosed] "x OR 1 OR y") [statusIsClosed]
                    "x OR 1 OR y" [VBool false] eq_refl eq_refl
                    ltac:(discriminate) eq_refl)
             [] "x " [" 0 "; " y"]).
    + reflexivity.
    + exists "x". split; [left; reflexivity | reflexivity].
    + intros p [].
  - apply (proj2 (malformed_filter_fails_closed statusRecord
                    (filteredRule [statusIsNew] "0 OR 1 OR y") [statusIsNew]
                    "0 OR 1 OR y" [VBool true] eq_refl eq_refl
                    ltac:(discriminate) eq_refl)
             ["0 "] " 1 " [" y"]).
    + reflexivity.
    + intros v [<- | []]. reflexivity.
    + intros p [<- | []] [v [[<- | []] Hbad]]. discriminate.
Defined.

(** C2 (counterexample).  With the filter ["1 OR x"] and a first criterion
    that holds, the expression is ["true || x"]: its second OR part has the
    operand ["x"], which is neither [1] nor [0], and yet the rule evaluates to
    [true]. *)
Lemma malformed_filter_short_circuit :
  map_result (evaluateCriterion statusRecord) [statusIsNew] = Ok [VBool true]
  /\ filterExpression "1 OR x" [VBool true] = "true || x"
  /\ orPartsOf "true || x" = ["1 "; " x"]
  /\ operandsOf " x" = ["x"]
  /\ wellFormedOperand "x" = false
  /\ evaluateVisibilityRule statusRecord
       (Some (filteredRule [statusIsNew] "1 OR x")) = Ok (VBool true).
Proof. repeat split; reflexivity. Qed.

Lemma map_result_raises recordData pre c post e :
  Forall (evaluates recordData) pre ->
  evaluateCriterion recordData c = Throw e ->
  map_result (evaluateCriterion recordData) (pre ++ c :: post) = Throw e.
Proof.
  intros Hpre Hc.
  induction Hpre as [|c0 pre [r Hr] _ IH]; cbn [app map_result].
  - rewrite Hc. reflexivity.
  - rewrite Hr, bind_Ok, IH. reflexivity.
Qed.

(** C5 (amended).  A rule without a boolean filter (absent or empty) whose
    criteria all evaluate takes the outcome of its first criterion, whatever
    the outcomes of the others; with an empty criteria list it evaluates to
    [true].  When a criterion raises, the exception of the first criterion
    that does leaves [evaluateVisibilityRule]: the rule has no outcome,
    whatever the first criterion gave. *)
Theorem unfiltered_rule_takes_first_outcome recordData rule :
  (activeFilter rule = None ->
   (forall c cs,
      criteria rule = Some (c :: cs) ->
      Forall (evaluates recordData) (c :: cs) ->
      exists r,
        evaluateCriterion recordData c = Ok r
        /\ evaluateVisibilityRule recordData (Some rule) = Ok r)
   /\ (criteria rule = Some [] ->
       evaluateVisibilityRule recordData (Some rule) = Ok (VBool true)))
  /\ (forall pre c post e,
        criteria rule = Some (pre ++ c :: post)%list ->
        Forall (evaluates recordData) pre ->
        evaluateCriterion recordData c = Throw e ->
        evaluateVisibilityRule recordData (Some rule) = Throw e).
Proof.
  split; [intros Hfilter; split |].
  - intros c cs Hcs Hall.
    destruct (map_result_evaluates _ _ Hall) as [results [Hres _]].
    destruct (map_result_head _ _ _ _ Hres) as [r [rs [-> Hr]]].
    exists r. split; [exact Hr |].
    unfold evaluateVisibilityRule. rewrite Hcs, Hres, bind_Ok, Hfilter.
    reflexivity.
  - intros Hcs. unfold evaluateVisibilityRule. rewrite Hcs, Hfilter.
    reflexivity.
  - intros pre c post e Hcs Hpre Hc.
    unfold evaluateVisibilityRule.
    rewrite Hcs, (map_result_raises _ _ _ _ _ Hpre Hc). reflexivity.
Qed.

Lemma unfiltered_rule_takes_first_outcome_witness :
  evaluateCriterion statusRecord statusIsNew = Ok (VBool true)
  /\ (exists r,
        evaluateCriterion statusRecord statusIsClosed = Ok r
        /\ evaluateVisibilityRule statusRecord
             (Some (unfilteredRule [statusIsClosed; statusIsNew])) = Ok r)
  /\ evaluateVisibilityRule statusRecord
       (Some (unfilteredRule [statusIsClosed; amountContains; statusIsNew]))
     = Throw (TypeError "leftValue.includes is not a function").
Proof.
  split; [reflexivity | split].
  - apply (proj1 (proj1 (unfiltered_rule_takes_first_outcome statusRecord
                           (unfilteredRule [statusIsClosed; statusIsNew]))
                    eq_refl)
             statusIsClosed [statusIsNew] eq_refl).
    repeat constructor; eexists; reflexivity.
  - apply (proj2 (unfiltered_rule_takes_first_outcome statusRecord
                    (unfilteredRule [statusIsClosed; amountContains; statusIsNew]))
             [statusIsClosed] amountContains [statusIsNew]
             (TypeError "leftValue.includes is not a function") eq_refl).
    + repeat constructor. eexists. reflexivity.
    + reflexivity.
Defined.

(** C5 (counterexample).  The rule has no filter and the criteria
    [Status__c EQUAL New] and [Amount__c CONTAINS 6]; the status is ["New"]
    and the amount is the number 60.  The first criterion gives [true], the
    second one raises, since a number has no [includes], and the rule gives
    no result: the exception leaves [evaluateVisibilityRule]. *)
Lemma unfiltered_rule_raising_criterion :
  recordData_get statusRecord "status__c" = VStr "New"
  /\ recordData_get statusRecord "amount__c" = VNum (Int 60)
  /\ activeFilter (unfilteredRule [statusIsNew; amountContains]) = None
  /\ evaluateCriterion statusRecord statusIsNew = Ok (VBool true)
  /\ evaluateCriterion statusRecord amountContains
     = Throw (TypeError "leftValue.includes is not a function")
  /\ evaluateVisibilityRule statusRecord
       (Some (unfilteredRule [statusIsNew; amountContains]))
     = Throw (TypeError "leftValue.includes is not a function").
Proof. repeat split; reflexivity. Qed.

(** Decide the tests of an operator name that is known. *)
Ltac decide_operator :=
  repeat match goal with
    | |- context [String.eqb ?a ?b] =>
        let v := eval vm_compute in (String.eqb a b) in
        change (String.eqb a b) with v
    end;
  cbv iota.

Lemma less_than_undefined_l v : Js.less_than VUndefined v = None.
Proof. destruct v; reflexivity. Qed.

Lemma SFcompare_nan_r (n : JNum) : SpecFloat.SFcompare n NaN = None.
Proof. destruct n; reflexivity. Qed.

Lemma less_than_undefined_r v : Js.less_than v VUndefined = None.
Proof.
  unfold Js.less_than. change (Js.ToNumber VUndefined) with NaN.
  rewrite SFcompare_nan_r. destruct v; reflexivity.
Qed.

Lemma strict_eq_undefined v : v <> VUndefined -> Js.strict_eq VUndefined v = false.
Proof. destruct v; intros H; try reflexivity. congruence. Qed.

(** C6 (amended).  For a criterion whose left field has no value in the
    record data, the outcome is [false] for GT, GE, LT and LE; for EQUAL it is
    [false] and for NE it is [true] when the criterion has a right value. *)
Theorem missing_field_outcomes recordData criterion :
  recordData_get recordData (leftFieldApiName criterion) = VUndefined ->
  (In (operator criterion) ["GT"; "GE"; "LT"; "LE"] ->
   evaluateCriterion recordData criterion = Ok (VBool false))
  /\ (operator criterion = "EQUAL" ->
      rightValue criterion <> VUndefined ->
      evaluateCriterion recordData criterion = Ok (VBool false))
  /\ (operator criterion = "NE" ->
      rightValue criterion <> VUndefined ->
      evaluateCriterion recordData criterion = Ok (VBool true)).
Proof.
  intros Hleft. unfold evaluateCriterion. rewrite Hleft.
  repeat split.
  - intros [Hop | [Hop | [Hop | [Hop | []]]]]; rewrite <- Hop; decide_operator;
      unfold Js.gt, Js.ge, Js.lt, Js.le;
      rewrite ?less_than_undefined_l, ?less_than_undefined_r; reflexivity.
  - intros Hop Hright. rewrite Hop. decide_operator.
    rewrite (strict_eq_undefined _ Hright). reflexivity.
  - intros Hop Hright. rewrite Hop. decide_operator.
    rewrite (strict_eq_undefined _ Hright). reflexivity.
Qed.

Lemma missing_field_outcomes_witness :
  evaluateCriterion statusRecord (missingField "GE" (VNum (Int 3))) = Ok (VBool false)
  /\ evaluateCriterion statusRecord (missingField "EQUAL" (VStr "Hot")) = Ok (VBool false)
  /\ evaluateCriterion statusRecord (missingField "NE" (VStr "Hot")) = Ok (VBool true).
Proof.
  split; [| split].
  - apply (proj1 (missing_field_outcomes statusRecord
                    (missingField "GE" (VNum (Int 3))) eq_refl)).
    simpl. auto.
  - apply (proj1 (proj2 (missing_field_outcomes statusRecord
                           (missingField "EQUAL" (VStr "Hot")) eq_refl)));
      [reflexivity | discriminate].
  - apply (proj2 (proj2 (missing_field_outcomes statusRecord
                           (missingField "NE" (VStr "Hot")) eq_refl)));
      [reflexivity | discriminate].
Defined.

(** C6 (counterexample).  The field [rating__c] has no value in the record
    data.  A criterion without a right value compares [undefined] with
    [undefined]: EQUAL yields [true] and NE yields [false].  CONTAINS yields
    [undefined] instead of [false], and the difference shows under a filter:
    the position is replaced by the text [undefined], which the evaluator
    rejects, so ["1 OR 2"] evaluates to [false] although criterion 2 holds. *)
Lemma missing_field_counterexample :
  recordData_get statusRecord (leftFieldApiName (missingField "EQUAL" VUndefined))
    = VUndefined
  /\ evaluateCriterion statusRecord (missingField "EQUAL" VUndefined) = Ok (VBool true)
  /\ evaluateCriterion statusRecord (missingField "NE" VUndefined) = Ok (VBool false)
  /\ evaluateCriterion statusRecord (missingField "CONTAINS" (VStr "Hot"))
     = Ok VUndefined
  /\ evaluateVisibilityRule statusRecord
       (Some (filteredRule [missingField "CONTAINS" (VStr "Hot"); statusIsNew]
                "1 OR 2"))
     = Ok (VBool false)
  /\ evaluateBooleanExpression (filterExpression "1 OR 2" [VBool false; VBool true])
     = Ok true.
Proof. repeat split; reflexivity. Qed.

(** ** Sorting *)

Section ArraySort.

Context {A : Type} (cmp : A -> A -> Z) (R : A -> A -> Prop).

Hypothesis cmp_le : forall x y, cmp x y <= 0 -> R x y.
Hypothesis cmp_gt : forall x y, 0 < cmp x y -> R y x.
Hypothesis R_trans : forall x y z, R x y -> R y z -> R x z.

Lemma sort_insert_perm x l : Permutation (x :: l) (sort_insert cmp x l).
Proof using Type.
  induction l as [|y l IH]; simpl.
  - reflexivity.
  - destruct (cmp x y <=? 0).
    + reflexivity.
    + rewrite perm_swap. apply perm_skip, IH.
Qed.

Lemma Array_sort_perm l : Permutation l (Array_sort cmp l).
Proof using Type.
  induction l as [|x l IH]; simpl.
  - reflexivity.
  - rewrite <- sort_insert_perm. apply perm_skip, IH.
Qed.

Lemma sort_insert_sorted x l :
  StronglySorted R l -> StronglySorted R (sort_insert cmp x l).
Proof using cmp_le cmp_gt R_trans.
  induction 1 as [|y l Hsorted IH Hy]; simpl.
  - repeat constructor.
  - destruct (Z.leb_spec (cmp x y) 0) as [Hle | Hgt].
    + constructor; [constructor; assumption |].
      constructor; [apply cmp_le, Hle |].
      eapply Forall_impl; [exact Hy |]. intros z Hz.
      eapply R_trans; [apply cmp_le, Hle | exact Hz].
    + constructor; [exact IH |].
      rewrite <- (sort_insert_perm x l).
      constructor; [apply cmp_gt, Hgt | exact Hy].
Qed.

Lemma Array_sort_sorted l : StronglySorted R (Array_sort cmp l).
Proof using cmp_le cmp_gt R_trans.
  induction l as [|x l IH]; simpl.
  - constructor.
  - apply sort_insert_sorted, IH.
Qed.

(** Stability: elements that share a key keep their order, when elements the
    comparator separates have different keys. *)
Context {K : Type} `{EqDecision K} (key : A -> K).

Hypothesis cmp_key : forall x y, 0 < cmp x y -> key x <> key y.

Lemma sort_insert_stable k x l :
  filter (fun y => key y = k) (sort_insert cmp x l)
  = filter (fun y => key y = k) (x :: l).
Proof using cmp_key.
  induction l as [|y l IH]; simpl.
  - reflexivity.
  - destruct (Z.leb_spec (cmp x y) 0) as [Hle | Hgt].
    + reflexivity.
    + rewrite (filter_cons _ y), IH, !filter_cons.
      specialize (cmp_key x y Hgt).
      repeat case_decide; congruence.
Qed.

Lemma Array_sort_stable k l :
  filter (fun y => key y = k) (Array_sort cmp l) = filter (fun y => key y = k) l.
Proof using cmp_key.
  induction l as [|x l IH]; simpl.
  - reflexivity.
  - rewrite sort_insert_stable, !filter_cons, IH. reflexivity.
Qed.

End ArraySort.

Lemma compareIconRules_le a b : compareIconRules a b <= 0 -> ruleBefore a b.
Proof.
  unfold compareIconRules, ruleBefore.
  destruct (Z.eqb_spec (visibilityGroup a) (visibilityGroup b)); simpl; lia.
Qed.

Lemma compareIconRules_gt a b : 0 < compareIconRules a b -> ruleBefore b a.
Proof.
  unfold compareIconRules, ruleBefore.
  destruct (Z.eqb_spec (visibilityGroup a) (visibilityGroup b)); simpl; lia.
Qed.

Lemma ruleBefore_trans a b c : ruleBefore a b -> ruleBefore b c -> ruleBefore a c.
Proof. unfold ruleBefore. lia. Qed.

Lemma compareIconRules_key a b :
  0 < compareIconRules a b ->
  (visibilityGroup a, visibilityRank a) <> (visibilityGroup b, visibilityRank b).
Proof.
  unfold compareIconRules. intros H [= Hg Hr]. rewrite Hg, Hr in H.
  rewrite Z.eqb_refl in H. simpl in H. lia.
Qed.

(** The sorted copy is a stable rearrangement of the rules in ascending
    order of group, then rank. *)
Lemma sortedRules_spec rules :
  Permutation rules (Array_sort compareIconRules rules)
  /\ StronglySorted ruleBefore (Array_sort compareIconRules rules)
  /\ forall k,
       filter (fun r => (visibilityGroup r, visibilityRank r) = k)
         (Array_sort compareIconRules rules)
       = filter (fun r => (visibilityGroup r, visibilityRank r) = k) rules.
Proof.
  split; [apply Array_sort_perm | split].
  - apply Array_sort_sorted;
      eauto using compareIconRules_le, compareIconRules_gt, ruleBefore_trans.
  - intros k. apply Array_sort_stable, compareIconRules_key.
Qed.

(** ** Format evaluator: icon rules *)

Lemma firstIconMatch_skip numValue pre rest :
  (forall x, In x pre -> ~ applicable numValue x) ->
  firstIconMatch numValue (pre ++ rest) = firstIconMatch numValue rest.
Proof.
  induction pre as [|x pre IH]; intros Hpre; simpl.
  - reflexivity.
  - assert (Hx : ~ applicable numValue x) by (apply Hpre; left; reflexivity).
    assert (Hrest : firstIconMatch numValue (pre ++ rest)
                    = firstIconMatch numValue rest)
      by (apply IH; intros y Hy; apply Hpre; right; exact Hy).
    unfold applicable in Hx.
    destruct (iconRuleMatches numValue x); [| exact Hrest].
    destruct (icon x); [| exact Hrest].
    exfalso. apply Hx. split; [reflexivity | eauto].
Qed.

Lemma firstIconMatch_none numValue sortedRules :
  (forall x, In x sortedRules -> ~ applicable numValue x) ->
  firstIconMatch numValue sortedRules = None.
Proof.
  intros H. rewrite <- (app_nil_r sortedRules).
  rewrite (firstIconMatch_skip _ _ [] H). reflexivity.
Qed.

Lemma evaluateIconRules_sorted recordData rules fieldId :
  is_nullish (recordData_get recordData (JsString.toLowerCase fieldId)) = false ->
  evaluateIconRules recordData (Some rules) fieldId
  = firstIconMatch
      (coerceNumeric (recordData_get recordData (JsString.toLowerCase fieldId)))
      (Array_sort compareIconRules rules).
Proof.
  intros Hv. unfold evaluateIconRules. rewrite Hv.
  destruct rules; reflexivity.
Qed.

(** C7 (amended).  When the field has a value that is neither [null] nor
    [undefined], icon rule evaluation goes through the rules in ascending
    order of ([visibilityGroup], [visibilityRank]) and returns the descriptor
    of the first rule that has an icon and whose comparison holds, the field
    value and the operand being converted to numbers each on its own when it
    is numeric-looking; it returns [null] when there is no such rule.  For the
    rules (group 1, rank 1, GT 50) and (group 1, rank 2, LE 50) and the value
    30 the descriptor of the second rule is returned. *)
Theorem icon_rules_first_applicable :
  (forall recordData rules fieldId,
     is_nullish (recordData_get recordData (JsString.toLowerCase fieldId)) = false ->
     let numValue :=
       coerceNumeric (recordData_get recordData (JsString.toLowerCase fieldId)) in
     let sortedRules := Array_sort compareIconRules rules in
     Permutation rules sortedRules
     /\ StronglySorted ruleBefore sortedRules
     /\ (forall pre rule i post,
           sortedRules = (pre ++ rule :: post)%list ->
           (forall x, In x pre -> ~ applicable numValue x) ->
           iconRuleMatches numValue rule = true ->
           icon rule = Some i ->
           evaluateIconRules recordData (Some rules) fieldId
           = Some (iconFormatOf rule i))
     /\ ((forall x, In x rules -> ~ applicable numValue x) ->
         evaluateIconRules recordData (Some rules) fieldId = None))
  /\ evaluateIconRules (scoreRecord (VNum (Int 30))) (Some [above50; upTo50])
       "Score__c"
     = Some {| fmt_type := "icon";
               fmt_iconName := VStr "utility:arrowdown";
               fmt_iconResourcePath := VStr "/icons/arrowdown.svg";
               fmt_iconColor := VStr "error" |}.
Proof.
  split; [| reflexivity].
  intros recordData rules fieldId Hv numValue sortedRules.
  destruct (sortedRules_spec rules) as [Hperm [Hsorted _]].
  split; [exact Hperm | split; [exact Hsorted | split]].
  - intros pre rule i post Hsplit Hpre Hmatch Hicon.
    rewrite (evaluateIconRules_sorted _ _ _ Hv).
    fold numValue sortedRules. rewrite Hsplit.
    rewrite (firstIconMatch_skip _ _ _ Hpre). simpl.
    rewrite Hmatch, Hicon. reflexivity.
  - intros Hnone.
    rewrite (evaluateIconRules_sorted _ _ _ Hv).
    apply firstIconMatch_none. intros x Hx. apply Hnone.
    eapply Permutation_in; [symmetry; exact Hperm | exact Hx].
Qed.

Lemma icon_rules_first_applicable_witness :
  evaluateIconRules (scoreRecord (VStr "30.5")) (Some [upTo50; above50]) "Score__c"
  = Some (iconFormatOf upTo50 arrowDown).
Proof.
  apply (proj1 (proj2 (proj2
           (proj1 icon_rules_first_applicable (scoreRecord (VStr "30.5"))
              [upTo50; above50] "Score__c" eq_refl)))
           [above50] upTo50 arrowDown []).
  - reflexivity.
  - intros x [<- | []] [Hmatch _]. discriminate.
  - reflexivity.
  - reflexivity.
Defined.

(** C7 (counterexample).  (1) The field value is [null]: the comparison of
    the rule NE 5 holds for it, yet [null] is returned.  (2) The first rule in
    sorted order whose comparison holds has no icon: the descriptor returned
    is the one of the second rule.  (3) The field value ["abc"] is not
    numeric-looking, and compared as given with the operand ["50"] it is
    greater; the operand alone is converted to a number, the comparison fails
    and [null] is returned. *)
Lemma icon_rules_counterexample :
  (iconRuleMatches (coerceNumeric VNull) not5 = true
   /\ evaluateIconRules (scoreRecord VNull) (Some [not5]) "Score__c" = None)
  /\ (Array_sort compareIconRules [above5; above10NoIcon] = [above10NoIcon; above5]
      /\ iconRuleMatches (coerceNumeric (VNum (Int 30))) above10NoIcon = true
      /\ evaluateIconRules (scoreRecord (VNum (Int 30)))
           (Some [above5; above10NoIcon]) "Score__c"
         = Some (iconFormatOf above5 arrowUp))
  /\ (Js.isNaN (VStr "abc") = true
      /\ Js.gt (VStr "abc") (operand above50) = true
      /\ evaluateIconRules (scoreRecord (VStr "abc")) (Some [above50]) "Score__c"
         = None).
Proof. repeat split; reflexivity. Qed.

(** C10.  When the current value of the field is [null] or [undefined], icon
    rule evaluation returns [null] whatever the rules are, rules with the
    operator NE included. *)
Theorem icon_rules_skip_missing_value recordData iconRules fieldId :
  is_nullish (recordData_get recordData (JsString.toLowerCase fieldId)) = true ->
  evaluateIconRules recordData iconRules fieldId = None.
Proof.
  intros Hv. unfold evaluateIconRules.
  destruct iconRules as [[|rule rules]|]; try reflexivity.
  rewrite Hv. reflexivity.
Qed.

Lemma icon_rules_skip_missing_value_witness :
  evaluateCriterion ∅
    {| leftValue := "{!Record.Score__c}"; operator := "NE"; rightValue := VStr "5" |}
  = Ok (VBool true)
  /\ evaluateIconRules ∅ (Some [not5]) "Score__c" = None
  /\ evaluateIconRules (scoreRecord VNull) (Some [not5]) "Score__c" = None.
Proof.
  split; [reflexivity | split].
  - apply (icon_rules_skip_missing_value ∅ (Some [not5]) "Score__c").
    reflexivity.
  - apply (icon_rules_skip_missing_value (scoreRecord VNull) (Some [not5])
             "Score__c").
    reflexivity.
Defined.

(** ** Layout parser *)

Lemma simple_layout_single_section doc regions :
  flexiPageRegions doc = Some regions ->
  hasSimpleLayout regions = true ->
  parseFlexiPageJson (Some doc)
  = Ok [("defaultSection",
         {| label := VStr "Information";
            columns :=
              [("defaultColumn",
                {| side := "left";
                   fields := fold_left addSimpleRegion regions [] |})] |})].
Proof.
  intros Hregions Hsimple. unfold parseFlexiPageJson.
  rewrite Hregions, Hsimple. reflexivity.
Qed.

Lemma obj_set_In {V : Type} (o : Obj V) key v kv :
  In kv (obj_set o key v) -> kv = (key, v) \/ In kv o.
Proof.
  induction o as [|[k0 v0] o IH]; simpl.
  - intros [<- | []]. auto.
  - destruct (String.eqb_spec k0 key) as [-> | Hne]; simpl.
    + intros [<- | Hin]; auto.
    + intros [<- | Hin]; [auto |]. apply IH in Hin. intuition.
Qed.

Lemma addSimpleItems_placed regions region allItems :
  In region regions ->
  region_type region = "Region" ->
  itemInstances region = Some allItems ->
  forall items index defaultFields,
    (forall j item, items !! j = Some item -> allItems !! (index + j)%nat = Some item) ->
    (forall fieldId slot,
       In (fieldId, slot) defaultFields -> placedIn regions fieldId slot) ->
    forall fieldId slot,
      In (fieldId, slot) (addSimpleItems items index defaultFields) ->
      placedIn regions fieldId slot.
Proof.
  intros Hregion Htype Hitems.
  induction items as [|item rest IH]; intros index defaultFields Hsuffix Hplaced;
    simpl.
  - exact Hplaced.
  - apply IH.
    + intros j item' Hj.
      replace (S index + j)%nat with (index + S j)%nat by lia.
      apply Hsuffix. exact Hj.
    + destruct (fieldInstance item) as [fi|] eqn:Hfi; [| exact Hplaced].
      intros fieldId slot Hin. apply obj_set_In in Hin as [[= -> ->] | Hin].
      * exists region, allItems, item, fi. simpl.
        repeat split; try assumption.
        rewrite <- (Nat.add_0_r index). apply Hsuffix. reflexivity.
      * apply Hplaced, Hin.
Qed.

(** In a simple layout the [order] of a slot is the index of its field
    instance within its own region. *)
Lemma simple_layout_order_is_region_index regions fieldId slot :
  In (fieldId, slot) (fold_left addSimpleRegion regions []) ->
  placedIn regions fieldId slot.
Proof.
  assert (Hgen : forall rest defaultFields,
             (forall region, In region rest -> In region regions) ->
             (forall f s, In (f, s) defaultFields -> placedIn regions f s) ->
             forall f s,
               In (f, s) (fold_left addSimpleRegion rest defaultFields) ->
               placedIn regions f s).
  { induction rest as [|region rest IH]; intros defaultFields Hsub Hplaced; simpl.
    - exact Hplaced.
    - apply IH; [intros r Hr; apply Hsub; right; exact Hr |].
      unfold addSimpleRegion.
      destruct (String.eqb_spec (region_type region) "Region") as [Htype | _];
        [| exact Hplaced].
      destruct (itemInstances region) as [items|] eqn:Hitems; [| exact Hplaced].
      eapply addSimpleItems_placed; eauto.
      apply Hsub. left. reflexivity. }
  apply Hgen; [auto | intros f s []].
Qed.

Lemma obj_set_fresh {V : Type} (o : Obj V) key v :
  ~ In key (obj_keys o) -> obj_set o key v = (o ++ [(key, v)])%list.
Proof.
  induction o as [|[k0 v0] o IH]; simpl; intros Hfresh.
  - reflexivity.
  - destruct (String.eqb_spec k0 key) as [-> | Hne].
    + exfalso. apply Hfresh. left. reflexivity.
    + rewrite IH; [reflexivity |]. intros Hin. apply Hfresh. right. exact Hin.
Qed.

Lemma addSimpleItems_flat fieldNames : forall index defaultFields,
  List.NoDup fieldNames ->
  (forall n, In n fieldNames -> ~ In n (obj_keys defaultFields)) ->
  List.map (fun kv => (kv.1, order kv.2))
    (addSimpleItems (List.map flatField fieldNames) index defaultFields)
  = (List.map (fun kv => (kv.1, order kv.2)) defaultFields
     ++ imap (fun i n => (n, (index + i)%nat)) fieldNames)%list.
Proof.
  induction fieldNames as [|n ns IH]; intros index defaultFields Hnd Hfresh.
  - simpl. rewrite app_nil_r. reflexivity.
  - apply List.NoDup_cons_iff in Hnd as [Hn Hnd].
    cbn [List.map addSimpleItems flatField fieldInstance fieldItem].
    change (JsString.replace "Record." "" ("Record." ++ n)) with n.
    rewrite obj_set_fresh by (apply Hfresh; left; reflexivity).
    rewrite IH.
    + rewrite map_app. cbn [List.map fst snd order simpleFieldSlot].
      rewrite <- app_assoc. f_equal. cbn [app imap].
      rewrite Nat.add_0_r. f_equal. apply imap_ext. intros i m _. simpl.
      f_equal. lia.
    + exact Hnd.
    + intros m Hm Hin. unfold obj_keys in Hin. rewrite map_app in Hin.
      apply in_app_or in Hin as [Hin | [<- | []]].
      * apply (Hfresh m); [right; exact Hm | exact Hin].
      * apply Hn, Hm.
Qed.

Lemma omap_flatField fieldNames :
  omap
    (fun item =>
       (fun fi => JsString.replace "Record." "" (fieldItem fi)) <$> fieldInstance item)
    (List.map flatField fieldNames)
  = fieldNames.
Proof.
  induction fieldNames as [|n ns IH]; [reflexivity |].
  simpl. f_equal. exact IH.
Qed.

(** With a single flat region of distinct fields the two orders agree. *)
Lemma single_region_order_is_flattened regionName fieldNames :
  List.NoDup fieldNames ->
  List.map (fun kv => (kv.1, order kv.2))
    (fold_left addSimpleRegion [flatRegion regionName fieldNames] [])
  = flattenedFieldOrder [flatRegion regionName fieldNames].
Proof.
  intros Hnd. unfold flattenedFieldOrder.
  cbn [fold_left List.map List.concat].
  unfold addSimpleRegion, flatRegion. cbn [region_type itemInstances].
  change (String.eqb "Region" "Region") with true. cbv iota.
  rewrite omap_flatField, app_nil_r.
  rewrite addSimpleItems_flat; [reflexivity | exact Hnd | intros n _ []].
Qed.

(** C3 (the behaviour of the code at the input of the claim).  For the
    simple-shape document with the regions R1 (items a, b) and R2 (item c)
    the parser yields the single section [defaultSection] with the column
    [defaultColumn] and the label [Information], but [order] is the index of
    the item within its own region: a is 0, b is 1 and c is 0 again, where the
    index in the flattened list is 2.  Sorted by [order], the assembled column
    shows c in front of b. *)
Theorem simple_layout_order_restarts_per_region :
  exists defaultFields,
    parseFlexiPageJson (Some twoRegionPage)
    = Ok [("defaultSection",
           {| label := VStr "Information";
              columns :=
                [("defaultColumn", {| side := "left"; fields := defaultFields |})] |})]
    /\ List.map (fun kv => (kv.1, order kv.2)) defaultFields
       = [("a", 0%nat); ("b", 1%nat); ("c", 0%nat)]
    /\ flattenedFieldOrder [flatRegion "R1" ["a"; "b"]; flatRegion "R2" ["c"]]
       = [("a", 0%nat); ("b", 1%nat); ("c", 2%nat)]
    /\ obj_keys (visibleFields {| side := "left"; fields := defaultFields |})
       = ["a"; "c"; "b"].
Proof. eexists. repeat split; reflexivity. Qed.

(** ** View-model assembler: exclusion *)

Lemma array_includes_In keys key : array_includes keys key = true <-> In key keys.
Proof.
  unfold array_includes. rewrite existsb_exists. split.
  - intros [k [Hin Heq]]. apply String.eqb_eq in Heq. congruence.
  - intros Hin. exists key. split; [exact Hin | apply String.eqb_refl].
Qed.

Lemma obj_delete_keys {V : Type} (o : Obj V) key k :
  In k (obj_keys (obj_delete o key)) -> In k (obj_keys o) /\ k <> key.
Proof.
  induction o as [|[k0 v0] o IH]; simpl.
  - intros [].
  - destruct (String.eqb_spec k0 key) as [-> | Hne].
    + intros H. apply IH in H as [Hin Hk]. auto.
    + simpl. intros [<- | H].
      * auto.
      * apply IH in H as [Hin Hk]. auto.
Qed.

Lemma removeExcluded_fold excluded ks : forall (fs : Obj FieldSlot) k,
  In k (obj_keys
          (fold_left
             (fun fs fieldId =>
                if array_includes excluded (JsString.toLowerCase fieldId)
                then obj_delete fs fieldId
                else fs)
             ks fs)) ->
  In k (obj_keys fs)
  /\ (In k ks -> array_includes excluded (JsString.toLowerCase k) = false).
Proof.
  induction ks as [|k0 ks IH]; intros fs k; simpl.
  - intros H. split; [exact H | intros []].
  - intros H. apply IH in H as [Hin Hks].
    destruct (array_includes excluded (JsString.toLowerCase k0)) eqn:Hk0.
    + apply obj_delete_keys in Hin as [Hin Hne].
      split; [exact Hin |]. intros [-> | Hk]; [congruence | auto].
    + split; [exact Hin |]. intros [<- | Hk]; auto.
Qed.

Lemma removeExcludedFromColumn_keys excluded column k :
  In k (obj_keys (fields (removeExcludedFromColumn excluded column))) ->
  In k (obj_keys (fields column))
  /\ array_includes excluded (JsString.toLowerCase k) = false.
Proof.
  unfold removeExcludedFromColumn. simpl. intros H.
  apply removeExcluded_fold in H as [Hin Hks]. auto.
Qed.

Lemma deleteExcludedFields_ids this parsedSections k :
  In k (allFieldIds (deleteExcludedFields this parsedSections)) ->
  In k (allFieldIds parsedSections)
  /\ ~ In (JsString.toLowerCase k) (allExcludedFields this).
Proof.
  unfold allFieldIds, deleteExcludedFields, columnFieldIds, obj_map.
  rewrite !in_concat. intros [ids [Hids Hk]].
  apply in_map_iff in Hids as [[sid section] [<- Hsec]].
  apply in_map_iff in Hsec as [[sid0 section0] [Heq Hsec0]].
  simpl in Heq. injection Heq as Hsid Hsection. subst sid section.
  simpl in Hk. apply in_concat in Hk as [ids [Hids Hk]].
  apply in_map_iff in Hids as [[cid column] [<- Hcol]].
  apply in_map_iff in Hcol as [[cid0 column0] [Heq Hcol0]].
  simpl in Heq. injection Heq as Hcid Hcolumn. subst cid column.
  simpl in Hk. apply removeExcludedFromColumn_keys in Hk as [Hin Hex].
  split.
  - exists (columnFieldIds (columns section0)). split.
    + apply in_map_iff. exists (sid0, section0). auto.
    + unfold columnFieldIds. apply in_concat.
      exists (obj_keys (fields column0)). split; [| exact Hin].
      apply in_map_iff. exists (cid0, column0). auto.
  - intros Hin'. apply array_includes_In in Hin'. congruence.
Qed.

(** The deep copy keeps the field ids and their order. *)
Lemma jsonCopySections_ids parsedSections :
  allFieldIds (jsonCopySections parsedSections) = allFieldIds parsedSections.
Proof.
  unfold allFieldIds, jsonCopySections, obj_map. rewrite List.map_map.
  f_equal. apply map_ext. intros [sid section]. cbn [fst snd columns].
  unfold columnFieldIds. rewrite List.map_map. f_equal. apply map_ext.
  intros [cid column]. cbn [fst snd].
  unfold jsonCopyColumn, obj_map, obj_keys. cbn [fields].
  rewrite List.map_map. reflexivity.
Qed.

(** The slots of the deep copy are the copies of the slots. *)
Lemma slotIn_jsonCopySections parsedSections fieldId field :
  slotIn (jsonCopySections parsedSections) fieldId field
  <-> exists field0,
        field = jsonCopySlot field0 /\ slotIn parsedSections fieldId field0.
Proof.
  unfold slotIn, jsonCopySections, obj_map. split.
  - intros [sid [section [cid [column [Hsec [Hcol Hfield]]]]]].
    apply in_map_iff in Hsec as [[sid0 section0] [Heq Hsec0]].
    cbn [fst snd] in Heq. injection Heq as Hsid Hsection. subst sid section.
    cbn [columns] in Hcol.
    apply in_map_iff in Hcol as [[cid0 column0] [Heq Hcol0]].
    cbn [fst snd] in Heq. injection Heq as Hcid Hcolumn. subst cid column.
    unfold jsonCopyColumn, obj_map in Hfield. cbn [fields] in Hfield.
    apply in_map_iff in Hfield as [[fieldId0 field0] [Heq Hfield0]].
    cbn [fst snd] in Heq. injection Heq as Hid Hslot. subst fieldId field.
    exists field0. split; [reflexivity |].
    exists sid0, section0, cid0, column0. auto.
  - intros [field0 [-> [sid [section [cid [column [Hsec [Hcol Hfield]]]]]]]].
    exists sid,
      {| label := jsonCopy (label section);
         columns := List.map (fun kv => (kv.1, jsonCopyColumn kv.2)) (columns section) |},
      cid, (jsonCopyColumn column).
    split; [| split].
    + apply in_map_iff. exists (sid, section). split; [reflexivity | exact Hsec].
    + cbn [columns]. apply in_map_iff. exists (cid, column).
      split; [reflexivity | exact Hcol].
    + unfold jsonCopyColumn, obj_map. cbn [fields].
      apply in_map_iff. exists (fieldId, field0). split; [reflexivity | exact Hfield].
Qed.

Lemma removeExcludedFields_ids this parsedSections k :
  In k (allFieldIds (removeExcludedFields this parsedSections)) ->
  In k (allFieldIds parsedSections)
  /\ ~ In (JsString.toLowerCase k) (allExcludedFields this).
Proof.
  unfold removeExcludedFields. intros H.
  apply deleteExcludedFields_ids in H. rewrite jsonCopySections_ids in H.
  exact H.
Qed.

Lemma system_field_excluded this fieldId :
  api_isReadOnly this = false ->
  isSystemField fieldId ->
  In (JsString.toLowerCase fieldId) (allExcludedFields this).
Proof.
  intros Hedit [s [Hs Heq]]. unfold allExcludedFields. rewrite Hedit. simpl negb.
  rewrite Heq. apply in_map. apply in_or_app. right. exact Hs.
Qed.

Lemma obj_forEach_result_keys {V : Type} (f : string -> V -> result V) :
  forall o o', obj_forEach_result f o = Ok o' -> obj_keys o' = obj_keys o.
Proof.
  induction o as [|[k v] o IH]; intros o'; simpl.
  - intros [= <-]. reflexivity.
  - destruct (f k v) as [v'|e]; [| discriminate]. rewrite bind_Ok.
    destruct (obj_forEach_result f o) as [o''|e]; [| discriminate].
    rewrite bind_Ok. intros [= <-]. simpl. f_equal. apply IH. reflexivity.
Qed.

Lemma obj_forEach_result_map {V W : Type} (f : string -> V -> result V)
  (g : V -> W) :
  (forall k v v', f k v = Ok v' -> g v' = g v) ->
  forall o o',
    obj_forEach_result f o = Ok o' ->
    List.map (fun kv => g kv.2) o' = List.map (fun kv => g kv.2) o.
Proof.
  intros Hg. induction o as [|[k v] o IH]; intros o'; simpl.
  - intros [= <-]. reflexivity.
  - destruct (f k v) as [v'|e] eqn:Hf; [| discriminate]. rewrite bind_Ok.
    destruct (obj_forEach_result f o) as [o''|e]; [| discriminate].
    rewrite bind_Ok. intros [= <-]. simpl. f_equal.
    + eapply Hg, Hf.
    + apply IH. reflexivity.
Qed.

(** [calculateVisibility] only changes flags: the field ids stay. *)
Lemma calculateVisibility_ids recordData parsedSections parsedSections' :
  calculateVisibility recordData parsedSections = Ok parsedSections' ->
  allFieldIds parsedSections' = allFieldIds parsedSections.
Proof.
  unfold calculateVisibility, allFieldIds. intros H. f_equal.
  eapply (obj_forEach_result_map _ (fun s => columnFieldIds (columns s))); [| exact H].
  clear. intros k section section'. cbv beta.
  destruct (obj_forEach_result _ (columns section)) as [cols|e] eqn:Hcols;
    [| discriminate].
  rewrite bind_Ok. intros [= <-]. simpl. unfold columnFieldIds. f_equal.
  eapply (obj_forEach_result_map _ (fun c => obj_keys (fields c))); [| exact Hcols].
  clear. intros k column column'. cbv beta.
  destruct (obj_forEach_result _ (fields column)) as [fs|e] eqn:Hfs;
    [| discriminate].
  rewrite bind_Ok. intros [= <-]. simpl.
  eapply obj_forEach_result_keys, Hfs.
Qed.

Lemma visibleFields_keys column k :
  In k (obj_keys (visibleFields column)) -> In k (obj_keys (fields column)).
Proof.
  unfold visibleFields, obj_keys. rewrite !in_map_iff.
  intros [kv [<- Hin]]. exists kv. split; [reflexivity |].
  eapply Permutation_in in Hin; [| symmetry; apply Array_sort_perm].
  apply filter_In in Hin as [Hin _]. exact Hin.
Qed.

(** The assembled view model shows no field that the tree does not have. *)
Lemma processSections_ids recordData parsedSections k :
  In k (assembledFieldIds (processSections recordData parsedSections)) ->
  In k (allFieldIds parsedSections).
Proof.
  unfold assembledFieldIds, processSections, allFieldIds, columnFieldIds.
  rewrite !in_concat. intros [ids [Hids Hk]].
  apply in_map_iff in Hids as [view [<- Hview]].
  apply filter_In in Hview as [Hview _].
  apply in_map_iff in Hview as [[sid section] [<- Hsec]].
  simpl in Hk. apply in_concat in Hk as [ids [Hids Hk]].
  apply in_map_iff in Hids as [cv [<- Hcv]].
  apply in_map_iff in Hcv as [cv0 [<- Hcv0]].
  apply filter_In in Hcv0 as [Hcv0 _].
  apply in_map_iff in Hcv0 as [[cid column] [<- Hcol]].
  simpl in Hk. apply visibleFields_keys in Hk.
  exists (List.concat (List.map (fun c => obj_keys (fields c.2)) (columns section))).
  split.
  - apply in_map_iff. exists (sid, section). auto.
  - apply in_concat. exists (obj_keys (fields column)). split; [| exact Hk].
    apply in_map_iff. exists (cid, column). auto.
Qed.

(** C4.  In edit mode ([isReadOnly] false) no field of the assembled view
    model is one of the seven system fields, in any letter case, whatever the
    [excludedFields] setting is; this holds for the assembly made when record
    values arrive, for the assembly made for a new record, and for the view
    model of every tree that went through [removeExcludedFields]. *)
Theorem system_fields_absent_in_edit_mode this config :
  api_isReadOnly this = false ->
  (forall recordData view recordData',
     processFieldData this config recordData = Ok (view, recordData') ->
     forall fieldId, In fieldId (assembledFieldIds view) -> ~ isSystemField fieldId)
  /\ (forall view recordData',
        connectedCallbackNewRecord this config = Ok (view, recordData') ->
        forall fieldId, In fieldId (assembledFieldIds view) -> ~ isSystemField fieldId)
  /\ (forall recordData parsedSections fieldId,
        In fieldId
          (assembledFieldIds
             (processSections recordData (removeExcludedFields this parsedSections))) ->
        ~ isSystemField fieldId).
Proof.
  intros Hedit. split; [| split].
  - intros recordData view recordData'. unfold processFieldData.
    destruct (parseFlexiPageJson config) as [parsed|e]; [| discriminate].
    rewrite bind_Ok. cbv zeta.
    destruct (calculateVisibility _ _) as [visible|e] eqn:Hvis; [| discriminate].
    rewrite bind_Ok. intros [= <- _] fieldId Hin Hsys.
    apply processSections_ids in Hin.
    rewrite (calculateVisibility_ids _ _ _ Hvis) in Hin.
    apply removeExcludedFields_ids in Hin as [_ Hin].
    apply Hin, system_field_excluded; assumption.
  - intros view recordData'. unfold connectedCallbackNewRecord.
    destruct (parseFlexiPageJson config) as [parsed|e]; [| discriminate].
    rewrite bind_Ok. intros [= <- _] fieldId Hin Hsys.
    apply processSections_ids in Hin.
    apply removeExcludedFields_ids in Hin as [_ Hin].
    apply Hin, system_field_excluded; assumption.
  - intros recordData parsedSections fieldId Hin Hsys.
    apply processSections_ids in Hin.
    apply removeExcludedFields_ids in Hin as [_ Hin].
    apply Hin, system_field_excluded; assumption.
Qed.

Lemma system_fields_absent_in_edit_mode_witness :
  exists view recordData',
    processFieldData (editForm "name, AMOUNT__C" "") (Some systemPage) ∅
    = Ok (view, recordData')
    /\ assembledFieldIds view = ["Stage__c"]
    /\ ~ isSystemField "Stage__c".
Proof.
  eexists _, _. split; [reflexivity | split; [reflexivity |]].
  apply (proj1 (system_fields_absent_in_edit_mode
                  (editForm "name, AMOUNT__C" "") (Some systemPage) eq_refl)
           ∅ _ _ eq_refl "Stage__c").
  left. reflexivity.
Defined.

(** ** View-model assembler: default values *)

Section ObjForEach.

Context {V St : Type} (f : string -> V -> St -> V * St).

(** [grows s s'] relates the state before and after a callback; [holds k v s]
    is what the callback establishes for the entry it leaves behind. *)
Variable grows : St -> St -> Prop.
Variable holds : string -> V -> St -> Prop.

Hypothesis grows_refl : forall s, grows s s.
Hypothesis grows_trans : forall s1 s2 s3, grows s1 s2 -> grows s2 s3 -> grows s1 s3.
Hypothesis holds_grows : forall k v s s', holds k v s -> grows s s' -> holds k v s'.
Hypothesis callback :
  forall k v s v' s', f k v s = (v', s') -> grows s s' /\ holds k v' s'.

Lemma obj_forEach_holds : forall o s o' s',
  obj_forEach f o s = (o', s') ->
  grows s s' /\ forall k v', In (k, v') o' -> holds k v' s'.
Proof using grows_refl grows_trans holds_grows callback.
  induction o as [|[k v] o IH]; intros s o' s'; simpl.
  - intros [= <- <-]. split; [apply grows_refl | intros k v' []].
  - destruct (f k v s) as [v1 s1] eqn:Hf.
    destruct (obj_forEach f o s1) as [o2 s2] eqn:Ho.
    intros [= <- <-].
    destruct (callback _ _ _ _ _ Hf) as [Hg1 Hh1].
    destruct (IH _ _ _ Ho) as [Hg2 Hh2].
    split; [eapply grows_trans; eassumption |].
    intros k' v' [[= <- <-] | Hin].
    + eapply holds_grows; eassumption.
    + apply Hh2, Hin.
Qed.

Lemma obj_forEach_keys : forall o s,
  obj_keys (obj_forEach f o s).1 = obj_keys o.
Proof using Type.
  induction o as [|[k v] o IH]; intros s; simpl.
  - reflexivity.
  - destruct (f k v s) as [v1 s1]. specialize (IH s1).
    destruct (obj_forEach f o s1) as [o2 s2]. simpl in *. congruence.
Qed.

Lemma obj_forEach_map {W : Type} (g : V -> W) :
  (forall k v s, g (f k v s).1 = g v) ->
  forall o s,
    List.map (fun kv => g kv.2) (obj_forEach f o s).1
    = List.map (fun kv => g kv.2) o.
Proof using Type.
  intros Hg. induction o as [|[k v] o IH]; intros s; simpl.
  - reflexivity.
  - specialize (Hg k v s). destruct (f k v s) as [v1 s1]. specialize (IH s1).
    destruct (obj_forEach f o s1) as [o2 s2]. simpl in *. congruence.
Qed.

End ObjForEach.

Lemma mirrorGrows_refl lookupValues s : mirrorGrows lookupValues s s.
Proof. intros key H. exact H. Qed.

Lemma mirrorGrows_trans lookupValues s1 s2 s3 :
  mirrorGrows lookupValues s1 s2 -> mirrorGrows lookupValues s2 s3 ->
  mirrorGrows lookupValues s1 s3.
Proof. intros H12 H23 key H. apply H23, H12, H. Qed.

Lemma defaulted_grows lookupValues fieldId field s s' :
  defaulted lookupValues fieldId field s -> mirrorGrows lookupValues s s' ->
  defaulted lookupValues fieldId field s'.
Proof.
  intros Hd Hg Hblank v Hv. destruct (Hd Hblank v Hv) as [Hval Hrd].
  split; [exact Hval |].
  destruct (Hg (JsString.toLowerCase fieldId)) as [w [Hw Hrd']].
  - exists v. auto.
  - congruence.
Qed.

Lemma applyDefaultToField_new lookupValues fieldId field s field' s' :
  applyDefaultToField lookupValues true fieldId field s = (field', s') ->
  mirrorGrows lookupValues s s' /\ defaulted lookupValues fieldId field' s'.
Proof.
  unfold applyDefaultToField.
  destruct (isBlankSpace field) eqn:Hblank.
  - intros [= <- <-]. split; [apply mirrorGrows_refl |].
    intros Hb. congruence.
  - destruct (obj_get lookupValues (JsString.toLowerCase fieldId)) as [d|] eqn:Hd.
    + simpl orb. cbv iota. intros [= <- <-]. split.
      * intros key [v [Hv Hrd]]. exists v. split; [exact Hv |]. simpl.
        destruct (decide (JsString.toLowerCase fieldId = key)) as [<- | Hne].
        -- rewrite lookup_insert_eq. congruence.
        -- rewrite lookup_insert_ne by exact Hne. exact Hrd.
      * intros _ v Hv. simpl. rewrite lookup_insert_eq. split; congruence.
    + intros [= <- <-]. split; [apply mirrorGrows_refl |].
      intros _ v Hv. congruence.
Qed.

(** For a new record [applyDefaultValues] gives every slot that is not a
    blank space the default value of its id and mirrors it. *)
Lemma applyDefaultValues_new this recordData parsedSections :
  isNewRecord this = true ->
  let applied := applyDefaultValues this recordData parsedSections in
  forall sid section cid column fieldId field,
    In (sid, section) (applied_sections applied) ->
    In (cid, column) (columns section) ->
    In (fieldId, field) (fields column) ->
    isBlankSpace field = false ->
    forall v,
      obj_get (lowercase (parseDefaultValues this)) (JsString.toLowerCase fieldId)
      = Some v ->
      value field = v
      /\ applied_recordData applied !! JsString.toLowerCase fieldId = Some v.
Proof.
  intros Hnew applied. subst applied. unfold applyDefaultValues.
  rewrite Hnew.
  destruct (lowercase (parseDefaultValues this)) as [|kv lookupTail] eqn:Hlookup.
  - intros sid section cid column fieldId field _ _ _ _ v Hv. discriminate.
  - set (lookupValues := kv :: lookupTail) in *.
    destruct (obj_forEach _ parsedSections (recordData, false))
      as [sections [recordData' updatedFields]] eqn:Hrun.
    simpl applied_sections. simpl applied_recordData.
    intros sid section cid column fieldId field Hsec Hcol Hfield.
    eapply (obj_forEach_holds _ (mirrorGrows lookupValues)
              (sectionDefaulted lookupValues)) in Hrun
      as [_ Hsections].
    + exact (Hsections sid section Hsec cid column Hcol fieldId field Hfield).
    + apply mirrorGrows_refl.
    + apply mirrorGrows_trans.
    + intros k s0 s1 s2 Hs Hg cid0 column0 Hc fid0 field0 Hf.
      eapply defaulted_grows; [eapply Hs; eassumption | exact Hg].
    + clear. intros k section0 s0 section1 s1.
      destruct (obj_forEach _ (columns section0) s0) as [cols s2] eqn:Hcols.
      intros [= <- <-].
      eapply (obj_forEach_holds _ (mirrorGrows lookupValues)
                (columnDefaulted lookupValues)) in Hcols as [Hg Hcolumns].
      * split; [exact Hg | exact Hcolumns].
      * apply mirrorGrows_refl.
      * apply mirrorGrows_trans.
      * intros k0 c0 s3 s4 Hc Hg fid0 field0 Hf.
        eapply defaulted_grows; [eapply Hc; eassumption | exact Hg].
      * clear. intros k column0 s0 column1 s1.
        destruct (obj_forEach _ (fields column0) s0) as [fs s2] eqn:Hfs.
        intros [= <- <-].
        eapply (obj_forEach_holds _ (mirrorGrows lookupValues)
                  (defaulted lookupValues)) in Hfs as [Hg Hfields].
        -- split; [exact Hg | exact Hfields].
        -- apply mirrorGrows_refl.
        -- apply mirrorGrows_trans.
        -- apply defaulted_grows.
        -- apply applyDefaultToField_new.
Qed.

(** [applyDefaultValues] sets values only: the field ids stay. *)
Lemma applyDefaultValues_ids this recordData parsedSections :
  allFieldIds (applied_sections (applyDefaultValues this recordData parsedSections))
  = allFieldIds parsedSections.
Proof.
  unfold applyDefaultValues.
  destruct (lowercase (parseDefaultValues this)) as [|kv lookupTail];
    [reflexivity |].
  set (lookupValues := kv :: lookupTail).
  destruct (obj_forEach _ parsedSections (recordData, false))
    as [sections [recordData' updatedFields]] eqn:Hrun.
  simpl applied_sections.
  replace sections with (sections, (recordData', updatedFields)).1 by reflexivity.
  rewrite <- Hrun. unfold allFieldIds. f_equal.
  apply (obj_forEach_map _ (fun s => columnFieldIds (columns s))).
  clear. intros k section s.
  destruct (obj_forEach _ (columns section) s) as [cols s1] eqn:Hcols.
  simpl. replace cols with (cols, s1).1 by reflexivity. rewrite <- Hcols.
  unfold columnFieldIds. f_equal.
  apply (obj_forEach_map _ (fun c => obj_keys (fields c))).
  clear. intros k column s.
  destruct (obj_forEach _ (fields column) s) as [fs s1] eqn:Hfs.
  simpl. replace fs with (fs, s1).1 by reflexivity. rewrite <- Hfs.
  apply obj_forEach_keys.
Qed.

Lemma obj_delete_In {V : Type} (o : Obj V) key kv :
  In kv (obj_delete o key) -> In kv o.
Proof.
  induction o as [|[k0 v0] o IH]; simpl.
  - intros [].
  - destruct (String.eqb k0 key); simpl; intuition.
Qed.

Lemma removeExcludedFromColumn_In excluded column kv :
  In kv (fields (removeExcludedFromColumn excluded column)) -> In kv (fields column).
Proof.
  unfold removeExcludedFromColumn. simpl.
  generalize (fields column) at 2 3. generalize (obj_keys (fields column)).
  intros ks. induction ks as [|k0 ks IH]; intros fs; simpl.
  - auto.
  - intros H. apply IH in H.
    destruct (array_includes excluded (JsString.toLowerCase k0)).
    + eapply obj_delete_In, H.
    + exact H.
Qed.

(** Exclusion deletes slots of the copy and leaves the others as they are. *)
Lemma removeExcludedFields_slot this parsedSections fieldId field :
  slotIn (removeExcludedFields this parsedSections) fieldId field ->
  exists field0,
    field = jsonCopySlot field0 /\ slotIn parsedSections fieldId field0.
Proof.
  intros H. apply slotIn_jsonCopySections. revert H.
  unfold removeExcludedFields. generalize (jsonCopySections parsedSections).
  clear parsedSections. intros parsedSections.
  unfold deleteExcludedFields, obj_map.
  intros [sid [section [cid [column [Hsec [Hcol Hfield]]]]]].
  apply in_map_iff in Hsec as [[sid0 section0] [Heq Hsec0]].
  simpl in Heq. injection Heq as Hsid Hsection. subst sid section.
  simpl in Hcol. apply in_map_iff in Hcol as [[cid0 column0] [Heq Hcol0]].
  simpl in Heq. injection Heq as Hcid Hcolumn. subst cid column.
  apply removeExcludedFromColumn_In in Hfield.
  exists sid0, section0, cid0, column0. auto.
Qed.

Lemma obj_forEach_result_In {V : Type} (f : string -> V -> result V) :
  forall o o' k v',
    obj_forEach_result f o = Ok o' ->
    In (k, v') o' ->
    exists v, In (k, v) o /\ f k v = Ok v'.
Proof.
  induction o as [|[k0 v0] o IH]; intros o' k v'; simpl.
  - intros [= <-] [].
  - destruct (f k0 v0) as [v1|e] eqn:Hf; [| discriminate]. rewrite bind_Ok.
    destruct (obj_forEach_result f o) as [o''|e] eqn:Ho; [| discriminate].
    rewrite bind_Ok. intros [= <-] [[= <- <-] | Hin].
    + eauto.
    + destruct (IH _ _ _ eq_refl Hin) as [w [Hw Hfw]]. eauto.
Qed.

(** [calculateVisibility] changes the flag [isVisible] of a slot only. *)
Lemma calculateVisibility_slot recordData parsedSections parsedSections'
  fieldId field' :
  calculateVisibility recordData parsedSections = Ok parsedSections' ->
  slotIn parsedSections' fieldId field' ->
  exists field,
    slotIn parsedSections fieldId field
    /\ isBlankSpace field = isBlankSpace field'.
Proof.
  unfold calculateVisibility.
  intros Hrun [sid [section' [cid [column' [Hsec [Hcol Hfield]]]]]].
  destruct (obj_forEach_result_In _ _ _ _ _ Hrun Hsec) as [section [Hsec0 Hs]].
  cbv beta in Hs.
  destruct (obj_forEach_result _ (columns section)) as [cols|e] eqn:Hcols;
    [| discriminate].
  rewrite bind_Ok in Hs. injection Hs as <-. simpl in Hcol.
  destruct (obj_forEach_result_In _ _ _ _ _ Hcols Hcol) as [column [Hcol0 Hc]].
  cbv beta in Hc.
  destruct (obj_forEach_result _ (fields column)) as [fs|e] eqn:Hfs;
    [| discriminate].
  rewrite bind_Ok in Hc. injection Hc as <-. simpl in Hfield.
  destruct (obj_forEach_result_In _ _ _ _ _ Hfs Hfield) as [field [Hfield0 Hf]].
  cbv beta in Hf.
  exists field. split.
  - exists sid, section, cid, column. auto.
  - destruct (isBlankSpace field) eqn:Hblank.
    + injection Hf as <-. congruence.
    + destruct (visibilityRule field).
      * destruct (evaluateVisibilityRule _ _) as [outcome|e]; [| discriminate].
        rewrite bind_Ok in Hf. injection Hf as <-. simpl. congruence.
      * injection Hf as <-. congruence.
Qed.

Lemma visibleFields_In column kv :
  In kv (visibleFields column) -> In kv (fields column).
Proof.
  unfold visibleFields. intros Hin.
  eapply Permutation_in in Hin; [| symmetry; apply Array_sort_perm].
  apply filter_In in Hin as [Hin _]. exact Hin.
Qed.

(** An enhanced field of the view model is built from a slot of the tree. *)
Lemma processSections_enhanced recordData parsedSections ef :
  In ef (assembledFields (processSections recordData parsedSections)) ->
  exists fieldId field,
    slotIn parsedSections fieldId field
    /\ ef = enhanceField recordData (fieldId, field).
Proof.
  unfold assembledFields, processSections.
  rewrite in_concat. intros [efs [Hefs Hef]].
  apply in_map_iff in Hefs as [view [<- Hview]].
  apply filter_In in Hview as [Hview _].
  apply in_map_iff in Hview as [[sid section] [<- Hsec]].
  simpl in Hef. apply in_concat in Hef as [efs [Hefs Hef]].
  apply in_map_iff in Hefs as [cv [<- Hcv]].
  apply in_map_iff in Hcv as [cv0 [<- Hcv0]].
  apply filter_In in Hcv0 as [Hcv0 _].
  apply in_map_iff in Hcv0 as [[cid column] [<- Hcol]].
  simpl in Hef. apply in_map_iff in Hef as [[fieldId field] [<- Hfield]].
  apply visibleFields_In in Hfield.
  exists fieldId, field. split; [| reflexivity].
  exists sid, section, cid, column. auto.
Qed.

Lemma enhanceField_value recordData fieldId field :
  enhanced_isBlankSpace (enhanceField recordData (fieldId, field)) = false ->
  isBlankSpace field = false
  /\ enhanced_fieldId (enhanceField recordData (fieldId, field)) = fieldId
  /\ enhanced_value (enhanceField recordData (fieldId, field))
     = recordData_get recordData (JsString.toLowerCase fieldId).
Proof.
  unfold enhanceField. simpl. destruct (isBlankSpace field); simpl.
  - discriminate.
  - auto.
Qed.

Lemma obj_set_keys {V : Type} (o : Obj V) key v k :
  In k (obj_keys (obj_set o key v)) <-> k = key \/ In k (obj_keys o).
Proof.
  induction o as [|[k0 v0] o IH]; simpl.
  - intuition.
  - destruct (String.eqb_spec k0 key) as [-> | Hne]; simpl.
    + intuition.
    + rewrite IH. intuition.
Qed.

Lemma obj_set_NoDup {V : Type} (o : Obj V) key v :
  List.NoDup (obj_keys o) -> List.NoDup (obj_keys (obj_set o key v)).
Proof.
  induction o as [|[k0 v0] o IH]; simpl; intros Hnd.
  - constructor; [intros [] | constructor].
  - apply List.NoDup_cons_iff in Hnd as [Hk0 Hnd].
    destruct (String.eqb_spec k0 key) as [-> | Hne]; simpl.
    + apply List.NoDup_cons_iff. auto.
    + apply List.NoDup_cons_iff. split; [| apply IH, Hnd].
      intros Hin. apply obj_set_keys in Hin as [-> | Hin]; auto.
Qed.

Lemma addDefaultPair_NoDup acc pair :
  List.NoDup (obj_keys (lowercase acc)) ->
  List.NoDup (obj_keys (lowercase (addDefaultPair acc pair))).
Proof.
  intros Hnd. unfold addDefaultPair.
  destruct (String.eqb (JsString.trim pair) ""); [exact Hnd |].
  destruct (List.map JsString.trim (JsString.split ":" pair)) as [|fieldName parts];
    [exact Hnd |].
  destruct (String.eqb fieldName ""); [exact Hnd |].
  simpl. apply obj_set_NoDup, Hnd.
Qed.

(** The lower-cased default values have one entry per key. *)
Lemma parseDefaultValues_NoDup this :
  List.NoDup (obj_keys (lowercase (parseDefaultValues this))).
Proof.
  unfold parseDefaultValues.
  destruct (String.eqb (api_defaultValues this) ""); [constructor |].
  generalize (JsString.split
                (if JsString.includes ";" (api_defaultValues this) then ";" else ",")
                (api_defaultValues this)).
  assert (Hempty : List.NoDup (obj_keys (lowercase {| original := []; lowercase := [] |})))
    by constructor.
  revert Hempty. generalize {| original := []; lowercase := [] |}.
  intros acc Hacc pairs. revert acc Hacc.
  induction pairs as [|pair pairs IH]; intros acc Hacc; simpl.
  - exact Hacc.
  - apply IH, addDefaultPair_NoDup, Hacc.
Qed.

(** The copy of the default values that a new record starts with reads like
    the object it was copied from. *)
Lemma recordDataOfDefaults_lookup lookupValues key :
  List.NoDup (obj_keys lookupValues) ->
  recordDataOfDefaults lookupValues !! key = obj_get lookupValues key.
Proof.
  unfold recordDataOfDefaults.
  assert (Hgen : forall (m : RecordData),
             List.NoDup (obj_keys lookupValues) ->
             fold_left (fun m kv => <[kv.1 := kv.2]> m) lookupValues m !! key
             = match obj_get lookupValues key with
               | Some v => Some v
               | None => m !! key
               end).
  { induction lookupValues as [|[k v] l IH]; intros m Hnd; simpl.
    - reflexivity.
    - simpl in Hnd. apply List.NoDup_cons_iff in Hnd as [Hk Hnd].
      rewrite (IH _ Hnd).
      destruct (String.eqb_spec k key) as [-> | Hne].
      + destruct (obj_get l key) as [w|] eqn:Hw.
        * exfalso. apply Hk. clear -Hw.
          induction l as [|[k0 v0] l IH]; simpl in *; [discriminate |].
          destruct (String.eqb_spec k0 key); auto.
        * apply lookup_insert_eq.
      + destruct (obj_get l key); [reflexivity |].
        apply lookup_insert_ne, Hne. }
  intros Hnd. rewrite (Hgen ∅ Hnd).
  destruct (obj_get lookupValues key); [reflexivity | apply lookup_empty].
Qed.

(** In the view model assembled for a new record, a field that has a default
    value shows it, and the record data holds it. *)
Lemma assembled_default_value this config recordData view recordData' ef v :
  isNewRecord this = true ->
  (processFieldData this config recordData = Ok (view, recordData')
   \/ connectedCallbackNewRecord this config = Ok (view, recordData')) ->
  In ef (assembledFields view) ->
  enhanced_isBlankSpace ef = false ->
  obj_get (lowercase (parseDefaultValues this))
    (JsString.toLowerCase (enhanced_fieldId ef)) = Some v ->
  enhanced_value ef = v
  /\ recordData' !! JsString.toLowerCase (enhanced_fieldId ef) = Some v.
Proof.
  intros Hnew Hrun Hef Hblank Hv. destruct Hrun as [Hrun | Hrun].
  - unfold processFieldData in Hrun.
    destruct (parseFlexiPageJson config) as [parsed|e]; [| discriminate].
    rewrite bind_Ok in Hrun. cbv zeta in Hrun.
    destruct (calculateVisibility _ _) as [visible|e] eqn:Hvis; [| discriminate].
    rewrite bind_Ok in Hrun. injection Hrun as <- <-.
    apply processSections_enhanced in Hef as [fieldId [field [Hslot ->]]].
    apply enhanceField_value in Hblank as [Hblank [Hid Hvalue]].
    rewrite Hid in Hv |- *. rewrite Hvalue.
    destruct (calculateVisibility_slot _ _ _ _ _ Hvis Hslot)
      as [field0 [Hslot0 Hblank0]].
    apply removeExcludedFields_slot in Hslot0
      as [field1 [-> [sid [section [cid [column [Hsec [Hcol Hfield]]]]]]]].
    cbn [jsonCopySlot isBlankSpace] in Hblank0.
    destruct (applyDefaultValues_new this recordData parsed Hnew
                sid section cid column fieldId field1 Hsec Hcol Hfield
                ltac:(congruence) v Hv) as [_ Hrd].
    unfold recordData_get. rewrite Hrd. auto.
  - unfold connectedCallbackNewRecord in Hrun.
    destruct (parseFlexiPageJson config) as [parsed|e]; [| discriminate].
    rewrite bind_Ok in Hrun. injection Hrun as <- <-.
    apply processSections_enhanced in Hef as [fieldId [field [Hslot ->]]].
    apply enhanceField_value in Hblank as [Hblank [Hid Hvalue]].
    rewrite Hid in Hv |- *. rewrite Hvalue.
    unfold recordData_get.
    rewrite (recordDataOfDefaults_lookup _ _ (parseDefaultValues_NoDup this)), Hv.
    auto.
Qed.

(** ** Format evaluator: cache and fetch *)

Section FetchPath.

Context (Json : Type) (JSON_parse : string -> result Json).

Lemma evaluate_icon_reference developerName fieldId :
  developerName <> "" ->
  evaluateConditionalFormatRule Json JSON_parse (iconReference developerName)
    fieldId
  = GetCache developerName (fun cached =>
      match cached with
      | None =>
          Await developerName (fun response =>
            match response with
            | Ok iconRules =>
                SetCache developerName iconRules
                  (iconFormat Json JSON_parse
                     {| ruleset_type := Some "icon";
                        ruleset_value := Some developerName;
                        ruleset_rules := None |} developerName fieldId)
            | Throw _ => Return (Ok None)
            end)
      | Some _ =>
          iconFormat Json JSON_parse
            {| ruleset_type := Some "icon";
               ruleset_value := Some developerName;
               ruleset_rules := None |} developerName fieldId
      end).
Proof using Type.
  intros Hne.
  unfold iconReference, evaluateConditionalFormatRule, evaluateFormatObject.
  cbn [Js.truthy ruleset_type ruleset_value].
  destruct (String.eqb_spec developerName "") as [-> | _]; [congruence |].
  reflexivity.
Qed.

(** A cached rule set answers the evaluation; no fetch is issued. *)
Lemma cached_rule_set_is_reused st developerName fieldId ruleSet :
  developerName <> "" ->
  cache_get (iconFormatCache st) developerName = Some ruleSet ->
  run (evaluateConditionalFormatRule Json JSON_parse
         (iconReference developerName) fieldId) st
  = (Settled
       (Ok (IconStyle <$>
              evaluateIconRules (recordData st) (rules ruleSet) fieldId)),
     st).
Proof using Type.
  intros Hne Hcached. rewrite (evaluate_icon_reference _ _ Hne).
  cbn [run]. rewrite Hcached. unfold iconFormat. cbn [run]. rewrite Hcached.
  destruct (rules ruleSet); reflexivity.
Qed.

(** Without a cached rule set the evaluation issues a fetch and waits. *)
Lemma uncached_rule_set_is_fetched st developerName fieldId :
  developerName <> "" ->
  cache_get (iconFormatCache st) developerName = None ->
  exists k,
    run (evaluateConditionalFormatRule Json JSON_parse
           (iconReference developerName) fieldId) st
    = (Pending developerName k,
       withFetches st (fetchLog st ++ [developerName])).
Proof using Type.
  intros Hne Hcached. rewrite (evaluate_icon_reference _ _ Hne).
  cbn [run]. rewrite Hcached. cbn [run]. eauto.
Qed.

End FetchPath.

(** C9 (amended).  The fetch path keeps a cache but shares no request in
    flight.  (1) An evaluation that starts while a rule set is cached for its
    identifier issues no fetch and is answered at once.  (2) Two evaluations
    started one after the other while nothing is cached for their identifiers
    issue one fetch each, whether the identifiers are the same or differ, and
    both wait.  (3) A waiting evaluation continues with the response to its
    own request: a rule set is stored in the cache and its rules are
    evaluated, a rejection yields [null] and stores nothing. *)
Theorem fetch_per_uncached_evaluation (Json : Type)
  (JSON_parse : string -> result Json) :
  let evaluate := evaluateConditionalFormatRule Json JSON_parse in
  (forall st developerName fieldId ruleSet,
     developerName <> "" ->
     cache_get (iconFormatCache st) developerName = Some ruleSet ->
     run (evaluate (iconReference developerName) fieldId) st
     = (Settled
          (Ok (IconStyle <$>
                 evaluateIconRules (recordData st) (rules ruleSet) fieldId)),
        st))
  /\ (forall st name1 field1 name2 field2,
        name1 <> "" ->
        name2 <> "" ->
        cache_get (iconFormatCache st) name1 = None ->
        cache_get (iconFormatCache st) name2 = None ->
        exists k1 k2,
          startAll [evaluate (iconReference name1) field1;
                    evaluate (iconReference name2) field2] st
          = ([Pending name1 k1; Pending name2 k2],
             withFetches st (fetchLog st ++ [name1; name2])))
  /\ (forall st developerName fieldId k st1,
        developerName <> "" ->
        run (evaluate (iconReference developerName) fieldId) st
        = (Pending developerName k, st1) ->
        (forall st2 ruleSet iconRules,
           rules ruleSet = Some iconRules ->
           resume (Pending developerName k) (Ok (Some ruleSet)) st2
           = (Settled
                (Ok (IconStyle <$>
                       evaluateIconRules (recordData st2) (Some iconRules) fieldId)),
              withCache st2
                (<[developerName := Some ruleSet]> (iconFormatCache st2))))
        /\ (forall st2 e,
              resume (Pending developerName k) (Throw e) st2
              = (Settled (Ok None), st2))).
Proof.
  intros evaluate. split; [| split].
  - intros st developerName fieldId ruleSet.
    apply cached_rule_set_is_reused.
  - intros st name1 field1 name2 field2 Hne1 Hne2 Hc1 Hc2.
    destruct (uncached_rule_set_is_fetched Json JSON_parse st name1 field1 Hne1 Hc1)
      as [k1 Hrun1].
    destruct (uncached_rule_set_is_fetched Json JSON_parse
                (withFetches st (fetchLog st ++ [name1])) name2 field2 Hne2 Hc2)
      as [k2 Hrun2].
    exists k1, k2. subst evaluate. cbn [startAll].
    rewrite Hrun1, Hrun2. unfold withFetches. cbn [fetchLog recordData iconFormatCache].
    rewrite <- app_assoc. reflexivity.
  - intros st developerName fieldId k st1 Hne. subst evaluate.
    rewrite (evaluate_icon_reference Json JSON_parse _ _ Hne). cbn [run].
    destruct (cache_get (iconFormatCache st) developerName) as [cached|] eqn:Hcached.
    + unfold iconFormat. cbn [run]. rewrite Hcached.
      destruct (rules cached); cbn [run textFormat ruleset_rules]; discriminate.
    + cbn [run]. intros [= <- _]. split.
      * intros st2 ruleSet iconRules Hrules. cbn [resume run].
        unfold iconFormat. cbn [run recordData iconFormatCache].
        unfold cache_get at 1. rewrite lookup_insert_eq. cbn [mjoin option_join].
        rewrite Hrules. cbn [run recordData]. reflexivity.
      * intros st2 e. reflexivity.
Qed.

Lemma fetch_per_uncached_evaluation_witness :
  run (evaluateConditionalFormatRule unit parseNothing
         (iconReference "Score_Icons") "Score__c")
    (withCache (freshForm (VNum (Int 30))) (<["Score_Icons" := Some scoreIcons]> ∅))
  = (Settled
       (Ok (IconStyle <$>
              evaluateIconRules (scoreRecord (VNum (Int 30))) (rules scoreIcons)
                "Score__c")),
     withCache (freshForm (VNum (Int 30))) (<["Score_Icons" := Some scoreIcons]> ∅))
  /\ exists k1 k2,
       startAll
         [evaluateConditionalFormatRule unit parseNothing
            (iconReference "Score_Icons") "Score__c";
          evaluateConditionalFormatRule unit parseNothing
            (iconReference "Rating_Icons") "Rating__c"]
         (freshForm (VNum (Int 30)))
       = ([Pending "Score_Icons" k1; Pending "Rating_Icons" k2],
          withFetches (freshForm (VNum (Int 30))) ["Score_Icons"; "Rating_Icons"]).
Proof.
  split.
  - apply (proj1 (fetch_per_uncached_evaluation unit parseNothing)
             (withCache (freshForm (VNum (Int 30)))
                (<["Score_Icons" := Some scoreIcons]> ∅))
             "Score_Icons" "Score__c" scoreIcons).
    + discriminate.
    + reflexivity.
  - apply (proj1 (proj2 (fetch_per_uncached_evaluation unit parseNothing))
             (freshForm (VNum (Int 30))) "Score_Icons" "Score__c"
             "Rating_Icons" "Rating__c").
    + discriminate.
    + discriminate.
    + reflexivity.
    + reflexivity.
Defined.

(** C9 (counterexample).  The layout has two fields whose
    [conditionalFormatRuleset] names the same rule set, and the cache is
    empty.  [processSections] starts one evaluation per field; two fetches of
    that rule set are issued, not one, and each evaluation is later answered
    from the response to its own request. *)
Lemma concurrent_evaluations_fetch_twice :
  exists parsedSections k1 k2,
    parseFlexiPageJson (Some scoredPage) = Ok parsedSections
    /\ cache_get (iconFormatCache (freshForm (VNum (Int 30)))) "Score_Icons" = None
    /\ formatEvaluations unit parseNothing parsedSections
       = [evaluateConditionalFormatRule unit parseNothing
            (iconReference "Score_Icons") "Score__c";
          evaluateConditionalFormatRule unit parseNothing
            (iconReference "Score_Icons") "Rating__c"]
    /\ startAll (formatEvaluations unit parseNothing parsedSections)
         (freshForm (VNum (Int 30)))
       = ([Pending "Score_Icons" k1; Pending "Score_Icons" k2],
          withFetches (freshForm (VNum (Int 30))) ["Score_Icons"; "Score_Icons"])
    /\ (resume (Pending "Score_Icons" k1) (Ok (Some scoreIcons))
          (withFetches (freshForm (VNum (Int 30))) ["Score_Icons"; "Score_Icons"])).1
       = Settled (Ok (Some (IconStyle (iconFormatOf upTo50 arrowDown))))
    /\ (resume (Pending "Score_Icons" k2) (Throw (Error "fetch failed"))
          (withFetches (freshForm (VNum (Int 30))) ["Score_Icons"; "Score_Icons"])).1
       = Settled (Ok None).
Proof.
  eexists _, _, _. repeat split; reflexivity.
Qed.

(** * Further properties *)

(** ** The boolean expression evaluator on well-formed expressions *)

Lemma evaluateAndParts_well_formed andParts : forall andResult,
  forallb wellFormedOperand (List.map JsString.trim andParts) = true ->
  evaluateAndParts andResult andParts
  = Ok (andResult
        && forallb (fun v => String.eqb v "1") (List.map JsString.trim andParts)).
Proof.
  induction andParts as [|p rest IH]; intros andResult; simpl.
  - intros _. rewrite andb_true_r. reflexivity.
  - intros H. apply andb_true_iff in H as [Hp Hrest].
    unfold evaluateAndPart. unfold wellFormedOperand in Hp.
    destruct (String.eqb (JsString.trim p) "1").
    + rewrite bind_Ok, (IH _ Hrest). rewrite andb_true_r. reflexivity.
    + simpl in Hp. rewrite Hp, bind_Ok, (IH _ Hrest).
      rewrite andb_false_r. simpl. rewrite andb_false_r. reflexivity.
Qed.

Lemma evaluateOrParts_well_formed orParts :
  forallb (fun orPart => forallb wellFormedOperand (operandsOf orPart)) orParts
  = true ->
  evaluateOrParts orParts = Ok (existsb andOutcome orParts).
Proof.
  induction orParts as [|p rest IH]; cbn [evaluateOrParts forallb existsb].
  - reflexivity.
  - intros H. apply andb_true_iff in H as [Hp Hrest].
    unfold operandsOf in Hp.
    rewrite (evaluateAndParts_well_formed _ true Hp), bind_Ok.
    cbn [andb]. unfold andOutcome at 1. unfold operandsOf.
    destruct (forallb (fun v => String.eqb v "1") _);
      [reflexivity | apply IH, Hrest].
Qed.

(** X1.  On an expression all of whose operands are [1] or [0],
    [evaluateBooleanExpression] does not raise, and its result is the
    disjunction over the OR parts of the conjunction of their operands:
    [&&] binds tighter than [||]. *)
Theorem well_formed_expression_is_or_of_ands expression :
  wellFormedExpression expression = true ->
  evaluateBooleanExpression expression
  = Ok (existsb andOutcome (orPartsOf expression)).
Proof.
  intros H. unfold evaluateBooleanExpression.
  apply evaluateOrParts_well_formed. exact H.
Qed.

Lemma well_formed_expression_is_or_of_ands_witness :
  wellFormedExpression "false && true || true && 1" = true
  /\ evaluateBooleanExpression "false && true || true && 1" = Ok true.
Proof.
  split; [reflexivity |].
  exact (well_formed_expression_is_or_of_ands "false && true || true && 1" eq_refl).
Defined.

(** X2.  In a boolean filter [AND] binds tighter than [OR], whatever the
    order in which they are written, and the keywords are recognised in any
    letter case: with three criteria whose outcomes are booleans, the
    filter [1 OR 2 AND 3] yields [b1 || (b2 && b3)] and the filter
    [1 and 2 or 3] yields [(b1 && b2) || b3]. *)
Theorem filter_and_binds_tighter_than_or recordData c1 c2 c3 b1 b2 b3 :
  evaluateCriterion recordData c1 = Ok (VBool b1) ->
  evaluateCriterion recordData c2 = Ok (VBool b2) ->
  evaluateCriterion recordData c3 = Ok (VBool b3) ->
  evaluateVisibilityRule recordData
    (Some (filteredRule [c1; c2; c3] "1 OR 2 AND 3"))
  = Ok (VBool (b1 || (b2 && b3)))
  /\ evaluateVisibilityRule recordData
       (Some (filteredRule [c1; c2; c3] "1 and 2 or 3"))
     = Ok (VBool ((b1 && b2) || b3)).
Proof.
  intros H1 H2 H3. unfold evaluateVisibilityRule, filteredRule.
  cbn [criteria map_result]. rewrite H1, H2, H3. rewrite !bind_Ok.
  destruct b1, b2, b3; split; vm_compute; reflexivity.
Qed.

Lemma filter_and_binds_tighter_than_or_witness :
  evaluateVisibilityRule statusRecord
    (Some (filteredRule [statusIsNew; statusIsClosed; statusIsClosed] "1 OR 2 AND 3"))
  = Ok (VBool true)
  /\ evaluateVisibilityRule statusRecord
       (Some (filteredRule [statusIsNew; statusIsClosed; statusIsClosed] "1 and 2 or 3"))
     = Ok (VBool false).
Proof.
  exact (filter_and_binds_tighter_than_or statusRecord
           statusIsNew statusIsClosed statusIsClosed true false false
           eq_refl eq_refl eq_refl).
Defined.

(** ** Visibility flags *)

Lemma obj_forEach_result_Ok {V : Type} (f : string -> V -> result V) :
  forall o,
    (forall k v, In (k, v) o -> exists v', f k v = Ok v') ->
    exists o', obj_forEach_result f o = Ok o'.
Proof.
  induction o as [|[k v] o IH]; intros H; simpl.
  - eauto.
  - destruct (H k v (or_introl eq_refl)) as [v' ->]. rewrite bind_Ok.
    destruct IH as [o' ->]; [intros k0 v0 Hin; apply H; right; exact Hin |].
    rewrite bind_Ok. eauto.
Qed.

Lemma obj_forEach_result_Throw {V : Type} (f : string -> V -> result V) :
  forall o e,
    obj_forEach_result f o = Throw e ->
    exists k v, In (k, v) o /\ f k v = Throw e.
Proof.
  induction o as [|[k v] o IH]; intros e; simpl.
  - discriminate.
  - destruct (f k v) as [v'|e0] eqn:Hf.
    + rewrite bind_Ok.
      destruct (obj_forEach_result f o) as [o'|e1] eqn:Ho.
      * discriminate.
      * rewrite bind_Throw. intros [= <-].
        destruct (IH _ eq_refl) as [k0 [v0 [Hin Hf0]]]. eauto 6.
    + rewrite bind_Throw. intros [= <-]. eauto 6.
Qed.

(** X3.  [calculateVisibility] changes nothing but the flag [isVisible] of
    the slots that have a rule: the field ids stay as they are, a blank
    space and a slot without a rule are left untouched, and a slot with a
    rule gets the outcome of [evaluateVisibilityRule] as its flag. *)
Theorem calculateVisibility_sets_flags_only recordData parsedSections
  parsedSections' :
  calculateVisibility recordData parsedSections = Ok parsedSections' ->
  allFieldIds parsedSections' = allFieldIds parsedSections
  /\ forall fieldId field',
       slotIn parsedSections' fieldId field' ->
       exists field,
         slotIn parsedSections fieldId field
         /\ (isBlankSpace field = true \/ visibilityRule field = None ->
             field' = field)
         /\ forall rule,
              ruledBy field rule ->
              exists v,
                evaluateVisibilityRule recordData (Some rule) = Ok v
                /\ field' = withVisible field v.
Proof.
  intros Hrun. split; [eapply calculateVisibility_ids, Hrun |].
  unfold calculateVisibility in Hrun.
  intros fieldId field' [sid [section' [cid [column' [Hsec [Hcol Hfield]]]]]].
  destruct (obj_forEach_result_In _ _ _ _ _ Hrun Hsec) as [section [Hsec0 Hs]].
  cbv beta in Hs.
  destruct (obj_forEach_result _ (columns section)) as [cols|e] eqn:Hcols;
    [| discriminate].
  rewrite bind_Ok in Hs. injection Hs as <-. simpl in Hcol.
  destruct (obj_forEach_result_In _ _ _ _ _ Hcols Hcol) as [column [Hcol0 Hc]].
  cbv beta in Hc.
  destruct (obj_forEach_result _ (fields column)) as [fs|e] eqn:Hfs;
    [| discriminate].
  rewrite bind_Ok in Hc. injection Hc as <-. simpl in Hfield.
  destruct (obj_forEach_result_In _ _ _ _ _ Hfs Hfield) as [field [Hfield0 Hf]].
  cbv beta in Hf.
  exists field. split; [exists sid, section, cid, column; auto |].
  unfold ruledBy. destruct (isBlankSpace field) eqn:Hblank.
  - injection Hf as <-. split; [reflexivity | intros rule [? _]; discriminate].
  - destruct (visibilityRule field) as [rule|] eqn:Hrule.
    + destruct (evaluateVisibilityRule _ _) as [outcome|e] eqn:Hv; [| discriminate].
      rewrite bind_Ok in Hf. injection Hf as <-. split.
      * intros [? | ?]; discriminate.
      * intros rule' [_ [= <-]]. eauto.
    + injection Hf as <-. split; [reflexivity | intros rule [_ ?]; discriminate].
Qed.

Lemma calculateVisibility_sets_flags_only_witness :
  exists parsedSections parsedSections',
    parseFlexiPageJson (Some sectionPage) = Ok parsedSections
    /\ calculateVisibility statusRecord parsedSections = Ok parsedSections'
    /\ allFieldIds parsedSections' = allFieldIds parsedSections.
Proof.
  eexists _, _. split; [reflexivity |]. split; [reflexivity |].
  refine (proj1 (calculateVisibility_sets_flags_only statusRecord _ _ _)).
  reflexivity.
Defined.

Lemma obj_forEach_result_Ok_inv {V : Type} (f : string -> V -> result V) :
  forall o o' k v,
    obj_forEach_result f o = Ok o' ->
    In (k, v) o ->
    exists v', f k v = Ok v'.
Proof.
  induction o as [|[k0 v0] o IH]; intros o' k v; simpl.
  - intros _ [].
  - destruct (f k0 v0) as [v1|e] eqn:Hf; [| discriminate]. rewrite bind_Ok.
    destruct (obj_forEach_result f o) as [o''|e] eqn:Ho; [| discriminate].
    intros _ [[= <- <-] | Hin]; [eauto |]. eapply IH; [reflexivity | exact Hin].
Qed.

(** X4.  [calculateVisibility] does not catch what a rule raises: it raises
    exactly when the rule of some slot that is not a blank space raises, and
    the exception it raises is one raised by such a rule. *)
Theorem calculateVisibility_raises_with_a_rule recordData parsedSections :
  ((exists e, calculateVisibility recordData parsedSections = Throw e)
   <-> exists fieldId field rule e,
         slotIn parsedSections fieldId field
         /\ ruledBy field rule
         /\ evaluateVisibilityRule recordData (Some rule) = Throw e)
  /\ forall e,
       calculateVisibility recordData parsedSections = Throw e ->
       exists fieldId field rule,
         slotIn parsedSections fieldId field
         /\ ruledBy field rule
         /\ evaluateVisibilityRule recordData (Some rule) = Throw e.
Proof.
  assert (Hthrow : forall e,
             calculateVisibility recordData parsedSections = Throw e ->
             exists fieldId field rule,
               slotIn parsedSections fieldId field
               /\ ruledBy field rule
               /\ evaluateVisibilityRule recordData (Some rule) = Throw e).
  { unfold calculateVisibility. intros e Hrun.
    apply obj_forEach_result_Throw in Hrun as [sid [section [Hsec Hs]]].
    destruct (obj_forEach_result _ (columns section)) as [cols|e0] eqn:Hcols;
      [rewrite bind_Ok in Hs; discriminate |].
    rewrite bind_Throw in Hs. injection Hs as ->.
    apply obj_forEach_result_Throw in Hcols as [cid [column [Hcol Hc]]].
    destruct (obj_forEach_result _ (fields column)) as [fs|e0] eqn:Hfs;
      [rewrite bind_Ok in Hc; discriminate |].
    rewrite bind_Throw in Hc. injection Hc as ->.
    apply obj_forEach_result_Throw in Hfs as [fieldId [field [Hfield Hf]]].
    destruct (isBlankSpace field) eqn:Hblank; [discriminate |].
    destruct (visibilityRule field) as [rule|] eqn:Hrule; [| discriminate].
    destruct (evaluateVisibilityRule _ _) as [outcome|e0] eqn:Hv;
      [rewrite bind_Ok in Hf; discriminate |].
    rewrite bind_Throw in Hf. injection Hf as ->.
    exists fieldId, field, rule. split; [| split; [split; assumption | exact Hv]].
    exists sid, section, cid, column. auto. }
  split; [| exact Hthrow]. split.
  - intros [e He]. destruct (Hthrow e He) as [fieldId [field [rule H]]]. eauto 6.
  - intros [fieldId [field [rule [e [Hslot [[Hblank Hrule] Hv]]]]]].
    destruct (calculateVisibility recordData parsedSections) as [visible|e0] eqn:Hrun;
      [| eauto].
    exfalso. unfold calculateVisibility in Hrun.
    destruct Hslot as [sid [section [cid [column [Hsec [Hcol Hfield]]]]]].
    destruct (obj_forEach_result_Ok_inv _ _ _ _ _ Hrun Hsec) as [section' Hs].
    cbv beta in Hs.
    destruct (obj_forEach_result _ (columns section)) as [cols|e0] eqn:Hcols;
      [| discriminate].
    destruct (obj_forEach_result_Ok_inv _ _ _ _ _ Hcols Hcol) as [column' Hc].
    cbv beta in Hc.
    destruct (obj_forEach_result _ (fields column)) as [fs|e0] eqn:Hfs;
      [| discriminate].
    destruct (obj_forEach_result_Ok_inv _ _ _ _ _ Hfs Hfield) as [field' Hf].
    cbv beta in Hf. rewrite Hblank, Hrule, Hv in Hf. discriminate.
Qed.

Lemma calculateVisibility_raises_with_a_rule_witness :
  exists fieldId field rule,
    slotIn raisingTree fieldId field
    /\ ruledBy field rule
    /\ evaluateVisibilityRule statusRecord (Some rule)
       = Throw (TypeError "leftValue.includes is not a function").
Proof.
  exact (proj2 (calculateVisibility_raises_with_a_rule statusRecord raisingTree)
           _ eq_refl).
Defined.

(** ** Exclusion and field collection *)

Lemma obj_delete_filter {V : Type} (o : Obj V) key :
  obj_delete o key = List.filter (fun kv => negb (String.eqb kv.1 key)) o.
Proof.
  induction o as [|[k0 v0] o IH]; simpl.
  - reflexivity.
  - destruct (String.eqb k0 key); simpl; congruence.
Qed.

Lemma filter_filter_andb {A : Type} (p q : A -> bool) l :
  List.filter p (List.filter q l) = List.filter (fun x => q x && p x) l.
Proof.
  induction l as [|x l IH]; simpl.
  - reflexivity.
  - destruct (q x); simpl; [destruct (p x) |]; congruence.
Qed.

Lemma removeExcluded_fold_filter excluded ks : forall (fs : Obj FieldSlot),
  fold_left
    (fun fs fieldId =>
       if array_includes excluded (JsString.toLowerCase fieldId)
       then obj_delete fs fieldId
       else fs)
    ks fs
  = List.filter
      (fun kv =>
         negb (array_includes ks kv.1
               && array_includes excluded (JsString.toLowerCase kv.1)))
      fs.
Proof.
  induction ks as [|k0 ks IH]; intros fs; cbn [fold_left].
  - symmetry. apply forallb_filter_id. apply forallb_forall. reflexivity.
  - rewrite IH.
    assert (Hincl : forall k,
               array_includes (k0 :: ks) k = String.eqb k k0 || array_includes ks k)
      by reflexivity.
    destruct (array_includes excluded (JsString.toLowerCase k0)) eqn:Hk0.
    + rewrite obj_delete_filter, filter_filter_andb.
      apply filter_ext. intros [k v]. cbn [fst]. rewrite Hincl.
      destruct (String.eqb_spec k k0) as [-> | Hne].
      * rewrite Hk0. reflexivity.
      * reflexivity.
    + apply filter_ext. intros [k v]. cbn [fst]. rewrite Hincl.
      destruct (String.eqb_spec k k0) as [-> | Hne]; [| reflexivity].
      rewrite Hk0. cbn [orb]. rewrite andb_false_r. reflexivity.
Qed.

(** The loop of [removeExcludedFields] over a column keeps the entries that
    are not excluded, in their order. *)
Lemma removeExcludedFromColumn_filter excluded column :
  fields (removeExcludedFromColumn excluded column)
  = List.filter
      (fun kv => negb (array_includes excluded (JsString.toLowerCase kv.1)))
      (fields column).
Proof.
  unfold removeExcludedFromColumn. simpl. rewrite removeExcluded_fold_filter.
  apply filter_ext_in. intros [k v] Hin. simpl.
  replace (array_includes (obj_keys (fields column)) k) with true; [reflexivity |].
  symmetry. apply array_includes_In. unfold obj_keys.
  apply in_map_iff. exists (k, v). auto.
Qed.

Lemma slotIn_deleteExcludedFields this parsedSections fieldId field :
  slotIn (deleteExcludedFields this parsedSections) fieldId field
  <-> slotIn parsedSections fieldId field /\ notExcluded this fieldId = true.
Proof.
  unfold deleteExcludedFields, obj_map, notExcluded. split.
  - intros [sid [section [cid [column [Hsec [Hcol Hfield]]]]]].
    apply in_map_iff in Hsec as [[sid0 section0] [Heq Hsec0]].
    simpl in Heq. injection Heq as Hsid Hsection. subst sid section.
    simpl in Hcol. apply in_map_iff in Hcol as [[cid0 column0] [Heq Hcol0]].
    simpl in Heq. injection Heq as Hcid Hcolumn. subst cid column.
    rewrite removeExcludedFromColumn_filter in Hfield.
    apply filter_In in Hfield as [Hfield Hex]. split; [| exact Hex].
    exists sid0, section0, cid0, column0. auto.
  - intros [[sid [section [cid [column [Hsec [Hcol Hfield]]]]]] Hex].
    exists sid,
      {| label := label section;
         columns :=
           List.map
             (fun kv => (kv.1, removeExcludedFromColumn (allExcludedFields this) kv.2))
             (columns section) |},
      cid, (removeExcludedFromColumn (allExcludedFields this) column).
    split; [| split].
    + apply in_map_iff. exists (sid, section). split; [reflexivity | exact Hsec].
    + cbn [columns]. apply in_map_iff. exists (cid, column).
      split; [reflexivity | exact Hcol].
    + rewrite removeExcludedFromColumn_filter. apply filter_In. auto.
Qed.

Lemma slotIn_removeExcludedFields this parsedSections fieldId field :
  slotIn (removeExcludedFields this parsedSections) fieldId field
  <-> (exists field0,
         field = jsonCopySlot field0 /\ slotIn parsedSections fieldId field0)
      /\ notExcluded this fieldId = true.
Proof.
  unfold removeExcludedFields.
  rewrite slotIn_deleteExcludedFields, slotIn_jsonCopySections. reflexivity.
Qed.

Lemma concat_map_filter {A B : Type} (p : B -> bool) (g : A -> list B) l :
  List.filter p (List.concat (List.map g l))
  = List.concat (List.map (fun x => List.filter p (g x)) l).
Proof.
  induction l as [|x l IH]; simpl.
  - reflexivity.
  - rewrite List.filter_app, IH. reflexivity.
Qed.

Lemma filter_map_fst {V : Type} (p : string -> bool) (o : Obj V) :
  List.filter p (List.map fst o) = List.map fst (List.filter (fun kv => p kv.1) o).
Proof.
  induction o as [|[k v] o IH]; simpl.
  - reflexivity.
  - destruct (p k); simpl; congruence.
Qed.

(** X5.  [removeExcludedFields] keeps exactly the slots whose lower-cased
    id is not in [allExcludedFields]: a slot of the result is the copy, made
    through JSON, of a slot of the input, the copy of every slot of the
    input that is not excluded is in the result, and the field ids come in
    the order they had.  The copy of a slot differs from the slot only in
    numbers that JSON cannot write: an infinity or [NaN] becomes [null] and
    -0 becomes 0. *)
Theorem removeExcludedFields_keeps_the_others this parsedSections :
  (forall fieldId field,
     slotIn (removeExcludedFields this parsedSections) fieldId field
     <-> (exists field0,
            field = jsonCopySlot field0 /\ slotIn parsedSections fieldId field0)
         /\ notExcluded this fieldId = true)
  /\ allFieldIds (removeExcludedFields this parsedSections)
     = List.filter (notExcluded this) (allFieldIds parsedSections)
  /\ (forall v,
        jsonCopy v = v
        \/ (exists n, v = VNum n /\ Js.isNaN v = true /\ jsonCopy v = VNull)
        \/ (exists negative,
              v = VNum (SpecFloat.S754_infinity negative) /\ jsonCopy v = VNull)
        \/ (v = VNum (SpecFloat.S754_zero true) /\ jsonCopy v = VNum (Int 0))).
Proof.
  split; [intros fieldId field; apply slotIn_removeExcludedFields |].
  split;
    [| intros [| | |[[|]|[|]| |]|]; cbn [jsonCopy]; eauto 10 ].
  rewrite <- (jsonCopySections_ids parsedSections).
  unfold removeExcludedFields. generalize (jsonCopySections parsedSections).
  clear parsedSections. intros parsedSections.
  unfold allFieldIds, deleteExcludedFields, obj_map, columnFieldIds.
  rewrite concat_map_filter, List.map_map. f_equal.
  apply map_ext. intros [sid section]. cbn [fst snd columns].
  rewrite concat_map_filter, List.map_map. f_equal.
  apply map_ext. intros [cid column]. cbn [fst snd].
  rewrite removeExcludedFromColumn_filter. unfold obj_keys.
  rewrite filter_map_fst. reflexivity.
Qed.

Lemma removeExcludedFields_keeps_the_others_witness :
  allFieldIds
    (removeExcludedFields (editForm "name" "")
       (parseSimpleLayout
          [flatRegion "main" ["Name"; "Id"; "OWNERID"; "Amount__c"; "Stage__c"]]))
  = ["Amount__c"; "Stage__c"].
Proof.
  rewrite (proj1 (proj2 (removeExcludedFields_keeps_the_others (editForm "name" "")
                    (parseSimpleLayout
                       [flatRegion "main"
                          ["Name"; "Id"; "OWNERID"; "Amount__c"; "Stage__c"]])))).
  reflexivity.
Defined.

Lemma obj_map_id {V : Type} (f : V -> V) (o : Obj V) :
  (forall v, f v = v) -> obj_map f o = o.
Proof.
  intros Hf. unfold obj_map. induction o as [|[k v] o IH]; simpl.
  - reflexivity.
  - rewrite Hf, IH. reflexivity.
Qed.

(** X6.  In read-only mode the system fields are not added to the
    exclusions: without [excludedFields] the component excludes nothing and
    [removeExcludedFields] returns the deep copy of the tree, with every
    field of the tree, system fields included. *)
Theorem read_only_mode_keeps_every_field this parsedSections :
  api_isReadOnly this = true ->
  api_excludedFields this = "" ->
  allExcludedFields this = []
  /\ removeExcludedFields this parsedSections = jsonCopySections parsedSections
  /\ allFieldIds (removeExcludedFields this parsedSections)
     = allFieldIds parsedSections.
Proof.
  intros Hro Hex.
  assert (Hnone : allExcludedFields this = []).
  { unfold allExcludedFields. rewrite Hro, Hex. reflexivity. }
  split; [exact Hnone |].
  assert (Hcopy : removeExcludedFields this parsedSections
                  = jsonCopySections parsedSections);
    [| split; [exact Hcopy | rewrite Hcopy; apply jsonCopySections_ids]].
  unfold removeExcludedFields. generalize (jsonCopySections parsedSections).
  clear parsedSections. intros parsedSections.
  unfold deleteExcludedFields. rewrite Hnone.
  apply obj_map_id. intros [l cols]. simpl. f_equal.
  apply obj_map_id. intros [sd fs]. unfold removeExcludedFromColumn. simpl.
  f_equal.
  generalize fs at 2 3. generalize (obj_keys fs).
  intros ks. induction ks as [|k ks IH]; intros fs0; simpl; [reflexivity | apply IH].
Qed.

Lemma read_only_mode_keeps_every_field_witness :
  exists parsedSections,
    parseFlexiPageJson (Some systemPage) = Ok parsedSections
    /\ removeExcludedFields
         {| api_recordId := None; api_excludedFields := ""; api_defaultValues := "";
            api_isReadOnly := true; api_flowContext := false |}
         parsedSections
       = parsedSections.
Proof.
  eexists. split; [reflexivity |].
  exact (proj1 (proj2 (read_only_mode_keeps_every_field
                         {| api_recordId := None; api_excludedFields := "";
                            api_defaultValues := ""; api_isReadOnly := true;
                            api_flowContext := false |}
                         _ eq_refl eq_refl))).
Defined.

Lemma Set_values_In seen xs x :
  In x (Set_values seen xs) <-> In x xs /\ ~ In x seen.
Proof.
  revert seen. induction xs as [|y xs IH]; intros seen; simpl.
  - tauto.
  - destruct (array_includes seen y) eqn:Hy.
    + apply array_includes_In in Hy. rewrite IH. split.
      * tauto.
      * intros [[-> | Hin] Hns]; [contradiction | tauto].
    + assert (Hny : ~ In y seen).
      { intros Hin. apply array_includes_In in Hin. congruence. }
      simpl. rewrite IH. simpl. split.
      * intros [<- | [Hin Hns]]; [tauto |]. split; [tauto |]. tauto.
      * intros [[<- | Hin] Hns]; [tauto |].
        destruct (String.eqb_spec y x) as [-> | Hne]; [tauto |]. right. tauto.
Qed.

Lemma Set_values_NoDup seen xs : List.NoDup (Set_values seen xs).
Proof.
  revert seen. induction xs as [|y xs IH]; intros seen; simpl.
  - constructor.
  - destruct (array_includes seen y); [apply IH |].
    constructor; [| apply IH].
    intros Hin. apply Set_values_In in Hin as [_ Hns]. apply Hns. left. reflexivity.
Qed.

Lemma collectFields_In this parsedSections fieldId :
  In fieldId (collectFields this parsedSections)
  <-> exists field,
        slotIn parsedSections fieldId field
        /\ isBlankSpace field = false
        /\ notExcluded this fieldId = true.
Proof.
  unfold collectFields, notExcluded. rewrite Set_values_In. split.
  - intros [Hin _]. apply in_concat in Hin as [ids [Hids Hin]].
    apply in_map_iff in Hids as [[sid section] [<- Hsec]].
    apply in_concat in Hin as [ids [Hids Hin]].
    apply in_map_iff in Hids as [[cid column] [<- Hcol]].
    apply in_map_iff in Hin as [[fid field] [Heq Hfield]].
    simpl in Heq. subst fid. apply filter_In in Hfield as [Hfield Hkeep].
    unfold isCollected in Hkeep. simpl in Hkeep.
    apply andb_true_iff in Hkeep as [Hex Hblank].
    exists field. split; [| split].
    + exists sid, section, cid, column. auto.
    + apply negb_true_iff, Hblank.
    + exact Hex.
  - intros [field [[sid [section [cid [column [Hsec [Hcol Hfield]]]]]] [Hblank Hex]]].
    split; [| intros []].
    apply in_concat. eexists. split.
    + apply in_map_iff. exists (sid, section). split; [reflexivity | exact Hsec].
    + apply in_concat. eexists. split.
      * apply in_map_iff. exists (cid, column). split; [reflexivity | exact Hcol].
      * apply in_map_iff. exists (fieldId, field). split; [reflexivity |].
        apply filter_In. split; [exact Hfield |].
        unfold isCollected. simpl. rewrite Hex, Hblank. reflexivity.
Qed.

(** X7.  [collectFields] lists every field id of the tree that is neither
    excluded nor a blank space, and nothing else, each id once. *)
Theorem collectFields_lists_each_field_once this parsedSections :
  List.NoDup (collectFields this parsedSections)
  /\ forall fieldId,
       In fieldId (collectFields this parsedSections)
       <-> exists field,
             slotIn parsedSections fieldId field
             /\ isBlankSpace field = false
             /\ notExcluded this fieldId = true.
Proof.
  split; [apply Set_values_NoDup | intros fieldId; apply collectFields_In].
Qed.

Lemma collectFields_lists_each_field_once_witness :
  collectFields (editForm "" "") raisingTree = ["Amount__c"]
  /\ List.NoDup (collectFields (editForm "" "") raisingTree).
Proof.
  split; [reflexivity |].
  exact (proj1 (collectFields_lists_each_field_once (editForm "" "") raisingTree)).
Defined.

(** X8.  The second filter of [fetchFieldValues] removes nothing: the
    fields requested from the server are the collected fields, each once,
    and none of them is excluded; in edit mode no system field is
    requested. *)
Theorem fetchFieldValues_requests_collected_fields this config fetched :
  fetchFieldValues this config = Ok fetched ->
  fieldApiNamesForWire fetched = form_fields fetched
  /\ List.NoDup (fieldApiNamesForWire fetched)
  /\ (forall fieldId,
        In fieldId (fieldApiNamesForWire fetched) ->
        notExcluded this fieldId = true)
  /\ (api_isReadOnly this = false ->
      forall fieldId,
        In fieldId (fieldApiNamesForWire fetched) -> ~ isSystemField fieldId).
Proof.
  unfold fetchFieldValues.
  destruct (parseFlexiPageJson config) as [parsedSections|e]; [| discriminate].
  rewrite bind_Ok. intros [= <-]. simpl.
  assert (Hid : List.filter
                  (fun field =>
                     negb (array_includes (allExcludedFields this)
                             (JsString.toLowerCase field)))
                  (collectFields this parsedSections)
                = collectFields this parsedSections).
  { apply forallb_filter_id. apply forallb_forall. intros fieldId Hin.
    apply collectFields_In in Hin as [field [_ [_ Hex]]]. exact Hex. }
  rewrite Hid.
  assert (Hex : forall fieldId,
             In fieldId (collectFields this parsedSections) ->
             notExcluded this fieldId = true).
  { intros fieldId Hin. apply collectFields_In in Hin as [field [_ [_ Hex]]].
    exact Hex. }
  split; [reflexivity |]. split; [apply Set_values_NoDup |].
  split; [exact Hex |].
  intros Hedit fieldId Hin Hsys. apply Hex in Hin.
  unfold notExcluded in Hin. apply negb_true_iff in Hin.
  pose proof (system_field_excluded this fieldId Hedit Hsys) as Hin'.
  apply array_includes_In in Hin'. congruence.
Qed.

Lemma fetchFieldValues_requests_collected_fields_witness :
  exists fetched,
    fetchFieldValues (editForm "name" "") (Some systemPage) = Ok fetched
    /\ fieldApiNamesForWire fetched = ["Amount__c"; "Stage__c"]
    /\ fieldApiNamesForWire fetched = form_fields fetched.
Proof.
  eexists. split; [reflexivity |]. split; [reflexivity |].
  refine (proj1 (fetchFieldValues_requests_collected_fields
                   (editForm "name" "") (Some systemPage) _ _)).
  reflexivity.
Defined.

(** ** Values from the wire *)

Lemma mapFieldValues_fold_sound data : forall (m : RecordData) key v,
  fold_left (fun mappedValues kv => <[JsString.toLowerCase kv.1 := kv.2]> mappedValues)
    data m !! key = Some v ->
  (exists k, In (k, v) data /\ JsString.toLowerCase k = key) \/ m !! key = Some v.
Proof.
  induction data as [|[k0 v0] data IH]; intros m key v; simpl.
  - auto.
  - intros H. apply IH in H as [[k [Hin Hk]] | H].
    + left. eauto.
    + destruct (decide (JsString.toLowerCase k0 = key)) as [Heq | Hne].
      * rewrite <- Heq, lookup_insert_eq in H. injection H as ->. left. eauto.
      * rewrite lookup_insert_ne in H by exact Hne. auto.
Qed.

Lemma mapFieldValues_fold_keep data : forall (m : RecordData) key v,
  m !! key = Some v ->
  (forall k' v', In (k', v') data -> JsString.toLowerCase k' = key -> v' = v) ->
  fold_left (fun mappedValues kv => <[JsString.toLowerCase kv.1 := kv.2]> mappedValues)
    data m !! key = Some v.
Proof.
  induction data as [|[k0 v0] data IH]; intros m key v Hm Hsame; simpl.
  - exact Hm.
  - apply IH.
    + destruct (decide (JsString.toLowerCase k0 = key)) as [Heq | Hne].
      * rewrite <- Heq, lookup_insert_eq. f_equal.
        apply (Hsame k0 v0); [left; reflexivity | exact Heq].
      * rewrite lookup_insert_ne by exact Hne. exact Hm.
    + intros k' v' Hin. apply Hsame. right. exact Hin.
Qed.

Lemma mapFieldValues_fold_complete data : forall (m : RecordData) k v,
  In (k, v) data ->
  (forall k' v',
     In (k', v') data -> JsString.toLowerCase k' = JsString.toLowerCase k -> v' = v) ->
  fold_left (fun mappedValues kv => <[JsString.toLowerCase kv.1 := kv.2]> mappedValues)
    data m !! JsString.toLowerCase k = Some v.
Proof.
  induction data as [|[k0 v0] data IH]; intros m k v Hin Hsame; simpl.
  - destruct Hin.
  - destruct Hin as [[= -> ->] | Hin].
    + apply mapFieldValues_fold_keep.
      * simpl. apply lookup_insert_eq.
      * intros k' v' Hin'. apply Hsame. right. exact Hin'.
    + apply IH; [exact Hin |]. intros k' v' Hin'. apply Hsame. right. exact Hin'.
Qed.

(** X9.  [mapFieldValues] makes the values from the server readable under
    lower-cased names: every value of the result is the value of a property
    whose name, in lower case, is the key; and a property is found under its
    lower-cased name with its own value, provided that the properties whose
    names differ from it by letter case only hold the same value. *)
Theorem mapFieldValues_reads_case_insensitively data :
  (forall key v,
     mapFieldValues data !! key = Some v ->
     exists k, In (k, v) data /\ JsString.toLowerCase k = key)
  /\ (forall k v,
        In (k, v) data ->
        (forall k' v',
           In (k', v') data ->
           JsString.toLowerCase k' = JsString.toLowerCase k -> v' = v) ->
        recordData_get (mapFieldValues data) (JsString.toLowerCase k) = v).
Proof.
  unfold mapFieldValues. split.
  - intros key v H. apply mapFieldValues_fold_sound in H as [H | H].
    + exact H.
    + rewrite lookup_empty in H. discriminate.
  - intros k v Hin Hsame. unfold recordData_get.
    rewrite (mapFieldValues_fold_complete data ∅ k v Hin Hsame). reflexivity.
Qed.

Lemma mapFieldValues_reads_case_insensitively_witness :
  recordData_get
    (mapFieldValues [("Name", VStr "Acme"); ("Amount__c", VNum (Int 3))])
    (JsString.toLowerCase "Amount__c")
  = VNum (Int 3).
Proof.
  apply (proj2 (mapFieldValues_reads_case_insensitively
                  [("Name", VStr "Acme"); ("Amount__c", VNum (Int 3))])
           "Amount__c" (VNum (Int 3))).
  - right. left. reflexivity.
  - intros k' v' [[= <- <-] | [[= <- <-] | []]] Hlower.
    + vm_compute in Hlower. discriminate.
    + reflexivity.
Defined.

(** ** Saving *)

Lemma addChangedField_fold this inputFields : forall changed k v,
  In (k, v) (fold_left (addChangedField this) inputFields changed) ->
  In (k, v) changed
  \/ exists field,
       In field inputFields
       /\ fieldName field = k
       /\ input_value field = v
       /\ isSubmitted this field.
Proof.
  induction inputFields as [|field inputFields IH]; intros changed k v; simpl.
  - auto.
  - intros H. apply IH in H as [H | [field' [Hin H]]].
    + unfold addChangedField in H.
      destruct (Js.strict_eq (input_value field) (defaultValue field)) eqn:Hchanged;
        [auto |].
      destruct (readOnly field) eqn:Hro; [auto |].
      destruct (array_includes (allExcludedFields this)
                  (JsString.toLowerCase (fieldName field))) eqn:Hex; [auto |].
      simpl in H. apply obj_set_In in H as [[= -> ->] | H]; [| auto].
      right. exists field. split; [left; reflexivity |].
      split; [reflexivity |]. split; [reflexivity |].
      unfold isSubmitted, notExcluded. rewrite Hchanged, Hro, Hex. auto.
    + right. exists field'. split; [right; exact Hin | exact H].
Qed.

Lemma obj_delete_all {V : Type} (ks : list string) : forall (o : Obj V) kv,
  In kv (fold_left (fun fs field => obj_delete fs field) ks o) ->
  In kv o /\ ~ In kv.1 ks.
Proof.
  induction ks as [|k0 ks IH]; intros o kv; simpl.
  - auto.
  - intros H. apply IH in H as [H Hks].
    split; [eapply obj_delete_In, H |].
    intros [-> | Hin]; [| contradiction].
    assert (Hk : In kv.1 (obj_keys (obj_delete o kv.1))).
    { unfold obj_keys. apply in_map, H. }
    apply obj_delete_keys in Hk as [_ Hne]. congruence.
Qed.

Lemma obj_get_set_eq {V : Type} (o : Obj V) key v :
  obj_get (obj_set o key v) key = Some v.
Proof.
  induction o as [|[k0 v0] o IH]; simpl.
  - rewrite String.eqb_refl. reflexivity.
  - destruct (String.eqb_spec k0 key) as [-> | Hne]; simpl.
    + rewrite String.eqb_refl. reflexivity.
    + destruct (String.eqb_spec k0 key); [contradiction | exact IH].
Qed.

(** X10.  The record input that [handleSave] builds: a field other than
    [Id] is sent only if it is the name of an input field whose value
    changed, that is not read-only and not excluded, and it is never one of
    the system fields; an update carries the record id as [Id], and a
    component without a record id creates a record. *)
Theorem handleSave_sends_changed_fields_only this objectApiName inputFields :
  (forall k v,
     In (k, v) (sentFields (handleSave this objectApiName inputFields)) ->
     (k = "Id"
      /\ exists recordId, api_recordId this = Some recordId /\ v = VStr recordId)
     \/ (~ In k readOnlyFields
         /\ exists field,
              In field inputFields
              /\ fieldName field = k
              /\ input_value field = v
              /\ isSubmitted this field))
  /\ (forall recordId,
        api_recordId this = Some recordId ->
        recordId <> "" ->
        exists fs,
          handleSave this objectApiName inputFields = UpdateRecordInput fs
          /\ obj_get fs "Id" = Some (VStr recordId))
  /\ (api_recordId this = None \/ api_recordId this = Some "" ->
      exists fs,
        handleSave this objectApiName inputFields = CreateRecordInput objectApiName fs).
Proof.
  unfold handleSave. cbv zeta.
  set (changed := fold_left (fun fs field => obj_delete fs field) readOnlyFields _).
  assert (Hchanged : forall k v,
             In (k, v) changed ->
             ~ In k readOnlyFields
             /\ exists field,
                  In field inputFields
                  /\ fieldName field = k
                  /\ input_value field = v
                  /\ isSubmitted this field).
  { subst changed. intros k v H. apply obj_delete_all in H as [H Hk].
    split; [exact Hk |].
    apply addChangedField_fold in H as [[] | H]. exact H. }
  clearbody changed. split; [| split].
  - intros k v.
    destruct (api_recordId this) as [recordId|];
      [| cbn [sentFields]; intros H; right; apply Hchanged, H].
    destruct (String.eqb_spec recordId "") as [-> | Hne];
      [cbn [sentFields]; intros H; right; apply Hchanged, H |].
    cbn [sentFields]. intros H. apply obj_set_In in H as [[= -> ->] | H].
    + left. split; [reflexivity |]. exists recordId. auto.
    + right. apply Hchanged, H.
  - intros recordId -> Hne.
    destruct (String.eqb_spec recordId "") as [-> | _]; [contradiction |].
    eexists. split; [reflexivity | apply obj_get_set_eq].
  - intros [-> | ->]; eexists; reflexivity.
Qed.

Lemma handleSave_sends_changed_fields_only_witness :
  handleSave viewForm "Account" editedInputs
  = UpdateRecordInput [("Name", VStr "Acme"); ("Id", VStr "001000000000001AAA")]
  /\ exists fs,
       handleSave viewForm "Account" editedInputs = UpdateRecordInput fs
       /\ obj_get fs "Id" = Some (VStr "001000000000001AAA").
Proof.
  split; [reflexivity |].
  apply (proj1 (proj2 (handleSave_sends_changed_fields_only
                         viewForm "Account" editedInputs))
           "001000000000001AAA" eq_refl).
  discriminate.
Defined.

(** ** Section state *)

(** X11.  [toggleSection] flips the sections of the given name, all of
    them, and leaves the others alone; the class of a flipped section is
    the class of its new state, so that toggling twice gives back the
    sections whose class agreed with their state. *)
Theorem toggleSection_flips_named_sections name sections :
  List.map sectionName (toggleSection name sections) = List.map sectionName sections
  /\ List.map section_view (toggleSection name sections)
     = List.map section_view sections
  /\ List.map isOpen (toggleSection name sections)
     = List.map
         (fun section =>
            if String.eqb (sectionName section) name
            then negb (isOpen section) else isOpen section)
         sections
  /\ (Forall classAgrees sections ->
      Forall classAgrees (toggleSection name sections)
      /\ toggleSection name (toggleSection name sections) = sections).
Proof.
  unfold toggleSection. rewrite !List.map_map. repeat split.
  - apply map_ext. intros s. destruct (String.eqb _ _); reflexivity.
  - apply map_ext. intros s. destruct (String.eqb _ _); reflexivity.
  - apply map_ext. intros s. destruct (String.eqb _ _); reflexivity.
  - apply List.Forall_forall. intros s' Hin.
    apply in_map_iff in Hin as [s [<- Hin]].
    destruct (String.eqb _ _); [reflexivity |].
    eapply List.Forall_forall in H; eassumption.
  - rewrite <- (List.map_id sections) at 2. apply map_ext_in. intros s Hin.
    eapply List.Forall_forall in H; [| exact Hin]. unfold classAgrees in H.
    destruct (String.eqb (sectionName s) name) eqn:Hname.
    + cbn [sectionName]. rewrite Hname. cbn [isOpen section_view].
      rewrite negb_involutive, <- H. destruct s; reflexivity.
    + rewrite Hname. reflexivity.
Qed.

Lemma toggleSection_flips_named_sections_witness :
  toggleSection "Details"
    (toggleSection "Details"
       [{| sectionName := "Details";
           section_view := {| sectionId := "Facet-sec1"; view_columns := [] |};
           isOpen := true;
           section_class := "slds-section slds-is-open" |}])
  = [{| sectionName := "Details";
        section_view := {| sectionId := "Facet-sec1"; view_columns := [] |};
        isOpen := true;
        section_class := "slds-section slds-is-open" |}].
Proof.
  refine (proj2 (proj2 (proj2 (proj2 (toggleSection_flips_named_sections _ _))) _)).
  constructor; [reflexivity | constructor].
Defined.

(** ** The assembled view model *)

Lemma length_eqb_zero {A : Type} (l : list A) :
  negb (Nat.eqb (List.length l) 0) = true <-> l <> [].
Proof. destruct l; simpl; split; congruence. Qed.

(** A section view is made from a section of the tree, and a column view
    from a column of that section. *)
Lemma processSections_section recordData parsedSections sv :
  In sv (processSections recordData parsedSections) ->
  view_columns sv <> []
  /\ exists section,
       In (sectionId sv, section) parsedSections
       /\ forall c,
            In c (view_columns sv) ->
            fieldIds c <> []
            /\ view_class c = widthClass sv
            /\ exists cid column,
                 In (cid, column) (columns section)
                 /\ c = withClass (widthClass sv) (processColumn recordData column).
Proof.
  unfold processSections. intros Hin.
  apply filter_In in Hin as [Hin Hne]. apply length_eqb_zero in Hne.
  split; [exact Hne |].
  apply in_map_iff in Hin as [[sid section] [<- Hsec]].
  exists section. split; [exact Hsec |].
  unfold widthClass. cbn [view_columns sectionId fst snd].
  rewrite List.length_map.
  intros c Hc. apply in_map_iff in Hc as [c0 [<- Hc0]].
  apply filter_In in Hc0 as [Hc0 Hids]. apply length_eqb_zero in Hids.
  apply in_map_iff in Hc0 as [[cid column] [<- Hcol]].
  split; [exact Hids |]. split; [reflexivity |].
  exists cid, column. auto.
Qed.

Lemma processSections_complete recordData parsedSections sid section cid column kv :
  In (sid, section) parsedSections ->
  In (cid, column) (columns section) ->
  In kv (visibleFields column) ->
  exists sv c,
    In sv (processSections recordData parsedSections)
    /\ In c (view_columns sv)
    /\ sectionId sv = sid
    /\ view_fields c = visibleFields column.
Proof.
  intros Hsec Hcol Hkv. unfold processSections.
  set (cls := fun section : Section_ =>
         if Nat.eqb
              (List.length
                 (List.filter
                    (fun column => negb (Nat.eqb (List.length (fieldIds column)) 0))
                    (List.map (fun c => processColumn recordData c.2)
                       (columns section)))) 1
         then "slds-col slds-size_1-of-1"
         else "slds-col slds-size_1-of-2 slds-p-horizontal_small").
  assert (Hc : In (withClass (cls section) (processColumn recordData column))
                 (List.map (withClass (cls section))
                    (List.filter
                       (fun column => negb (Nat.eqb (List.length (fieldIds column)) 0))
                       (List.map (fun c => processColumn recordData c.2)
                          (columns section))))).
  { apply in_map. apply filter_In. split.
    - apply in_map_iff. exists (cid, column). auto.
    - apply length_eqb_zero. unfold processColumn. cbn [fieldIds].
      unfold obj_keys. destruct (visibleFields column); [destruct Hkv | discriminate]. }
  eexists _, _. split; [| split; [| split]].
  - apply filter_In. split.
    + apply in_map_iff. exists (sid, section). split; [reflexivity | exact Hsec].
    + apply length_eqb_zero. cbn [view_columns snd]. intros Hnil.
      fold (cls section) in Hnil. rewrite Hnil in Hc. destruct Hc.
  - cbn [view_columns snd]. exact Hc.
  - reflexivity.
  - reflexivity.
Qed.

(** A visible slot is shown: its enhanced field is in the view model. *)
Lemma processSections_shows recordData parsedSections fieldId field :
  slotIn parsedSections fieldId field ->
  Js.truthy (isVisible field) = true ->
  In (enhanceField recordData (fieldId, field))
    (assembledFields (processSections recordData parsedSections)).
Proof.
  intros [sid [section [cid [column [Hsec [Hcol Hfield]]]]]] Hvis.
  assert (Hkv : In (fieldId, field) (visibleFields column)).
  { unfold visibleFields.
    eapply Permutation_in; [apply Array_sort_perm |].
    apply filter_In. auto. }
  unfold assembledFields, processSections.
  set (cls := fun section : Section_ =>
         if Nat.eqb
              (List.length
                 (List.filter
                    (fun column => negb (Nat.eqb (List.length (fieldIds column)) 0))
                    (List.map (fun c => processColumn recordData c.2)
                       (columns section)))) 1
         then "slds-col slds-size_1-of-1"
         else "slds-col slds-size_1-of-2 slds-p-horizontal_small").
  assert (Hc : In (withClass (cls section) (processColumn recordData column))
                 (List.map (withClass (cls section))
                    (List.filter
                       (fun column => negb (Nat.eqb (List.length (fieldIds column)) 0))
                       (List.map (fun c => processColumn recordData c.2)
                          (columns section))))).
  { apply in_map. apply filter_In. split.
    - apply in_map_iff. exists (cid, column). auto.
    - unfold processColumn. cbn [fieldIds]. unfold obj_keys.
      destruct (visibleFields column); [destruct Hkv | reflexivity]. }
  apply in_concat.
  exists (List.concat
            (List.map enhancedFields
               (List.map (withClass (cls section))
                  (List.filter
                     (fun column => negb (Nat.eqb (List.length (fieldIds column)) 0))
                     (List.map (fun c => processColumn recordData c.2)
                        (columns section)))))).
  split.
  - apply in_map_iff.
    exists {| sectionId := sid;
              view_columns :=
                List.map (withClass (cls section))
                  (List.filter
                     (fun column => negb (Nat.eqb (List.length (fieldIds column)) 0))
                     (List.map (fun c => processColumn recordData c.2)
                        (columns section))) |}.
    split; [reflexivity |].
    apply filter_In. split.
    + apply in_map_iff. exists (sid, section). split; [reflexivity | exact Hsec].
    + cbn [view_columns].
      destruct (List.map (withClass (cls section)) _); [destruct Hc | reflexivity].
  - apply in_concat.
    exists (enhancedFields (withClass (cls section) (processColumn recordData column))).
    split; [apply in_map, Hc |].
    unfold withClass, processColumn. cbn [enhancedFields].
    apply in_map, Hkv.
Qed.

Lemma enhanceField_id recordData kv :
  enhanced_fieldId (enhanceField recordData kv) = kv.1.
Proof. unfold enhanceField. destruct (isBlankSpace kv.2); reflexivity. Qed.

(** X12.  The view model has no empty part: every section view has a
    column, every column view has a field, the ids, the slots and the
    enhanced fields of a column view list the same fields in the same
    order, and the columns of a section are full width exactly when the
    section has one column left. *)
Theorem processSections_has_no_empty_part recordData parsedSections sv :
  In sv (processSections recordData parsedSections) ->
  view_columns sv <> []
  /\ forall c,
       In c (view_columns sv) ->
       fieldIds c <> []
       /\ fieldIds c = obj_keys (view_fields c)
       /\ List.map enhanced_fieldId (enhancedFields c) = fieldIds c
       /\ view_class c = widthClass sv.
Proof.
  intros Hin.
  destruct (processSections_section _ _ _ Hin) as [Hne [section [_ Hcols]]].
  split; [exact Hne |]. intros c Hc.
  destruct (Hcols c Hc) as [Hids [Hclass [cid [column [_ Heq]]]]].
  split; [exact Hids |]. split; [| split; [| exact Hclass]].
  - rewrite Heq. reflexivity.
  - rewrite Heq. unfold withClass, processColumn. cbn [enhancedFields fieldIds].
    rewrite List.map_map. unfold obj_keys. apply map_ext.
    intros kv. apply enhanceField_id.
Qed.

Lemma processSections_has_no_empty_part_witness :
  exists view recordData',
    processFieldData (editForm "" "") (Some sectionPage) statusRecord
    = Ok (view, recordData')
    /\ List.map (fun s => List.map view_class (view_columns s)) view
       = [["slds-col slds-size_1-of-2 slds-p-horizontal_small";
           "slds-col slds-size_1-of-2 slds-p-horizontal_small"]]
    /\ Forall (fun sv => view_columns sv <> []) view.
Proof.
  eexists _, _. split; [reflexivity |]. split; [reflexivity |].
  apply List.Forall_forall. intros sv Hin.
  exact (proj1 (processSections_has_no_empty_part _ _ sv Hin)).
Defined.

Lemma byOrder_le (a b : string * FieldSlot) :
  Z.of_nat (order a.2) - Z.of_nat (order b.2) <= 0 -> byOrder a b.
Proof. unfold byOrder. lia. Qed.

Lemma byOrder_gt (a b : string * FieldSlot) :
  0 < Z.of_nat (order a.2) - Z.of_nat (order b.2) -> byOrder b a.
Proof. unfold byOrder. lia. Qed.

Lemma byOrder_trans (a b c : string * FieldSlot) :
  byOrder a b -> byOrder b c -> byOrder a c.
Proof. unfold byOrder. lia. Qed.

Lemma visibleFields_spec column :
  StronglySorted byOrder (visibleFields column)
  /\ forall kv,
       In kv (visibleFields column)
       <-> In kv (fields column) /\ Js.truthy (isVisible kv.2) = true.
Proof.
  unfold visibleFields. split.
  - apply (Array_sort_sorted _ byOrder byOrder_le byOrder_gt byOrder_trans).
  - intros kv. split; intros Hin.
    + eapply Permutation_in in Hin; [| symmetry; apply Array_sort_perm].
      apply filter_In in Hin. exact Hin.
    + eapply Permutation_in; [apply Array_sort_perm |].
      apply filter_In. exact Hin.
Qed.

(** What a fulfilled promise of [processSections] holds, and what did not
    happen on the way. *)
Lemma awaitProcessSections_fulfilled (Json : Type)
  (JSON_parse : string -> result Json) (JSON_style : Json -> option StyleObject)
  (server : string -> result (option IconRuleSet)) parsedSections st view :
  (awaitProcessSections Json JSON_parse JSON_style server parsedSections st).1
  = Fulfilled view ->
  view = processSections (recordData st) parsedSections
  /\ forall sid section,
       In (sid, section) parsedSections ->
       sanitizeHeaderRaises (label section) = false.
Proof.
  unfold awaitProcessSections.
  destruct (startAll _ st) as [started st1].
  destruct (settleAll server started st1) as [settled st2].
  cbn [fst].
  destruct (existsb (fun r => raises (fieldFormatClasses Json JSON_style r)) settled);
    [discriminate |].
  destruct (existsb (fun kv => sanitizeHeaderRaises (label kv.2)) parsedSections)
    eqn:Hlabels; [discriminate |].
  cbn [orb]. intros [= <-]. split; [reflexivity |].
  intros sid section Hin.
  destruct (sanitizeHeaderRaises (label section)) eqn:Hraises; [| reflexivity].
  assert (Hex : existsb (fun kv => sanitizeHeaderRaises (label kv.2)) parsedSections
                = true)
    by (apply existsb_exists; exists (sid, section); auto).
  congruence.
Qed.

(** The sections that the callers get are the ones of the assembly
    without its awaits. *)
Lemma processFieldDataSettled_fulfilled (Json : Type)
  (JSON_parse : string -> result Json) (JSON_style : Json -> option StyleObject)
  (server : string -> result (option IconRuleSet)) this config recordData cache
  view recordData' :
  processFieldDataSettled Json JSON_parse JSON_style server this config recordData
    cache
  = Fulfilled (view, recordData') ->
  processFieldData this config recordData = Ok (view, recordData').
Proof.
  unfold processFieldDataSettled, processFieldData.
  destruct (parseFlexiPageJson config) as [parsedSections|e]; [| discriminate].
  rewrite bind_Ok. cbv zeta.
  destruct (calculateVisibility _ _) as [visible|e]; [| discriminate].
  rewrite bind_Ok.
  destruct (awaitProcessSections Json JSON_parse JSON_style server visible _).1
    as [sections|] eqn:Hawait; [| discriminate].
  apply awaitProcessSections_fulfilled in Hawait as [-> _].
  intros [= <- <-]. reflexivity.
Qed.

Lemma connectedCallbackSettled_shown (Json : Type)
  (JSON_parse : string -> result Json) (JSON_style : Json -> option StyleObject)
  (server : string -> result (option IconRuleSet)) this config view shownFields :
  (connectedCallbackSettled Json JSON_parse JSON_style server this config).2
  = FormShown view shownFields ->
  connectedCallbackNewRecord this config
  = Ok (view,
        (connectedCallbackSettled Json JSON_parse JSON_style server this config).1).
Proof.
  unfold connectedCallbackSettled, connectedCallbackNewRecord. cbn [fst snd].
  destruct (parseFlexiPageJson config) as [parsedSections|e]; [| discriminate].
  rewrite bind_Ok. cbv zeta.
  destruct (awaitProcessSections Json JSON_parse JSON_style server _ _).1
    as [sections|] eqn:Hawait; [| discriminate].
  apply awaitProcessSections_fulfilled in Hawait as [-> _].
  intros [= <- _]. reflexivity.
Qed.



(** A format rule that raises: the evaluation of the text rule of
    [Amount__c] tests [CONTAINS] on the number 60, the promise of
    [processSections] is rejected and no section is handed to the caller,
    although the field is visible. *)
Example rejected_assembly_example :
  (run (evaluateConditionalFormatRule bool parseFlag
          (Some (RulesetObject (textRuleset [textRule [amountContains] "true"])))
          "Amount__c") statusForm).1
  = Settled (Throw (TypeError "leftValue.includes is not a function"))
  /\ (awaitProcessSections bool parseFlag flagStyle scoreServer raisingFormatTree
        statusForm).1
     = Rejected
  /\ hasVisibleSlot raisingFormatTree.
Proof.
  split; [reflexivity | split; [reflexivity |]].
  unfold hasVisibleSlot, slotIn, raisingFormatTree.
  eexists _, _. split.
  - eexists _, _, _, _. split; [left; reflexivity |].
    cbn [columns]. split; [left; reflexivity |].
    cbn [fields]. left. reflexivity.
  - reflexivity.
Qed.

Lemma order_key (a b : string * FieldSlot) :
  0 < Z.of_nat (order a.2) - Z.of_nat (order b.2) -> order a.2 <> order b.2.
Proof. lia. Qed.

(** X28.  Slots of a column that share their [order] are shown in the
    order in which the layout lists them: among the entries of a given
    [order] the column view keeps the sequence of the visible entries of the
    column. *)
Theorem equal_order_keeps_layout_order recordData column n :
  filter (fun kv => order kv.2 = n) (view_fields (processColumn recordData column))
  = filter (fun kv => order kv.2 = n)
      (List.filter (fun kv => Js.truthy (isVisible kv.2)) (fields column)).
Proof.
  unfold processColumn, visibleFields. cbn [view_fields].
  apply (Array_sort_stable _ (fun kv : string * FieldSlot => order kv.2)).
  exact order_key.
Qed.

Lemma equal_order_keeps_layout_order_witness :
  List.map fst
    (filter (fun kv => order kv.2 = 0%nat)
       (view_fields
          (processColumn ∅
             {| side := "left";
                fields :=
                  fold_left addSimpleRegion
                    [flatRegion "R1" ["a"; "b"]; flatRegion "R2" ["c"]] [] |})))
  = ["a"; "c"].
Proof. rewrite equal_order_keeps_layout_order. reflexivity. Defined.

(** X14.  [isDataAvailable] on the view model that a fulfilled promise of
    [processSections] holds: data is available exactly when no error is
    stored and some slot of the tree is visible.  With an error stored, as
    the [catch] of [connectedCallback] does when the promise is rejected,
    data is not available whatever the sections are. *)
Theorem isDataAvailable_iff_a_slot_is_visible (Json : Type)
  (JSON_parse : string -> result Json) (JSON_style : Json -> option StyleObject)
  (server : string -> result (option IconRuleSet)) error parsedSections st :
  (forall view,
     (awaitProcessSections Json JSON_parse JSON_style server parsedSections st).1
     = Fulfilled view ->
     (isDataAvailable error view = true
      <-> error = None /\ hasVisibleSlot parsedSections))
  /\ (forall e sections, isDataAvailable (Some e) sections = false).
Proof.
  split; [| reflexivity].
  intros view Hview.
  apply awaitProcessSections_fulfilled in Hview as [-> _].
  unfold isDataAvailable, hasVisibleSlot.
  destruct error as [e|]; [split; [discriminate | intros [? _]; discriminate] |].
  destruct (processSections (recordData st) parsedSections) as [|sv view] eqn:Hview.
  - split; [discriminate |]. intros [_ [fieldId [field [Hslot Hvis]]]].
    destruct Hslot as [sid [section [cid [column [Hsec [Hcol Hfield]]]]]].
    assert (Hkv : In (fieldId, field) (visibleFields column)).
    { apply (proj2 (visibleFields_spec column)). auto. }
    destruct (processSections_complete (recordData st) _ _ _ _ _ _ Hsec Hcol Hkv)
      as [sv [_ [Hsv _]]].
    rewrite Hview in Hsv. destruct Hsv.
  - assert (Hsv : In sv (processSections (recordData st) parsedSections))
      by (rewrite Hview; left; reflexivity).
    destruct (processSections_section _ _ _ Hsv) as [Hne [section [Hsec Hcols]]].
    destruct (view_columns sv) as [|c cs] eqn:Hcs; [congruence |].
    destruct (Hcols c (or_introl eq_refl)) as [Hids [_ [cid [column [Hcol Heq]]]]].
    split.
    + intros _. split; [reflexivity |].
      assert (Hvisible : visibleFields column <> []).
      { rewrite Heq in Hids. unfold withClass, processColumn in Hids.
        cbn [fieldIds] in Hids. intros Hnil. rewrite Hnil in Hids.
        apply Hids. reflexivity. }
      destruct (visibleFields column) as [|[fieldId field] rest] eqn:Hvf;
        [congruence |].
      assert (Hkv : In (fieldId, field) (visibleFields column))
        by (rewrite Hvf; left; reflexivity).
      apply (proj2 (visibleFields_spec column)) in Hkv as [Hfield Hvis].
      exists fieldId, field. split; [| exact Hvis].
      exists (sectionId sv), section, cid, column. auto.
    + intros _.
      assert (Hlen : (0 <? List.length (enhancedFields c))%nat = true).
      { apply Nat.ltb_lt.
        rewrite Heq. unfold withClass, processColumn. cbn [enhancedFields].
        rewrite List.length_map.
        rewrite Heq in Hids. unfold withClass, processColumn in Hids.
        cbn [fieldIds] in Hids. unfold obj_keys in Hids.
        destruct (visibleFields column); [contradiction | simpl; lia]. }
      replace (0 <? List.length (sv :: view))%nat with true by reflexivity.
      cbn [andb existsb]. rewrite Hcs. cbn [existsb]. rewrite Hlen. reflexivity.
Qed.

Lemma isDataAvailable_iff_a_slot_is_visible_witness :
  exists view,
    parseFlexiPageJson (Some scoredPage) = Ok scoredTree
    /\ (awaitProcessSections bool parseFlag flagStyle scoreServer scoredTree
          (freshForm (VNum (Int 30)))).1
       = Fulfilled view
    /\ isDataAvailable None view = true.
Proof.
  exists (processSections (scoreRecord (VNum (Int 30))) scoredTree).
  split; [reflexivity |].
  assert (Hview : (awaitProcessSections bool parseFlag flagStyle scoreServer
                     scoredTree (freshForm (VNum (Int 30)))).1
                  = Fulfilled (processSections (scoreRecord (VNum (Int 30)))
                                 scoredTree)) by reflexivity.
  split; [exact Hview |].
  apply (proj2 (proj1 (isDataAvailable_iff_a_slot_is_visible
                         bool parseFlag flagStyle scoreServer None _ _) _ Hview)).
  split; [reflexivity |].
  unfold hasVisibleSlot, slotIn.
  eexists _, _. split.
  - eexists _, _, _, _. split; [left; reflexivity |].
    cbn [columns]. split; [left; reflexivity |].
    cbn [fields]. left. reflexivity.
  - reflexivity.
Defined.

(** ** Icon rules: the order of the rules in the rule set *)

Lemma sorted_permutation_unique {A : Type} (R : A -> A -> Prop) :
  forall l1 l2 : list A,
    (forall a b, In a l1 -> In b l1 -> R a b -> R b a -> a = b) ->
    StronglySorted R l1 ->
    StronglySorted R l2 ->
    Permutation l1 l2 ->
    l1 = l2.
Proof.
  induction l1 as [|a l1 IH]; intros l2 Hanti Hs1 Hs2 Hperm.
  - apply Permutation_nil in Hperm. congruence.
  - destruct l2 as [|b l2].
    + symmetry in Hperm. apply Permutation_nil in Hperm. discriminate.
    + apply StronglySorted_inv in Hs1 as [Hs1 Ha].
      apply StronglySorted_inv in Hs2 as [Hs2 Hb].
      assert (Hab : a = b).
      { assert (Hina : In a (b :: l2))
          by (eapply Permutation_in; [exact Hperm | left; reflexivity]).
        assert (Hinb : In b (a :: l1))
          by (eapply Permutation_in; [symmetry; exact Hperm | left; reflexivity]).
        destruct Hina as [-> | Hina]; [reflexivity |].
        destruct Hinb as [-> | Hinb]; [reflexivity |].
        apply Hanti.
        - left. reflexivity.
        - right. exact Hinb.
        - eapply List.Forall_forall in Ha; eassumption.
        - eapply List.Forall_forall in Hb; eassumption. }
      subst b. f_equal. apply IH.
      * intros x y Hx Hy. apply Hanti; right; assumption.
      * exact Hs1.
      * exact Hs2.
      * eapply Permutation_cons_inv, Hperm.
Qed.

Lemma NoDup_map_injective {A B : Type} (f : A -> B) (l : list A) a b :
  List.NoDup (List.map f l) -> In a l -> In b l -> f a = f b -> a = b.
Proof.
  induction l as [|x l IH]; simpl; intros Hnd Ha Hb Hf.
  - destruct Ha.
  - apply List.NoDup_cons_iff in Hnd as [Hx Hnd].
    destruct Ha as [-> | Ha], Hb as [-> | Hb].
    + reflexivity.
    + exfalso. apply Hx. rewrite Hf. apply in_map, Hb.
    + exfalso. apply Hx. rewrite <- Hf. apply in_map, Ha.
    + apply IH; assumption.
Qed.

Lemma ruleBefore_antisym a b :
  ruleBefore a b -> ruleBefore b a -> ruleKey a = ruleKey b.
Proof. unfold ruleBefore, ruleKey. intros H1 H2. f_equal; lia. Qed.

(** X15.  When no two rules of a rule set share their group and rank, the
    icon chosen for a field does not depend on the order in which the rule
    set lists its rules. *)
Theorem icon_rules_order_is_irrelevant recordData rules1 rules2 fieldId :
  Permutation rules1 rules2 ->
  List.NoDup (List.map ruleKey rules1) ->
  evaluateIconRules recordData (Some rules1) fieldId
  = evaluateIconRules recordData (Some rules2) fieldId.
Proof.
  intros Hperm Hnd.
  assert (Hsorted : Array_sort compareIconRules rules1
                    = Array_sort compareIconRules rules2).
  { apply (sorted_permutation_unique ruleBefore).
    - intros a b Ha Hb Hab Hba.
      apply (NoDup_map_injective ruleKey rules1); [exact Hnd | | |].
      + eapply Permutation_in; [symmetry; apply Array_sort_perm | exact Ha].
      + eapply Permutation_in; [symmetry; apply Array_sort_perm | exact Hb].
      + apply ruleBefore_antisym; assumption.
    - apply (Array_sort_sorted _ _ compareIconRules_le compareIconRules_gt
               ruleBefore_trans).
    - apply (Array_sort_sorted _ _ compareIconRules_le compareIconRules_gt
               ruleBefore_trans).
    - etransitivity; [symmetry; apply Array_sort_perm |].
      etransitivity; [exact Hperm | apply Array_sort_perm]. }
  unfold evaluateIconRules.
  destruct rules1 as [|r1 rules1], rules2 as [|r2 rules2].
  - reflexivity.
  - apply Permutation_nil in Hperm. discriminate.
  - symmetry in Hperm. apply Permutation_nil in Hperm. discriminate.
  - rewrite Hsorted. reflexivity.
Qed.

Lemma icon_rules_order_is_irrelevant_witness :
  evaluateIconRules (scoreRecord (VNum (Int 60))) (Some [above50; upTo50]) "Score__c"
  = evaluateIconRules (scoreRecord (VNum (Int 60))) (Some [upTo50; above50]) "Score__c".
Proof.
  apply icon_rules_order_is_irrelevant.
  - apply perm_swap.
  - unfold above50, upTo50, iconRule, ruleKey. simpl.
    constructor.
    + intros [H | []]. discriminate.
    + constructor; [intros [] | constructor].
Defined.

(** ** Text rule sets *)

Section TextRules.

Context (Json : Type) (JSON_parse : string -> result Json).


Lemma run_textFormat (o : FormatRuleset) st :
  run (textFormat Json JSON_parse o) st
  = (Settled
       match ruleset_rules o with
       | Some textRules => evaluateTextRules Json JSON_parse (recordData st) textRules
       | None => Ok None
       end,
     st).
Proof using Type. unfold textFormat. destruct (ruleset_rules o); reflexivity. Qed.



(** The icon path after the cache was looked up: it settles at once. *)
Lemma run_iconFormat (o : FormatRuleset) key fieldId st :
  exists r, run (iconFormat Json JSON_parse o key fieldId) st = (Settled r, st).
Proof using Type.
  unfold iconFormat. cbn [run].
  destruct (cache_get (iconFormatCache st) key) as [rs|].
  - destruct (rules rs); [cbn [run]; eauto |]. rewrite run_textFormat. eauto.
  - rewrite run_textFormat. eauto.
Qed.

Lemma run_evaluateFormatObject o fieldId st :
  (exists r,
     run (evaluateFormatObject Json JSON_parse o fieldId) st = (Settled r, st))
  \/ exists developerName,
       ruleset_value o = Some developerName
       /\ developerName <> ""
       /\ cache_get (iconFormatCache st) developerName = None
       /\ run (evaluateFormatObject Json JSON_parse o fieldId) st
          = (Pending developerName
               (fun response =>
                  match response with
                  | Ok iconRules =>
                      SetCache developerName iconRules
                        (iconFormat Json JSON_parse o developerName fieldId)
                  | Throw _ => Return (Ok None)
                  end),
             withFetches st (fetchLog st ++ [developerName])).
Proof using Type.
  unfold evaluateFormatObject.
  destruct (ruleset_type o) as [ty|]; [| left; rewrite run_textFormat; eauto].
  destruct (ruleset_value o) as [v|]; [| left; rewrite run_textFormat; eauto].
  destruct (String.eqb ty "icon"); cbn [andb];
    [| left; rewrite run_textFormat; eauto].
  destruct (String.eqb_spec v "") as [-> | Hne]; cbn [negb];
    [left; rewrite run_textFormat; eauto |].
  cbn [run].
  destruct (cache_get (iconFormatCache st) v) as [cached|] eqn:Hcached.
  - left. apply run_iconFormat.
  - right. exists v. cbn [run]. auto.
Qed.

End TextRules.

(** X17.  An evaluation of a conditional format issues at most one fetch,
    and only for an identifier for which nothing is cached; up to the fetch
    it changes neither the record data nor the cache.  Once the response is
    there it settles without a further fetch: a response is stored in the
    cache under the identifier, a rejection yields [null] and stores
    nothing, and the record data is never written. *)
Theorem format_evaluation_fetches_at_most_once (Json : Type)
  (JSON_parse : string -> result Json) ruleset fieldId st :
  let outcome := run (evaluateConditionalFormatRule Json JSON_parse ruleset fieldId) st in
  (exists r, outcome = (Settled r, st))
  \/ exists developerName k,
       outcome = (Pending developerName k,
                  withFetches st (fetchLog st ++ [developerName]))
       /\ developerName <> ""
       /\ cache_get (iconFormatCache st) developerName = None
       /\ (forall st2 e,
             resume (Pending developerName k) (Throw e) st2
             = (Settled (Ok None), st2))
       /\ forall st2 iconRules,
            exists r,
              resume (Pending developerName k) (Ok iconRules) st2
              = (Settled r,
                 withCache st2 (<[developerName := iconRules]> (iconFormatCache st2))).
Proof.
  intros outcome. subst outcome.
  assert (Hobject : forall o,
             (exists r,
                run (evaluateFormatObject Json JSON_parse o fieldId) st = (Settled r, st))
             \/ exists developerName k,
                  run (evaluateFormatObject Json JSON_parse o fieldId) st
                  = (Pending developerName k,
                     withFetches st (fetchLog st ++ [developerName]))
                  /\ developerName <> ""
                  /\ cache_get (iconFormatCache st) developerName = None
                  /\ (forall st2 e,
                        resume (Pending developerName k) (Throw e) st2
                        = (Settled (Ok None), st2))
                  /\ forall st2 iconRules,
                       exists r,
                         resume (Pending developerName k) (Ok iconRules) st2
                         = (Settled r,
                            withCache st2
                              (<[developerName := iconRules]> (iconFormatCache st2)))).
  { intros o.
    destruct (run_evaluateFormatObject Json JSON_parse o fieldId st)
      as [Hsettled | [developerName [Hv [Hne [Hcached Hrun]]]]];
      [left; exact Hsettled |].
    right. eexists developerName, _. split; [exact Hrun |].
    split; [exact Hne |]. split; [exact Hcached |]. split.
    - intros st2 e. reflexivity.
    - intros st2 iconRules. cbn [resume run].
      destruct (run_iconFormat Json JSON_parse o developerName fieldId
                  (withCache st2 (<[developerName := iconRules]> (iconFormatCache st2))))
        as [r Hr].
      exists r. exact Hr. }
  destruct ruleset as [[v | o]|]; cbn [evaluateConditionalFormatRule].
  - destruct (Js.truthy v); [| left; cbn [run]; eauto].
    destruct v; try (left; cbn [run]; eauto; fail).
    apply Hobject.
  - apply Hobject.
  - left. cbn [run]. eauto.
Qed.


Lemma format_evaluation_fetches_at_most_once_witness :
  exists k,
    run (evaluateConditionalFormatRule unit parseNothing
           (iconReference "Score_Icons") "Score__c")
      (freshForm (VNum (Int 30)))
    = (Pending "Score_Icons" k,
       withFetches (freshForm (VNum (Int 30))) ["Score_Icons"]).
Proof.
  destruct (format_evaluation_fetches_at_most_once unit parseNothing
              (iconReference "Score_Icons") "Score__c" (freshForm (VNum (Int 30))))
    as [[r Hsettled] | [developerName [k [Hrun _]]]].
  - discriminate Hsettled.
  - injection Hrun as <- _. eexists. reflexivity.
Defined.

(** ** The layout parser *)

Lemma addSimpleItems_plain items : forall index defaultFields,
  (forall fieldId slot, In (fieldId, slot) defaultFields -> plainSlot slot) ->
  forall fieldId slot,
    In (fieldId, slot) (addSimpleItems items index defaultFields) -> plainSlot slot.
Proof.
  induction items as [|item rest IH]; intros index defaultFields Hplain; simpl.
  - exact Hplain.
  - apply IH. destruct (fieldInstance item) as [fi|]; [| exact Hplain].
    intros fieldId slot Hin. apply obj_set_In in Hin as [[= -> ->] | Hin].
    + repeat split.
    + eapply Hplain, Hin.
Qed.

Lemma addSimpleItems_keys items : forall index defaultFields k,
  In k (obj_keys defaultFields)
  \/ (exists item fi,
        In item items /\ fieldInstance item = Some fi
        /\ k = JsString.replace "Record." "" (fieldItem fi)) ->
  In k (obj_keys (addSimpleItems items index defaultFields)).
Proof.
  induction items as [|item rest IH]; intros index defaultFields k; simpl.
  - intros [H | [item [fi [[] _]]]]. exact H.
  - intros [H | [item' [fi [[<- | Hin] [Hfi Hk]]]]]; apply IH.
    + left. destruct (fieldInstance item); [| exact H].
      apply obj_set_keys. right. exact H.
    + left. rewrite Hfi. apply obj_set_keys. left. exact Hk.
    + right. eauto.
Qed.

Lemma addSimpleRegion_fold_keys regions : forall defaultFields k,
  In k (obj_keys defaultFields)
  \/ (exists region items item fi,
        In region regions
        /\ region_type region = "Region"
        /\ itemInstances region = Some items
        /\ In item items
        /\ fieldInstance item = Some fi
        /\ k = JsString.replace "Record." "" (fieldItem fi)) ->
  In k (obj_keys (fold_left addSimpleRegion regions defaultFields)).
Proof.
  induction regions as [|region rest IH]; intros defaultFields k; simpl.
  - intros [H | [region [items [item [fi [[] _]]]]]]. exact H.
  - intros [H | [region' [items [item [fi [[<- | Hin] [Hty [Hitems [Hitem [Hfi Hk]]]]]]]]]];
      apply IH.
    + left. unfold addSimpleRegion.
      destruct (String.eqb (region_type region) "Region"); [| exact H].
      destruct (itemInstances region); [| exact H].
      apply addSimpleItems_keys. left. exact H.
    + left. unfold addSimpleRegion. rewrite Hty, Hitems.
      change (String.eqb "Region" "Region") with true. cbv iota.
      apply addSimpleItems_keys. right. eauto.
    + right. exists region', items, item, fi. auto 6.
Qed.

Lemma addSimpleRegion_fold_plain regions : forall defaultFields,
  (forall fieldId slot, In (fieldId, slot) defaultFields -> plainSlot slot) ->
  forall fieldId slot,
    In (fieldId, slot) (fold_left addSimpleRegion regions defaultFields) ->
    plainSlot slot.
Proof.
  induction regions as [|region rest IH]; intros defaultFields Hplain; simpl.
  - exact Hplain.
  - apply IH. unfold addSimpleRegion.
    destruct (String.eqb (region_type region) "Region"); [| exact Hplain].
    destruct (itemInstances region); [| exact Hplain].
    apply addSimpleItems_plain, Hplain.
Qed.

(** X18.  A document of the simple shape is parsed without an error into
    one section with one column.  The column has a slot for every field
    instance of every region of type [Region] that has items, and no other
    slot; a slot is visible, neither required nor read-only, has no rules
    and is no blank space, whatever the field instance declares; and its
    [order] is the position of the field instance within its own region. *)
Theorem simple_layout_slots doc regions :
  flexiPageRegions doc = Some regions ->
  hasSimpleLayout regions = true ->
  exists defaultFields,
    parseFlexiPageJson (Some doc)
    = Ok [("defaultSection",
           {| label := VStr "Information";
              columns :=
                [("defaultColumn",
                  {| side := "left"; fields := defaultFields |})] |})]
    /\ (forall fieldId slot,
          In (fieldId, slot) defaultFields ->
          placedIn regions fieldId slot /\ plainSlot slot)
    /\ (forall region items item fi,
          In region regions ->
          region_type region = "Region" ->
          itemInstances region = Some items ->
          In item items ->
          fieldInstance item = Some fi ->
          In (JsString.replace "Record." "" (fieldItem fi)) (obj_keys defaultFields)).
Proof.
  intros Hregions Hsimple.
  exists (fold_left addSimpleRegion regions []).
  split; [apply simple_layout_single_section; assumption |]. split.
  - intros fieldId slot Hin. split.
    + apply simple_layout_order_is_region_index, Hin.
    + eapply addSimpleRegion_fold_plain; [| exact Hin]. intros f s [].
  - intros region items item fi Hregion Hty Hitems Hitem Hfi.
    apply addSimpleRegion_fold_keys. right.
    exists region, items, item, fi. auto 6.
Qed.

Lemma simple_layout_slots_witness :
  exists defaultFields,
    parseFlexiPageJson (Some twoRegionPage)
    = Ok [("defaultSection",
           {| label := VStr "Information";
              columns :=
                [("defaultColumn",
                  {| side := "left"; fields := defaultFields |})] |})]
    /\ List.map (fun kv => (kv.1, order kv.2)) defaultFields
       = [("a", 0%nat); ("b", 1%nat); ("c", 0%nat)].
Proof.
  destruct (simple_layout_slots twoRegionPage
              [flatRegion "R1" ["a"; "b"]; flatRegion "R2" ["c"]]
              eq_refl eq_refl) as [defaultFields [Hparse _]].
  exists defaultFields. split; [exact Hparse |].
  vm_compute in Hparse. injection Hparse as <-. reflexivity.
Defined.

(** *** Complex layouts *)

Lemma forEach_result_invariant {A St : Type} (f : St -> A -> nat -> result St)
  (P : St -> Prop) (Q : A -> nat -> Prop) :
  (forall s x i s', Q x i -> P s -> f s x i = Ok s' -> P s') ->
  forall xs index s s',
    (forall j x, xs !! j = Some x -> Q x (index + j)%nat) ->
    P s ->
    forEach_result f xs index s = Ok s' ->
    P s'.
Proof.
  intros Hstep. induction xs as [|x xs IH]; intros index s s' HQ HP; simpl.
  - intros [= <-]. exact HP.
  - destruct (f s x index) as [s1|e] eqn:Hf; [| discriminate]. rewrite bind_Ok.
    apply IH.
    + intros j y Hj. replace (S index + j)%nat with (index + S j)%nat by lia.
      apply HQ. exact Hj.
    + eapply Hstep; [| exact HP | exact Hf].
      rewrite <- (Nat.add_0_r index). apply HQ. reflexivity.
Qed.

Lemma forEach_result_raises {A St : Type} (f : St -> A -> nat -> result St) x :
  (forall s i, exists e, f s x i = Throw e) ->
  forall xs index s,
    In x xs -> exists e, forEach_result f xs index s = Throw e.
Proof.
  intros Hx. induction xs as [|y xs IH]; intros index s; simpl.
  - intros [].
  - intros Hin. destruct (f s y index) as [s1|e] eqn:Hf.
    + rewrite bind_Ok. destruct Hin as [-> | Hin].
      * destruct (Hx s index) as [e He]. congruence.
      * apply IH, Hin.
    + rewrite bind_Throw. eauto.
Qed.

Lemma obj_get_In {V : Type} (o : Obj V) key v :
  obj_get o key = Some v -> In (key, v) o.
Proof.
  induction o as [|[k0 v0] o IH]; simpl.
  - discriminate.
  - destruct (String.eqb_spec k0 key) as [-> | Hne].
    + intros [= ->]. left. reflexivity.
    + intros H. right. apply IH, H.
Qed.

Lemma collectSection_invariant regions sections item index sections' :
  List.NoDup (obj_keys sections) /\ allPlaced regions sections ->
  collectSection sections item index = Ok sections' ->
  List.NoDup (obj_keys sections') /\ allPlaced regions sections'.
Proof.
  intros [Hnd Hplaced]. unfold collectSection.
  destruct (componentInstance item) as [ci|]; [| intros [= <-]; auto].
  destruct (String.eqb (componentName ci) "flexipage:fieldSection");
    [| intros [= <-]; auto].
  destruct (requiredPropertyValue _ "columns") as [columnsValue|e]; [| discriminate].
  rewrite bind_Ok.
  destruct (requiredPropertyValue _ "label") as [labelValue|e]; [| discriminate].
  rewrite bind_Ok. cbv zeta.
  destruct (obj_get sections (Js.ToString columnsValue)); intros [= <-]; [auto |].
  split; [apply obj_set_NoDup, Hnd |].
  intros sid section cid column fieldId slot Hsec.
  apply obj_set_In in Hsec as [[= -> ->] | Hsec].
  - intros [].
  - eapply Hplaced, Hsec.
Qed.

Lemma collectColumn_invariant regions region sections item index sections' :
  List.NoDup (obj_keys sections) /\ allPlaced regions sections ->
  collectColumn region sections item index = Ok sections' ->
  List.NoDup (obj_keys sections') /\ allPlaced regions sections'.
Proof.
  intros [Hnd Hplaced]. unfold collectColumn.
  destruct (componentInstance item) as [ci|]; [| intros [= <-]; auto].
  destruct (String.eqb (componentName ci) "flexipage:column");
    [| intros [= <-]; auto].
  destruct (requiredPropertyValue _ "body") as [bodyValue|e]; [| discriminate].
  rewrite bind_Ok. cbv zeta.
  destruct (identifier ci) as [ident|]; [| discriminate].
  rewrite bind_Ok.
  destruct (obj_get sections (region_name region)) as [section0|] eqn:Hget;
    intros [= <-]; [| auto].
  split; [apply obj_set_NoDup, Hnd |].
  intros sid section cid column fieldId slot Hsec.
  apply obj_set_In in Hsec as [[= -> ->] | Hsec].
  - cbn [columns]. intros Hcol.
    apply obj_set_In in Hcol as [[= -> ->] | Hcol].
    + intros [].
    + eapply Hplaced; [eapply obj_get_In, Hget | exact Hcol].
  - eapply Hplaced, Hsec.
Qed.

Lemma setField_invariant regions sections sid cid fid slot :
  placedInFacet regions cid fid slot ->
  List.NoDup (obj_keys sections) /\ allPlaced regions sections ->
  List.NoDup (obj_keys (setField sections sid cid fid slot))
  /\ allPlaced regions (setField sections sid cid fid slot).
Proof.
  intros Hslot [Hnd Hplaced]. unfold setField.
  destruct (obj_get sections sid) as [section0|] eqn:Hsec0; [| auto].
  destruct (obj_get (columns section0) cid) as [column0|] eqn:Hcol0; [| auto].
  apply obj_get_In in Hsec0. apply obj_get_In in Hcol0.
  split; [apply obj_set_NoDup, Hnd |].
  intros sid' section cid' column fieldId slot' Hsec.
  apply obj_set_In in Hsec as [[= -> ->] | Hsec].
  - cbn [columns]. intros Hcol.
    apply obj_set_In in Hcol as [[= -> ->] | Hcol].
    + cbn [fields]. intros Hfield.
      apply obj_set_In in Hfield as [[= -> ->] | Hfield].
      * exact Hslot.
      * eapply Hplaced; eassumption.
    + eapply Hplaced; eassumption.
  - eapply Hplaced, Hsec.
Qed.

Lemma placeItem_invariant regions region items sections item index sections' :
  In region regions ->
  region_type region = "Facet" ->
  itemInstances region = Some items ->
  items !! index = Some item ->
  List.NoDup (obj_keys sections) /\ allPlaced regions sections ->
  placeItem region sections item index = Ok sections' ->
  List.NoDup (obj_keys sections') /\ allPlaced regions sections'.
Proof.
  intros Hregion Hty Hitems Hitem Hinv. unfold placeItem. cbv zeta.
  destruct (owningSection sections (region_name region)) as [sid|];
    [| intros [= <-]; exact Hinv].
  destruct (String.eqb sid ""); [intros [= <-]; exact Hinv |].
  destruct (fieldInstance item) as [fi|] eqn:Hfi.
  - intros [= <-]. apply setField_invariant; [| exact Hinv].
    exists region, items, item. cbn [order complexFieldSlot].
    repeat split; try assumption.
    left. exists fi. auto.
  - destruct (componentInstance item) as [ci|] eqn:Hci; [| intros [= <-]; exact Hinv].
    destruct (String.eqb_spec (componentName ci) "flexipage:blankSpace")
      as [Hname | _]; [| intros [= <-]; exact Hinv].
    intros [= <-]. apply setField_invariant; [| exact Hinv].
    exists region, items, item. cbn [order blankSpaceSlot].
    repeat split; try assumption.
    right. split; [exact Hfi |]. exists ci. auto.
Qed.

Lemma lookup_In {A : Type} (l : list A) j x : l !! j = Some x -> In x l.
Proof.
  revert j. induction l as [|y l IH]; intros [|j]; simpl; try discriminate.
  - intros [= ->]. left. reflexivity.
  - intros H. right. eapply IH, H.
Qed.

(** The three passes keep the section ids distinct and every slot placed. *)
Lemma complex_passes_invariant regions sections :
  (sections1 ←
     forEach_result (fun s region _ => forEachItem collectSection region s)
       regions 0%nat [];
   sections2 ← forEach_result (onFacet collectColumn) regions 0%nat sections1;
   forEach_result (onFacet placeItem) regions 0%nat sections2) = Ok sections ->
  List.NoDup (obj_keys sections) /\ allPlaced regions sections.
Proof.
  destruct (forEach_result (fun s region _ => forEachItem collectSection region s)
              regions 0%nat []) as [sections1|e] eqn:H1; [| discriminate].
  rewrite bind_Ok.
  destruct (forEach_result (onFacet collectColumn) regions 0%nat sections1)
    as [sections2|e] eqn:H2; [| discriminate].
  rewrite bind_Ok. intros H3.
  set (Inv := fun s : ParsedSections =>
                List.NoDup (obj_keys s) /\ allPlaced regions s).
  assert (Hinv1 : Inv sections1).
  { eapply (forEach_result_invariant _ Inv (fun _ _ => True)); [| | | exact H1].
    - intros s region i s' _ Hs. unfold forEachItem.
      destruct (itemInstances region) as [items|]; [| discriminate].
      eapply (forEach_result_invariant _ Inv (fun _ _ => True)); [| | exact Hs].
      + intros s0 item j s1 _ Hs0. eapply collectSection_invariant, Hs0.
      + auto.
    - auto.
    - split; [constructor | intros sid section cid column fieldId slot []]. }
  assert (Hinv2 : Inv sections2).
  { eapply (forEach_result_invariant _ Inv (fun _ _ => True)); [| | | exact H2].
    - intros s region i s' _ Hs. unfold onFacet.
      destruct (String.eqb (region_type region) "Facet");
        [| intros [= <-]; exact Hs].
      unfold forEachItem.
      destruct (itemInstances region) as [items|]; [| discriminate].
      eapply (forEach_result_invariant _ Inv (fun _ _ => True)); [| | exact Hs].
      + intros s0 item j s1 _ Hs0. eapply collectColumn_invariant, Hs0.
      + auto.
    - auto.
    - exact Hinv1. }
  eapply (forEach_result_invariant _ Inv (fun region _ => In region regions));
    [| | | exact H3].
  - intros s region i s' Hregion Hs. unfold onFacet.
    destruct (String.eqb_spec (region_type region) "Facet") as [Hty | _];
      [| intros [= <-]; exact Hs].
    unfold forEachItem.
    destruct (itemInstances region) as [items|] eqn:Hitems; [| discriminate].
    eapply (forEach_result_invariant _ Inv (fun item j => items !! j = Some item));
      [| | exact Hs].
    + intros s0 item j s1 Hitem Hs0. eapply placeItem_invariant; eassumption.
    + intros j item Hj. exact Hj.
  - intros j region Hj. eapply lookup_In, Hj.
  - exact Hinv2.
Qed.

Lemma obj_delete_NoDup {V : Type} (o : Obj V) key :
  List.NoDup (obj_keys o) -> List.NoDup (obj_keys (obj_delete o key)).
Proof.
  induction o as [|[k0 v0] o IH]; simpl; intros Hnd.
  - constructor.
  - apply List.NoDup_cons_iff in Hnd as [Hk0 Hnd].
    destruct (String.eqb k0 key); [apply IH, Hnd |].
    simpl. apply List.NoDup_cons_iff. split; [| apply IH, Hnd].
    intros Hin. apply obj_delete_keys in Hin as [Hin _]. contradiction.
Qed.

Lemma obj_get_NoDup {V : Type} (o : Obj V) key v :
  List.NoDup (obj_keys o) -> In (key, v) o -> obj_get o key = Some v.
Proof.
  induction o as [|[k0 v0] o IH]; simpl; intros Hnd Hin.
  - destruct Hin.
  - apply List.NoDup_cons_iff in Hnd as [Hk0 Hnd].
    destruct Hin as [[= -> ->] | Hin].
    + rewrite String.eqb_refl. reflexivity.
    + destruct (String.eqb_spec k0 key) as [-> | _]; [| apply IH; assumption].
      exfalso. apply Hk0. unfold obj_keys. apply in_map_iff. exists (key, v). auto.
Qed.

Lemma removeEmptySections_spec sections :
  List.NoDup (obj_keys sections) ->
  forall sid section,
    In (sid, section) (removeEmptySections sections)
    <-> In (sid, section) sections /\ sectionHasFields section = true.
Proof.
  unfold removeEmptySections. intros Hnd sid section.
  assert (Hgen : forall ks acc,
             List.NoDup (obj_keys acc) ->
             In (sid, section)
               (fold_left
                  (fun acc sectionKey =>
                     match obj_get acc sectionKey with
                     | Some section =>
                         if sectionHasFields section then acc
                         else obj_delete acc sectionKey
                     | None => acc
                     end)
                  ks acc)
             <-> In (sid, section) acc
                 /\ (In sid ks -> sectionHasFields section = true)).
  { induction ks as [|k ks IH]; intros acc Hacc; cbn [fold_left].
    - split; [intros H; split; [exact H | intros []] | intros [H _]; exact H].
    - destruct (obj_get acc k) as [section0|] eqn:Hget.
      + destruct (sectionHasFields section0) eqn:Hhas.
        * rewrite (IH acc Hacc). split.
          -- intros [Hin Hks]. split; [exact Hin |].
             intros [<- | Hk]; [| auto].
             rewrite (obj_get_NoDup _ _ _ Hacc Hin) in Hget. congruence.
          -- intros [Hin Hks]. split; [exact Hin |]. intros Hk. apply Hks.
             right. exact Hk.
        * rewrite (IH _ (obj_delete_NoDup _ k Hacc)).
          rewrite obj_delete_filter, filter_In. cbn [fst]. split.
          -- intros [[Hin Hne] Hks]. split; [exact Hin |].
             intros [<- | Hk]; [| auto].
             rewrite String.eqb_refl in Hne. discriminate.
          -- intros [Hin Hks]. split; [split; [exact Hin |] |].
             ++ destruct (String.eqb_spec sid k) as [-> | _]; [| reflexivity].
                rewrite (obj_get_NoDup _ _ _ Hacc Hin) in Hget.
                injection Hget as <-.
                rewrite Hks in Hhas by (left; reflexivity). discriminate.
             ++ intros Hk. apply Hks. right. exact Hk.
      + rewrite (IH acc Hacc). split.
        * intros [Hin Hks]. split; [exact Hin |].
          intros [<- | Hk]; [| auto].
          rewrite (obj_get_NoDup _ _ _ Hacc Hin) in Hget. discriminate.
        * intros [Hin Hks]. split; [exact Hin |]. intros Hk. apply Hks.
          right. exact Hk. }
  rewrite (Hgen _ _ Hnd). split.
  - intros [Hin Hks]. split; [exact Hin |]. apply Hks.
    unfold obj_keys. apply in_map_iff. exists (sid, section). auto.
  - intros [Hin Hhas]. auto.
Qed.

Lemma parseComplexLayout_allPlaced regions parsedSections :
  parseComplexLayout regions = Ok parsedSections ->
  allPlaced regions parsedSections.
Proof.
  unfold parseComplexLayout.
  destruct (sections1 ←
              forEach_result (fun s region _ => forEachItem collectSection region s)
                regions 0%nat [];
            sections2 ← forEach_result (onFacet collectColumn) regions 0%nat sections1;
            forEach_result (onFacet placeItem) regions 0%nat sections2)
    as [sections|e] eqn:Hpasses.
  - destruct (complex_passes_invariant _ _ Hpasses) as [Hnd Hplaced].
    destruct (forEach_result (fun s region _ => forEachItem collectSection region s)
                regions 0%nat []) as [sections1|e1]; [| discriminate].
    rewrite bind_Ok in Hpasses |- *.
    destruct (forEach_result (onFacet collectColumn) regions 0%nat sections1)
      as [sections2|e2]; [| discriminate].
    rewrite bind_Ok in Hpasses |- *. rewrite Hpasses, bind_Ok.
    intros [= <-].
    intros sid section cid column fieldId slot Hsec.
    apply (removeEmptySections_spec _ Hnd) in Hsec as [Hsec _].
    eapply Hplaced, Hsec.
  - destruct (forEach_result (fun s region _ => forEachItem collectSection region s)
                regions 0%nat []) as [sections1|e1]; [| discriminate].
    rewrite bind_Ok in Hpasses |- *.
    destruct (forEach_result (onFacet collectColumn) regions 0%nat sections1)
      as [sections2|e2]; [| discriminate].
    rewrite bind_Ok in Hpasses |- *. rewrite Hpasses. discriminate.
Qed.

Lemma slotOfItem_visible item index fieldId slot :
  slotOfItem item index fieldId slot -> isVisible slot = VBool true.
Proof. intros [[fi [_ [_ ->]]] | [_ [ci [_ [_ ->]]]]]; reflexivity. Qed.

(** The parser makes every slot visible. *)
Lemma parseFlexiPageJson_visible config parsedSections fieldId field :
  parseFlexiPageJson config = Ok parsedSections ->
  slotIn parsedSections fieldId field ->
  isVisible field = VBool true.
Proof.
  unfold parseFlexiPageJson.
  destruct config as [doc|];
    [| intros [= <-] [sid [section [cid [column [[] _]]]]]].
  destruct (flexiPageRegions doc) as [regions|];
    [| intros [= <-] [sid [section [cid [column [[] _]]]]]].
  destruct (hasSimpleLayout regions).
  - intros [= <-] [sid [section [cid [column [Hsec [Hcol Hfield]]]]]].
    unfold parseSimpleLayout in Hsec. destruct Hsec as [[= <- <-] | []].
    cbn [columns] in Hcol. destruct Hcol as [[= <- <-] | []].
    cbn [fields] in Hfield.
    apply (addSimpleRegion_fold_plain regions []) in Hfield;
      [apply Hfield | intros f s0 []].
  - intros Hparse [sid [section [cid [column [Hsec [Hcol Hfield]]]]]].
    destruct (parseComplexLayout_allPlaced _ _ Hparse _ _ _ _ _ _ Hsec Hcol Hfield)
      as [region [items [item [_ [_ [_ [_ [_ Hitem]]]]]]]].
    eapply slotOfItem_visible, Hitem.
Qed.

(** X19.  The tree of a complex layout has no section without a field:
    every section of the result has a column with a slot, and its slots sit
    where the metadata puts them: a slot of the column [cid] comes from an
    item of the facet region named [cid], its [order] is the position of the
    item in that region, and it is the slot of the field instance, or a
    blank space, that the item holds. *)
Theorem complex_layout_sections_have_placed_fields regions parsedSections :
  parseComplexLayout regions = Ok parsedSections ->
  (forall sid section,
     In (sid, section) parsedSections -> sectionHasFields section = true)
  /\ allPlaced regions parsedSections.
Proof.
  unfold parseComplexLayout.
  destruct (sections1 ←
              forEach_result (fun s region _ => forEachItem collectSection region s)
                regions 0%nat [];
            sections2 ← forEach_result (onFacet collectColumn) regions 0%nat sections1;
            forEach_result (onFacet placeItem) regions 0%nat sections2)
    as [sections|e] eqn:Hpasses.
  - destruct (complex_passes_invariant _ _ Hpasses) as [Hnd Hplaced].
    destruct (forEach_result (fun s region _ => forEachItem collectSection region s)
                regions 0%nat []) as [sections1|e1]; [| discriminate].
    rewrite bind_Ok in Hpasses |- *.
    destruct (forEach_result (onFacet collectColumn) regions 0%nat sections1)
      as [sections2|e2]; [| discriminate].
    rewrite bind_Ok in Hpasses |- *. rewrite Hpasses, bind_Ok.
    intros [= <-]. split.
    + intros sid section Hin. apply (removeEmptySections_spec _ Hnd) in Hin.
      apply Hin.
    + intros sid section cid column fieldId slot Hsec.
      apply (removeEmptySections_spec _ Hnd) in Hsec as [Hsec _].
      eapply Hplaced, Hsec.
  - destruct (forEach_result (fun s region _ => forEachItem collectSection region s)
                regions 0%nat []) as [sections1|e1]; [| discriminate].
    rewrite bind_Ok in Hpasses |- *.
    destruct (forEach_result (onFacet collectColumn) regions 0%nat sections1)
      as [sections2|e2]; [| discriminate].
    rewrite bind_Ok in Hpasses |- *. rewrite Hpasses. discriminate.
Qed.

(** X20.  A document that is not of the simple shape and has a region
    without [itemInstances] is not parsed: the first pass raises, whatever
    the type of the region is. *)
Theorem complex_layout_needs_item_instances doc regions region :
  flexiPageRegions doc = Some regions ->
  hasSimpleLayout regions = false ->
  In region regions ->
  itemInstances region = None ->
  exists e, parseFlexiPageJson (Some doc) = Throw e.
Proof.
  intros Hregions Hcomplex Hregion Hitems.
  unfold parseFlexiPageJson. rewrite Hregions, Hcomplex.
  unfold parseComplexLayout.
  assert (Hraise : forall (s : ParsedSections) (i : nat),
             exists e, forEachItem collectSection region s = Throw e).
  { intros s i. unfold forEachItem. rewrite Hitems. eauto. }
  destruct (forEach_result_raises
              (fun s region (_ : nat) => forEachItem collectSection region s)
              region Hraise regions 0%nat [] Hregion) as [e ->].
  rewrite bind_Throw. eauto.
Qed.

Lemma complex_layout_needs_item_instances_witness :
  exists e,
    parseFlexiPageJson
      (Some {| flexiPageRegions :=
                 Some [{| region_type := "Region"; region_name := "main";
                          itemInstances := None |}] |})
    = Throw e.
Proof.
  apply (complex_layout_needs_item_instances
           {| flexiPageRegions :=
                Some [{| region_type := "Region"; region_name := "main";
                         itemInstances := None |}] |}
           [{| region_type := "Region"; region_name := "main";
               itemInstances := None |}]
           {| region_type := "Region"; region_name := "main";
              itemInstances := None |}
           eq_refl eq_refl (or_introl eq_refl) eq_refl).
Defined.

Lemma complex_layout_sections_have_placed_fields_witness :
  exists parsedSections,
    parseFlexiPageJson (Some sectionPage) = Ok parsedSections
    /\ forall sid section,
         In (sid, section) parsedSections -> sectionHasFields section = true.
Proof.
  eexists. split; [reflexivity |].
  refine (proj1 (complex_layout_sections_have_placed_fields
                   (match flexiPageRegions sectionPage with
                    | Some regions => regions
                    | None => []
                    end) _ _)).
  reflexivity.
Defined.

(** ** Default values: what [applyDefaultValues] leaves alone *)

Lemma obj_forEach_In {V St : Type} (f : string -> V -> St -> V * St) :
  forall o s o' s' k v',
    obj_forEach f o s = (o', s') ->
    In (k, v') o' ->
    exists v s0, In (k, v) o /\ (f k v s0).1 = v'.
Proof.
  induction o as [|[k0 v0] o IH]; intros s o' s' k v'; simpl.
  - intros [= <- <-] [].
  - destruct (f k0 v0 s) as [v1 s1] eqn:Hf.
    destruct (obj_forEach f o s1) as [o2 s2] eqn:Ho.
    intros [= <- <-] [[= <- <-] | Hin].
    + exists v0, s. rewrite Hf. auto.
    + destruct (IH _ _ _ _ _ Ho Hin) as [v [s0 [Hv Hf0]]]. eauto.
Qed.

Lemma defaultsWritten_refl lookupValues s : defaultsWritten lookupValues s s.
Proof. split; auto. Qed.

Lemma defaultsWritten_trans lookupValues s1 s2 s3 :
  defaultsWritten lookupValues s1 s2 -> defaultsWritten lookupValues s2 s3 ->
  defaultsWritten lookupValues s1 s3.
Proof.
  intros [H12 G12] [H23 G23]. split.
  - intros key Hkey. rewrite (H23 key Hkey). apply H12, Hkey.
  - intros key v Hv. apply G23 in Hv as [Hv | Hv]; [apply G12, Hv | auto].
Qed.

Lemma applyDefaultToField_written lookupValues isNew fieldId field s :
  defaultsWritten lookupValues s (applyDefaultToField lookupValues isNew fieldId field s).2.
Proof.
  unfold applyDefaultToField.
  destruct (isBlankSpace field); [apply defaultsWritten_refl |].
  destruct (obj_get lookupValues (JsString.toLowerCase fieldId)) as [d|] eqn:Hd;
    [| apply defaultsWritten_refl].
  destruct (isNew || negb (Js.truthy (value field))); [| apply defaultsWritten_refl].
  split; cbn [fst snd].
  - intros key Hkey. apply lookup_insert_ne. congruence.
  - intros key v.
    destruct (decide (JsString.toLowerCase fieldId = key)) as [<- | Hne].
    + rewrite lookup_insert_eq. intros [= <-]. auto.
    + rewrite lookup_insert_ne by exact Hne. auto.
Qed.

Lemma obj_forEach_written {V : Type} lookupValues
  (f : string -> V -> RecordData * bool -> V * (RecordData * bool)) :
  (forall k v s, defaultsWritten lookupValues s (f k v s).2) ->
  forall o s, defaultsWritten lookupValues s (obj_forEach f o s).2.
Proof.
  intros Hf. induction o as [|[k v] o IH]; intros s; simpl.
  - apply defaultsWritten_refl.
  - specialize (Hf k v s). destruct (f k v s) as [v1 s1]. specialize (IH s1).
    destruct (obj_forEach f o s1) as [o2 s2]. cbn [snd] in *.
    eapply defaultsWritten_trans; eassumption.
Qed.

Lemma applyDefaultToField_applied this fieldId field s :
  defaultApplied this fieldId field
    (applyDefaultToField (lowercase (parseDefaultValues this)) (isNewRecord this)
       fieldId field s).1.
Proof.
  unfold applyDefaultToField, defaultApplied.
  destruct (isBlankSpace field) eqn:Hblank; [left; reflexivity |].
  destruct (obj_get _ (JsString.toLowerCase fieldId)) as [d|] eqn:Hd;
    [| left; reflexivity].
  destruct (isNewRecord this) eqn:Hnew; cbn [orb].
  - right. split; [reflexivity |]. split; [left; reflexivity |]. eauto.
  - destruct (Js.truthy (value field)) eqn:Hvalue; cbn [negb].
    + left. reflexivity.
    + right. split; [reflexivity |]. split; [right; reflexivity |]. eauto.
Qed.

Lemma applyDefaultValues_slot this recordData parsedSections fieldId slot' :
  slotIn (applied_sections (applyDefaultValues this recordData parsedSections))
    fieldId slot' ->
  exists slot,
    slotIn parsedSections fieldId slot /\ defaultApplied this fieldId slot slot'.
Proof.
  unfold applyDefaultValues.
  destruct (lowercase (parseDefaultValues this)) as [|kv lookupTail] eqn:Hlookup.
  - intros Hslot. exists slot'. split; [exact Hslot | left; reflexivity].
  - rewrite <- Hlookup.
    destruct (obj_forEach _ parsedSections (recordData, false))
      as [sections [recordData' updatedFields]] eqn:Hrun.
    cbn [applied_sections].
    intros [sid [section' [cid [column' [Hsec [Hcol Hfield]]]]]].
    destruct (obj_forEach_In _ _ _ _ _ _ _ Hrun Hsec) as [section [s0 [Hsec0 Hs]]].
    cbv beta in Hs.
    destruct (obj_forEach _ (columns section) s0) as [cols s1] eqn:Hcols.
    cbn [fst] in Hs. subst section'. cbn [columns] in Hcol.
    destruct (obj_forEach_In _ _ _ _ _ _ _ Hcols Hcol) as [column [s2 [Hcol0 Hc]]].
    cbv beta in Hc.
    destruct (obj_forEach _ (fields column) s2) as [fs s3] eqn:Hfs.
    cbn [fst] in Hc. subst column'. cbn [fields] in Hfield.
    destruct (obj_forEach_In _ _ _ _ _ _ _ Hfs Hfield) as [slot [s4 [Hslot Hf]]].
    exists slot. split; [exists sid, section, cid, column; auto |].
    rewrite <- Hf. apply applyDefaultToField_applied.
Qed.

(** X21.  [applyDefaultValues] writes default values and nothing else.  A
    slot of the result is the slot of the same id of the input, as it was
    or with the default value of its id as its value; a blank space is never
    changed, and on an existing record a slot that has a value keeps it.
    The record data is changed at the keys of default values only, and only
    to the default value.  The record handed to a flow, if any, is the
    record data, and none is handed over outside a flow. *)
Theorem applyDefaultValues_writes_defaults_only this recordData parsedSections :
  let applied := applyDefaultValues this recordData parsedSections in
  (forall fieldId slot',
     slotIn (applied_sections applied) fieldId slot' ->
     exists slot,
       slotIn parsedSections fieldId slot /\ defaultApplied this fieldId slot slot')
  /\ (forall key,
        obj_get (lowercase (parseDefaultValues this)) key = None ->
        applied_recordData applied !! key = recordData !! key)
  /\ (forall key v,
        applied_recordData applied !! key = Some v ->
        recordData !! key = Some v
        \/ obj_get (lowercase (parseDefaultValues this)) key = Some v)
  /\ (forall varRecord,
        applied_varRecord applied = Some varRecord ->
        api_flowContext this = true /\ varRecord = applied_recordData applied).
Proof.
  intros applied. subst applied.
  split; [intros fieldId slot'; apply applyDefaultValues_slot |].
  unfold applyDefaultValues.
  destruct (lowercase (parseDefaultValues this)) as [|kv lookupTail] eqn:Hlookup.
  - cbn [applied_recordData applied_varRecord].
    split; [reflexivity |]. split; [auto | discriminate].
  - rewrite <- Hlookup.
    set (lookupValues := lowercase (parseDefaultValues this)).
    set (onFields := fun (_ : string) (column : Column) (s : RecordData * bool) =>
           let '(fs, s') :=
             obj_forEach (applyDefaultToField lookupValues (isNewRecord this))
               (fields column) s in
           ({| side := side column; fields := fs |}, s')).
    set (onColumns := fun (_ : string) (section : Section_) (s : RecordData * bool) =>
           let '(cols, s') := obj_forEach onFields (columns section) s in
           ({| label := label section; columns := cols |}, s')).
    assert (Hfields : forall k column s,
               defaultsWritten lookupValues s (onFields k column s).2).
    { intros k column s. unfold onFields.
      pose proof (obj_forEach_written lookupValues
                    (applyDefaultToField lookupValues (isNewRecord this))
                    (fun k v s => applyDefaultToField_written _ _ k v s)
                    (fields column) s) as H.
      destruct (obj_forEach _ (fields column) s) as [fs s1]. exact H. }
    assert (Hcolumns : forall k section s,
               defaultsWritten lookupValues s (onColumns k section s).2).
    { intros k section s. unfold onColumns.
      pose proof (obj_forEach_written lookupValues onFields Hfields
                    (columns section) s) as H.
      destruct (obj_forEach onFields (columns section) s) as [cols s1]. exact H. }
    pose proof (obj_forEach_written lookupValues onColumns Hcolumns
                  parsedSections (recordData, false)) as [Hkeep Hfrom].
    destruct (obj_forEach onColumns parsedSections (recordData, false))
      as [sections [recordData' updatedFields]] eqn:Hrun.
    cbn [applied_recordData applied_varRecord fst snd] in *.
    split; [exact Hkeep | split; [exact Hfrom |]].
    intros varRecord.
    destruct (api_flowContext this); [| discriminate].
    destruct updatedFields; [| discriminate].
    intros [= <-]. auto.
Qed.

Lemma applyDefaultValues_writes_defaults_only_witness :
  applied_recordData
    (applyDefaultValues (editForm "" "Amount__c:100") statusRecord raisingTree)
  !! "status__c"
  = statusRecord !! "status__c".
Proof.
  apply (proj1 (proj2 (applyDefaultValues_writes_defaults_only
                         (editForm "" "Amount__c:100") statusRecord raisingTree))
           "status__c").
  reflexivity.
Defined.

(** ** Default values: the two maps *)

Lemma obj_set_In_new {V : Type} (o : Obj V) key v : In (key, v) (obj_set o key v).
Proof.
  induction o as [|[k0 v0] o IH]; simpl.
  - left. reflexivity.
  - destruct (String.eqb_spec k0 key) as [-> | Hne]; [left; reflexivity |].
    right. exact IH.
Qed.

Lemma obj_set_In_other {V : Type} (o : Obj V) key v k w :
  In (k, w) o -> k <> key -> In (k, w) (obj_set o key v).
Proof.
  induction o as [|[k0 v0] o IH]; simpl; intros Hin Hne.
  - destruct Hin.
  - destruct (String.eqb_spec k0 key) as [-> | Hk0].
    + destruct Hin as [[= <- <-] | Hin]; [contradiction | right; exact Hin].
    + destruct Hin as [Heq | Hin]; [left; exact Heq | right; apply IH; assumption].
Qed.

Lemma obj_set_In_NoDup {V : Type} (o : Obj V) key v k w :
  List.NoDup (obj_keys o) ->
  In (k, w) (obj_set o key v) ->
  (k, w) = (key, v) \/ (In (k, w) o /\ k <> key).
Proof.
  induction o as [|[k0 v0] o IH]; simpl; intros Hnd Hin.
  - destruct Hin as [<- | []]. auto.
  - apply List.NoDup_cons_iff in Hnd as [Hk0 Hnd].
    destruct (String.eqb_spec k0 key) as [-> | Hne].
    + destruct Hin as [<- | Hin]; [auto |].
      right. split; [right; exact Hin |].
      intros ->. apply Hk0. unfold obj_keys. apply in_map_iff.
      exists (key, w). auto.
    + destruct Hin as [[= <- <-] | Hin]; [auto |].
      destruct (IH Hnd Hin) as [Heq | [Hin' Hk]]; auto.
Qed.

Lemma processDefaultValue_isDefaultValue v : isDefaultValue (processDefaultValue v).
Proof.
  unfold processDefaultValue.
  destruct (String.eqb (JsString.toLowerCase v) "true"); [exact I |].
  destruct (String.eqb (JsString.toLowerCase v) "false"); [exact I |].
  destruct (Js.isNaN (VStr v)) eqn:Hnan; cbn [negb andb]; [exact I |].
  destruct (negb (String.eqb (JsString.trim v) "")); [| exact I].
  exact Hnan.
Qed.

Lemma addDefaultPair_consistent acc pair :
  defaultsConsistent acc -> defaultsConsistent (addDefaultPair acc pair).
Proof.
  intros Hacc. unfold addDefaultPair.
  destruct (String.eqb (JsString.trim pair) ""); [exact Hacc |].
  destruct (List.map JsString.trim (JsString.split ":" pair)) as [|fieldName parts];
    [exact Hacc |].
  destruct (String.eqb_spec fieldName "") as [-> | Hname]; [exact Hacc |].
  cbv zeta. destruct Hacc as [Hnd1 [Hnd2 [Horig Hlow]]].
  unfold defaultsConsistent. cbn [original lowercase].
  split; [apply obj_set_NoDup, Hnd1 |]. split; [apply obj_set_NoDup, Hnd2 |]. split.
  - intros k v Hin. apply obj_set_In in Hin as [[= -> ->] | Hin].
    + split; [exact Hname |]. split; [apply processDefaultValue_isDefaultValue |].
      apply obj_set_keys. left. reflexivity.
    + destruct (Horig k v Hin) as [Hk [Hv Hkey]].
      split; [exact Hk |]. split; [exact Hv |]. apply obj_set_keys. right. exact Hkey.
  - intros k v Hin. apply (obj_set_In_NoDup _ _ _ _ _ Hnd2) in Hin
      as [[= -> ->] | [Hin Hne]].
    + split; [apply processDefaultValue_isDefaultValue |].
      exists fieldName. split; [apply obj_set_In_new | reflexivity].
    + destruct (Hlow k v Hin) as [Hv [k0 [Hk0 Hlower]]].
      split; [exact Hv |]. exists k0. split; [| exact Hlower].
      apply obj_set_In_other; [exact Hk0 |]. congruence.
Qed.

(** Default values that read as numbers: a fraction, an exponent, a radix
    prefix, [Infinity] and -0 are converted, a text that is no number is
    kept. *)
Example parseDefaultValues_numbers :
  original
    (parseDefaultValues
       (editForm "" "A:99.5;B:1e3;C:0x10;D:Infinity;E:-0;F:1.5.2;G: 7 "))
  = [("A", VNum (Js.decimal false 995 (-1)));
     ("B", VNum (Int 1000));
     ("C", VNum (Int 16));
     ("D", VNum (SpecFloat.S754_infinity false));
     ("E", VNum (SpecFloat.S754_zero true));
     ("F", VStr "1.5.2");
     ("G", VNum (Int 7))]
  /\ Js.NumberToString (Js.decimal false 995 (-1)) = "99.5".
Proof. split; vm_compute; reflexivity. Qed.

(** X22.  The two maps that [parseDefaultValues] returns.  Every value is a
    boolean, a number or a text, never [undefined], [null] or [NaN]; no
    field name is empty; the lower-case map has an entry for the
    lower-cased name of every entry of the original map, and every entry of
    the lower-case map carries the value of an entry of the original map
    with that name in some letter case. *)
Theorem parseDefaultValues_maps_agree this :
  let parsed := parseDefaultValues this in
  (forall k v,
     In (k, v) (original parsed) ->
     k <> "" /\ isDefaultValue v
     /\ In (JsString.toLowerCase k) (obj_keys (lowercase parsed)))
  /\ (forall k v,
        In (k, v) (lowercase parsed) ->
        isDefaultValue v
        /\ exists k0, In (k0, v) (original parsed) /\ JsString.toLowerCase k0 = k).
Proof.
  intros parsed.
  assert (H : defaultsConsistent parsed).
  { subst parsed. unfold parseDefaultValues.
    assert (Hempty : defaultsConsistent {| original := []; lowercase := [] |}).
    { unfold defaultsConsistent. cbn [original lowercase obj_keys List.map].
      split; [constructor |]. split; [constructor |].
      split; intros k v []. }
    destruct (String.eqb (api_defaultValues this) ""); [exact Hempty |].
    generalize (JsString.split
                  (if JsString.includes ";" (api_defaultValues this) then ";" else ",")
                  (api_defaultValues this)).
    revert Hempty. generalize {| original := []; lowercase := [] |}.
    intros acc Hacc pairs. revert acc Hacc.
    induction pairs as [|pair pairs IH]; intros acc Hacc; simpl.
    - exact Hacc.
    - apply IH, addDefaultPair_consistent, Hacc. }
  destruct H as [_ [_ [Horig Hlow]]]. split; assumption.
Qed.

Lemma parseDefaultValues_maps_agree_witness :
  "Rate__c" <> ""
  /\ isDefaultValue (VNum (Js.StringToNumber "99.5"))
  /\ In (JsString.toLowerCase "Rate__c")
       (obj_keys
          (lowercase (parseDefaultValues (editForm "" "Amount__c:100; Rate__c:99.5; x:")))).
Proof.
  apply (proj1 (parseDefaultValues_maps_agree
                  (editForm "" "Amount__c:100; Rate__c:99.5; x:"))
           "Rate__c" (VNum (Js.StringToNumber "99.5"))).
  right. left. reflexivity.
Defined.

(** ** Strings: splitting what was joined *)

Lemma append_nil_l (s : string) : "" ++ s = s.
Proof. reflexivity. Qed.

Lemma append_cons c (s t : string) : String c s ++ t = String c (s ++ t).
Proof. reflexivity. Qed.

Lemma append_nil_r (s : string) : s ++ "" = s.
Proof.
  induction s as [|c s IH]; [reflexivity |]. rewrite append_cons. congruence.
Qed.

Lemma append_assoc (a b c : string) : (a ++ b) ++ c = a ++ (b ++ c).
Proof.
  induction a as [|x a IH]; [reflexivity |]. rewrite !append_cons. congruence.
Qed.

Lemma rev_string_app acc s :
  JsString.rev_string acc s = JsString.rev_string "" s ++ acc.
Proof.
  revert acc. induction s as [|c s IH]; intros acc; cbn [JsString.rev_string].
  - reflexivity.
  - rewrite (IH (String c acc)), (IH (String c "")), append_assoc. reflexivity.
Qed.

Lemma freeOf_cons c d s : freeOf c (String d s) <-> d <> c /\ freeOf c s.
Proof. unfold freeOf. simpl. tauto. Qed.

Lemma freeOf_app c a b : freeOf c (a ++ b) <-> freeOf c a /\ freeOf c b.
Proof.
  induction a as [|x a IH].
  - rewrite append_nil_l. unfold freeOf at 2. simpl. tauto.
  - rewrite append_cons, !freeOf_cons, IH. tauto.
Qed.

Lemma split_go_char c cur d s :
  JsString.split_go (String c "") 0 cur (String d s)
  = if Ascii.eqb c d
    then JsString.rev_string "" cur :: JsString.split_go (String c "") 0 "" s
    else JsString.split_go (String c "") 0 (String d cur) s.
Proof. cbn [JsString.split_go JsString.startsWith]. destruct (Ascii.eqb c d); reflexivity. Qed.

Lemma split_go_free c s : forall cur,
  freeOf c s ->
  JsString.split_go (String c "") 0 cur s = [JsString.rev_string "" cur ++ s].
Proof.
  induction s as [|d s IH]; intros cur Hfree.
  - cbn [JsString.split_go]. rewrite append_nil_r. reflexivity.
  - apply freeOf_cons in Hfree as [Hd Hfree]. rewrite split_go_char.
    destruct (Ascii.eqb_spec c d) as [-> | _]; [contradiction |].
    rewrite (IH _ Hfree). cbn [JsString.rev_string].
    rewrite (rev_string_app (String d "")), append_assoc. reflexivity.
Qed.

Lemma split_go_piece c s rest : forall cur,
  freeOf c s ->
  JsString.split_go (String c "") 0 cur (s ++ String c rest)
  = (JsString.rev_string "" cur ++ s) :: JsString.split_go (String c "") 0 "" rest.
Proof.
  induction s as [|d s IH]; intros cur Hfree.
  - rewrite append_nil_l, split_go_char, Ascii.eqb_refl, append_nil_r. reflexivity.
  - apply freeOf_cons in Hfree as [Hd Hfree]. rewrite append_cons, split_go_char.
    destruct (Ascii.eqb_spec c d) as [-> | _]; [contradiction |].
    rewrite (IH _ Hfree). cbn [JsString.rev_string].
    rewrite (rev_string_app (String d "")), append_assoc. reflexivity.
Qed.

(** Splitting at a code unit gives back the pieces that were joined with
    it, when no piece holds it. *)
Lemma split_join c l :
  l <> [] ->
  Forall (freeOf c) l ->
  JsString.split (String c "") (JsString.join (String c "") l) = l.
Proof.
  intros Hne Hfree. unfold JsString.split.
  induction Hfree as [|x l Hx Hl IH]; [congruence |].
  destruct l as [|y l].
  - cbn [JsString.join]. rewrite (split_go_free _ _ _ Hx). reflexivity.
  - change (JsString.join (String c "") (x :: y :: l))
      with (x ++ String c (JsString.join (String c "") (y :: l))).
    rewrite (split_go_piece _ _ _ _ Hx). cbn [JsString.rev_string].
    rewrite append_nil_l. f_equal. apply IH. discriminate.
Qed.

Lemma includes_free c s : freeOf c s -> JsString.includes (String c "") s = false.
Proof.
  induction s as [|d s IH]; intros Hfree.
  - reflexivity.
  - apply freeOf_cons in Hfree as [Hd Hfree].
    cbn [JsString.includes JsString.startsWith].
    destruct (Ascii.eqb_spec c d) as [-> | _]; [contradiction |].
    cbn [orb]. apply IH, Hfree.
Qed.

Lemma freeOf_join c sep l :
  freeOf c sep -> Forall (freeOf c) l -> freeOf c (JsString.join sep l).
Proof.
  intros Hsep Hl. induction Hl as [|x l Hx Hl IH].
  - intros [].
  - destruct l as [|y l]; [exact Hx |].
    change (JsString.join sep (x :: y :: l))
      with (x ++ sep ++ JsString.join sep (y :: l)).
    rewrite !freeOf_app. auto.
Qed.

Lemma join_nonempty sep x l : x <> "" -> JsString.join sep (x :: l) <> "".
Proof.
  intros Hx. destruct l as [|y l]; [exact Hx |].
  change (JsString.join sep (x :: y :: l))
    with (x ++ sep ++ JsString.join sep (y :: l)).
  destruct x; [congruence | discriminate].
Qed.

(** *** White space *)

Lemma trimStart_keeps c s :
  In c (list_ascii_of_string s) ->
  JsString.is_white_space c = false ->
  In c (list_ascii_of_string (JsString.trimStart s)).
Proof.
  induction s as [|d s IH]; simpl; intros Hin Hc.
  - exact Hin.
  - destruct (JsString.is_white_space d) eqn:Hd.
    + destruct Hin as [-> | Hin]; [congruence | apply IH; assumption].
    + exact Hin.
Qed.

Lemma rev_string_In c s : forall acc,
  In c (list_ascii_of_string (JsString.rev_string acc s))
  <-> In c (list_ascii_of_string s) \/ In c (list_ascii_of_string acc).
Proof.
  induction s as [|d s IH]; intros acc; simpl.
  - tauto.
  - rewrite IH. simpl. tauto.
Qed.

Lemma trim_keeps c s :
  In c (list_ascii_of_string s) ->
  JsString.is_white_space c = false ->
  In c (list_ascii_of_string (JsString.trim s)).
Proof.
  intros Hin Hc. unfold JsString.trim, JsString.trimEnd.
  apply rev_string_In. left. apply trimStart_keeps; [| exact Hc].
  apply rev_string_In. left. apply trimStart_keeps; assumption.
Qed.

Lemma In_append_middle c a b : In c (list_ascii_of_string (a ++ String c b)).
Proof.
  induction a as [|x a IH].
  - left. reflexivity.
  - rewrite append_cons. right. exact IH.
Qed.

(** ** From the property editor to the form *)

(** A pair written by the editor is read as the field and the value. *)
Lemma split_pair field v :
  freeOf ":" field -> freeOf ":" v ->
  JsString.split ":" (field ++ ":" ++ v) = [field; v].
Proof.
  intros Hfield Hv.
  change (field ++ ":" ++ v) with (JsString.join ":" [field; v]).
  apply split_join; [discriminate |]. constructor; [exact Hfield |].
  constructor; [exact Hv | constructor].
Qed.

Lemma pair_not_blank field v : JsString.trim (field ++ ":" ++ v) <> "".
Proof.
  intros Hblank.
  assert (Hin : In ":"%char (list_ascii_of_string (JsString.trim (field ++ ":" ++ v)))).
  { apply trim_keeps; [apply In_append_middle | reflexivity]. }
  rewrite Hblank in Hin. destruct Hin.
Qed.

Lemma addDefaultPair_written acc field v :
  isPlainText field -> isPlainText v ->
  addDefaultPair acc (field ++ ":" ++ v)
  = {| original := obj_set (original acc) field (processDefaultValue v);
       lowercase :=
         obj_set (lowercase acc) (JsString.toLowerCase field)
           (processDefaultValue v) |}.
Proof.
  intros [[Hf [Hftrim _]] [_ Hfcolon]] [[Hv [Hvtrim _]] [_ Hvcolon]].
  unfold addDefaultPair.
  destruct (String.eqb_spec (JsString.trim (field ++ ":" ++ v)) "") as [Hblank | _];
    [exfalso; eapply pair_not_blank, Hblank |].
  rewrite (split_pair _ _ Hfcolon Hvcolon). cbn [List.map].
  rewrite Hftrim, Hvtrim. cbn [JsString.join].
  destruct (String.eqb_spec field "") as [-> | _]; [congruence | reflexivity].
Qed.

Lemma addDefaultPair_fold entries : forall acc,
  (forall field v, In (field, v) entries -> isPlainText field /\ isPlainText v) ->
  List.NoDup (obj_keys entries) ->
  (forall field, In field (obj_keys entries) -> ~ In field (obj_keys (original acc))) ->
  original
    (fold_left addDefaultPair (List.map (fun kv => kv.1 ++ ":" ++ kv.2) entries) acc)
  = (original acc
     ++ List.map (fun kv => (kv.1, processDefaultValue kv.2)) entries)%list.
Proof.
  induction entries as [|[field v] entries IH]; intros acc Hplain Hnd Hfresh.
  - simpl. rewrite app_nil_r. reflexivity.
  - cbn [List.map fold_left fst snd].
    destruct (Hplain field v (or_introl eq_refl)) as [Hfield Hv].
    rewrite (addDefaultPair_written _ _ _ Hfield Hv).
    cbn [obj_keys List.map fst] in Hnd. apply List.NoDup_cons_iff in Hnd as [Hnew Hnd].
    rewrite IH.
    + cbn [original]. rewrite obj_set_fresh.
      * rewrite <- app_assoc. reflexivity.
      * apply Hfresh. left. reflexivity.
    + intros f w Hin. apply Hplain. right. exact Hin.
    + exact Hnd.
    + cbn [original]. intros f Hf Hin.
      apply obj_set_keys in Hin as [-> | Hin].
      * contradiction.
      * apply (Hfresh f); [right; exact Hf | exact Hin].
Qed.

Lemma writtenDefaults_plain defaultFieldValues :
  writable defaultFieldValues ->
  List.NoDup (obj_keys (writtenDefaults defaultFieldValues))
  /\ forall field v,
       In (field, v) (writtenDefaults defaultFieldValues) ->
       isPlainText field /\ isPlainText v.
Proof.
  intros [Hnd Hplain]. unfold writtenDefaults. split.
  - clear Hplain. induction defaultFieldValues as [|[f v] l IH]; simpl.
    + constructor.
    + cbn [obj_keys List.map fst] in Hnd.
      apply List.NoDup_cons_iff in Hnd as [Hf Hnd].
      destruct (negb (String.eqb v "")); [| apply IH, Hnd].
      cbn [obj_keys List.map fst]. apply List.NoDup_cons_iff.
      split; [| apply IH, Hnd].
      intros Hin. apply Hf. unfold obj_keys in *.
      apply in_map_iff in Hin as [[f' v'] [Heq Hin]]. apply filter_In in Hin as [Hin _].
      apply in_map_iff. exists (f', v'). auto.
  - intros field v Hin. apply filter_In in Hin as [Hin Hv]. cbn [snd] in Hv.
    destruct (Hplain field v Hin) as [Hfield [-> | Hvalue]]; [discriminate | auto].
Qed.

Lemma pairs_free c entries :
  c <> ":"%char ->
  (forall field v,
     In (field, v) entries -> freeOf c field /\ freeOf c v) ->
  Forall (freeOf c)
    (List.map (fun kv : string * string => kv.1 ++ ":" ++ kv.2) entries).
Proof.
  intros Hc Hfree. apply List.Forall_forall. intros pair Hin.
  apply in_map_iff in Hin as [[field v] [<- Hin]]. cbn [fst snd].
  destruct (Hfree field v Hin) as [Hfield Hv].
  apply freeOf_app. split; [exact Hfield |].
  change (":" ++ v) with (String ":" v). apply freeOf_cons. auto.
Qed.

(** X23.  The default values that the property editor writes are the
    default values that the form reads.  When the field names are distinct
    and the names and the values entered are free of the separators and of
    surrounding white space, the string made by [formatDefaultValuesString]
    is parsed by [parseDefaultValues] of the form into one entry per field
    with a value, in the same order, the value being coerced to a boolean
    or a number where it reads like one. *)
Theorem editor_defaults_are_read_by_the_form this defaultFieldValues :
  writable defaultFieldValues ->
  api_defaultValues this = CPE.formatDefaultValuesString defaultFieldValues ->
  original (parseDefaultValues this)
  = List.map (fun kv => (kv.1, processDefaultValue kv.2))
      (writtenDefaults defaultFieldValues).
Proof.
  intros Hwritable Hstring.
  destruct (writtenDefaults_plain _ Hwritable) as [Hnd Hplain].
  unfold parseDefaultValues. rewrite Hstring.
  unfold CPE.formatDefaultValuesString. fold (writtenDefaults defaultFieldValues).
  destruct (writtenDefaults defaultFieldValues) as [|[field v] entries] eqn:Hentries.
  - reflexivity.
  - set (pairs := List.map (fun kv : string * string => kv.1 ++ ":" ++ kv.2)
                    ((field, v) :: entries)).
    destruct (String.eqb_spec (JsString.join "," pairs) "") as [Hempty | _].
    + exfalso. revert Hempty. subst pairs. cbn [List.map fst snd].
      apply join_nonempty. destruct field; discriminate.
    + assert (Hsemi : Forall (freeOf ";") pairs).
      { apply pairs_free; [discriminate |]. intros f w Hin.
        destruct (Hplain f w Hin) as [[_ [Hf _]] [_ [Hw _]]]. auto. }
      assert (Hcomma : Forall (freeOf ",") pairs).
      { apply pairs_free; [discriminate |]. intros f w Hin.
        destruct (Hplain f w Hin) as [[[_ [_ Hf]] _] [[_ [_ Hw]] _]]. auto. }
      rewrite includes_free.
      * rewrite (split_join "," pairs); [| discriminate | exact Hcomma].
        subst pairs. rewrite addDefaultPair_fold.
        -- reflexivity.
        -- exact Hplain.
        -- exact Hnd.
        -- intros f _ [].
      * apply freeOf_join; [| exact Hsemi].
        unfold freeOf. simpl. intros [H | []]. discriminate.
Qed.

Lemma editor_defaults_are_read_by_the_form_witness :
  original
    (parseDefaultValues
       (editForm ""
          (CPE.formatDefaultValuesString
             [("Amount__c", "100.0"); ("Stage__c", ""); ("Active__c", "TRUE");
              ("Rate__c", "99.5"); ("Code__c", "0x10")])))
  = [("Amount__c", VNum (Int 100)); ("Active__c", VBool true);
     ("Rate__c", VNum (Js.decimal false 995 (-1))); ("Code__c", VNum (Int 16))].
Proof.
  refine (editor_defaults_are_read_by_the_form
            (editForm ""
               (CPE.formatDefaultValuesString
                  [("Amount__c", "100.0"); ("Stage__c", ""); ("Active__c", "TRUE");
                   ("Rate__c", "99.5"); ("Code__c", "0x10")]))
            [("Amount__c", "100.0"); ("Stage__c", ""); ("Active__c", "TRUE");
             ("Rate__c", "99.5"); ("Code__c", "0x10")]
            _ eq_refl).
  split.
  - repeat (apply List.NoDup_cons; [simpl; intuition discriminate |]).
    apply List.NoDup_nil.
  - intros field v [[= <- <-] | [[= <- <-] | [[= <- <-] | [[= <- <-] | [[= <- <-] | []]]]]];
      (split; [| first [left; reflexivity | right]]);
      unfold isPlainText, isListItem, freeOf;
      repeat split; try discriminate; try reflexivity;
      simpl; intuition discriminate.
Defined.

(** ** The property editor reads what it wrote *)

Lemma split_pairs_char cur d s :
  CPE.split_pairs cur (String d s)
  = if Ascii.eqb d "," || Ascii.eqb d ";"
    then JsString.rev_string "" cur :: CPE.split_pairs "" s
    else CPE.split_pairs (String d cur) s.
Proof. reflexivity. Qed.

Lemma split_pairs_free s : forall cur,
  freeOf "," s -> freeOf ";" s ->
  CPE.split_pairs cur s = [JsString.rev_string "" cur ++ s].
Proof.
  induction s as [|d s IH]; intros cur Hcomma Hsemi.
  - cbn [CPE.split_pairs]. rewrite append_nil_r. reflexivity.
  - apply freeOf_cons in Hcomma as [Hd1 Hcomma].
    apply freeOf_cons in Hsemi as [Hd2 Hsemi].
    rewrite split_pairs_char.
    destruct (Ascii.eqb_spec d ",") as [-> | _]; [contradiction |].
    destruct (Ascii.eqb_spec d ";") as [-> | _]; [contradiction |].
    cbn [orb]. rewrite (IH _ Hcomma Hsemi). cbn [JsString.rev_string].
    rewrite (rev_string_app (String d "")), append_assoc. reflexivity.
Qed.

Lemma split_pairs_piece s rest : forall cur,
  freeOf "," s -> freeOf ";" s ->
  CPE.split_pairs cur (s ++ String "," rest)
  = (JsString.rev_string "" cur ++ s) :: CPE.split_pairs "" rest.
Proof.
  induction s as [|d s IH]; intros cur Hcomma Hsemi.
  - rewrite append_nil_l, split_pairs_char, append_nil_r. reflexivity.
  - apply freeOf_cons in Hcomma as [Hd1 Hcomma].
    apply freeOf_cons in Hsemi as [Hd2 Hsemi].
    rewrite append_cons, split_pairs_char.
    destruct (Ascii.eqb_spec d ",") as [-> | _]; [contradiction |].
    destruct (Ascii.eqb_spec d ";") as [-> | _]; [contradiction |].
    cbn [orb]. rewrite (IH _ Hcomma Hsemi). cbn [JsString.rev_string].
    rewrite (rev_string_app (String d "")), append_assoc. reflexivity.
Qed.

Lemma split_pairs_join l :
  l <> [] ->
  Forall (freeOf ",") l ->
  Forall (freeOf ";") l ->
  CPE.split_pairs "" (JsString.join "," l) = l.
Proof.
  intros Hne Hcomma. revert Hne.
  induction Hcomma as [|x l Hx Hl IH]; intros Hne Hsemi; [congruence |].
  apply List.Forall_cons_iff in Hsemi as [Hx' Hsemi].
  destruct l as [|y l].
  - cbn [JsString.join]. rewrite (split_pairs_free _ _ Hx Hx'). reflexivity.
  - change (JsString.join "," (x :: y :: l))
      with (x ++ String "," (JsString.join "," (y :: l))).
    rewrite (split_pairs_piece _ _ _ Hx Hx'). cbn [JsString.rev_string].
    rewrite append_nil_l. f_equal. apply IH; [discriminate | exact Hsemi].
Qed.

Lemma addPair_written values field v :
  isPlainText field -> isPlainText v ->
  CPE.addPair values (field ++ ":" ++ v) = obj_set values field v.
Proof.
  intros [[Hf [Hftrim _]] [_ Hfcolon]] [[Hv [Hvtrim _]] [_ Hvcolon]].
  unfold CPE.addPair. rewrite (split_pair _ _ Hfcolon Hvcolon). cbn [List.map].
  rewrite Hftrim, Hvtrim.
  destruct (String.eqb_spec field "") as [-> | _]; [congruence |].
  destruct (String.eqb_spec v "") as [-> | _]; [congruence | reflexivity].
Qed.

Lemma addPair_fold entries : forall values,
  (forall field v, In (field, v) entries -> isPlainText field /\ isPlainText v) ->
  List.NoDup (obj_keys entries) ->
  (forall field, In field (obj_keys entries) -> ~ In field (obj_keys values)) ->
  fold_left CPE.addPair (List.map (fun kv => kv.1 ++ ":" ++ kv.2) entries) values
  = (values ++ entries)%list.
Proof.
  induction entries as [|[field v] entries IH]; intros values Hplain Hnd Hfresh.
  - simpl. rewrite app_nil_r. reflexivity.
  - cbn [List.map fold_left fst snd].
    destruct (Hplain field v (or_introl eq_refl)) as [Hfield Hv].
    rewrite (addPair_written _ _ _ Hfield Hv).
    cbn [obj_keys List.map fst] in Hnd. apply List.NoDup_cons_iff in Hnd as [Hnew Hnd].
    rewrite IH.
    + rewrite obj_set_fresh by (apply Hfresh; left; reflexivity).
      rewrite <- app_assoc. reflexivity.
    + intros f w Hin. apply Hplain. right. exact Hin.
    + exact Hnd.
    + intros f Hf Hin. apply obj_set_keys in Hin as [-> | Hin].
      * contradiction.
      * apply (Hfresh f); [right; exact Hf | exact Hin].
Qed.

(** X24.  The property editor reads back the default values it wrote:
    when the field names are distinct and the names and the values are free
    of the separators and of surrounding white space, [parseDefaultValues]
    of the editor maps the string made by [formatDefaultValuesString] to the
    entries that have a value, in their order. *)
Theorem editor_reads_back_its_defaults defaultFieldValues :
  writable defaultFieldValues ->
  CPE.parseDefaultValues (CPE.formatDefaultValuesString defaultFieldValues)
  = writtenDefaults defaultFieldValues.
Proof.
  intros Hwritable.
  destruct (writtenDefaults_plain _ Hwritable) as [Hnd Hplain].
  unfold CPE.parseDefaultValues, CPE.formatDefaultValuesString.
  fold (writtenDefaults defaultFieldValues).
  destruct (writtenDefaults defaultFieldValues) as [|[field v] entries] eqn:Hentries.
  - reflexivity.
  - set (pairs := List.map (fun kv : string * string => kv.1 ++ ":" ++ kv.2)
                    ((field, v) :: entries)).
    destruct (String.eqb_spec (JsString.join "," pairs) "") as [Hempty | _].
    + exfalso. revert Hempty. subst pairs. cbn [List.map fst snd].
      apply join_nonempty. destruct field; discriminate.
    + rewrite split_pairs_join.
      * subst pairs. rewrite addPair_fold; [reflexivity | exact Hplain | exact Hnd |].
        intros f _ [].
      * discriminate.
      * apply pairs_free; [discriminate |]. intros f w Hin.
        destruct (Hplain f w Hin) as [[[_ [_ Hf]] _] [[_ [_ Hw]] _]]. auto.
      * apply pairs_free; [discriminate |]. intros f w Hin.
        destruct (Hplain f w Hin) as [[_ [Hf _]] [_ [Hw _]]]. auto.
Qed.

Lemma editor_reads_back_its_defaults_witness :
  CPE.parseDefaultValues
    (CPE.formatDefaultValuesString [("Amount__c", "100"); ("Stage__c", "")])
  = [("Amount__c", "100")].
Proof.
  apply (editor_reads_back_its_defaults [("Amount__c", "100"); ("Stage__c", "")]).
  split.
  - repeat (apply List.NoDup_cons; [simpl; intuition discriminate |]).
    apply List.NoDup_nil.
  - intros field v [[= <- <-] | [[= <- <-] | []]];
      (split; [| first [left; reflexivity | right]]);
      unfold isPlainText, isListItem, freeOf;
      repeat split; try discriminate; try reflexivity;
      simpl; intuition discriminate.
Defined.

(** X25.  The excluded fields that the property editor writes are the
    excluded fields that the form reads: for field names without a comma
    and without surrounding white space, [allExcludedFields] of a form
    configured with the string dispatched by [saveExcludedFields] is the
    list of these names in lower case, followed in edit mode by the system
    fields. *)
Theorem editor_exclusions_are_read_by_the_form this excludedFields :
  Forall isListItem excludedFields ->
  api_excludedFields this = CPE.excludedFieldsString excludedFields ->
  allExcludedFields this
  = (List.map JsString.toLowerCase excludedFields
     ++ if api_isReadOnly this then []
        else List.map JsString.toLowerCase readOnlyFields)%list.
Proof.
  intros Hitems Hstring. unfold allExcludedFields. rewrite Hstring.
  unfold CPE.excludedFieldsString. rewrite List.map_app.
  destruct (api_isReadOnly this); cbn [negb]; f_equal; f_equal.
  all: destruct excludedFields as [|x l]; [reflexivity |].
  all: destruct (String.eqb_spec (JsString.join "," (x :: l)) "") as [Hempty | _];
    [exfalso; revert Hempty; apply join_nonempty;
     apply List.Forall_cons_iff in Hitems as [[Hx _] _]; exact Hx |].
  all: rewrite split_join;
    [| discriminate
     | eapply List.Forall_impl; [| exact Hitems]; intros s [_ [_ Hs]]; exact Hs].
  all: rewrite <- (List.map_id (x :: l)) at 2; apply map_ext_in; intros s Hs;
    eapply List.Forall_forall in Hitems; [| exact Hs]; apply Hitems.
Qed.

Lemma editor_exclusions_are_read_by_the_form_witness :
  allExcludedFields
    (editForm (CPE.excludedFieldsString ["Name"; "Amount__c"]) "")
  = ["name"; "amount__c"; "createdbyid"; "lastmodifiedbyid"; "id";
     "systemmodstamp"; "createddate"; "lastmodifieddate"; "ownerid"].
Proof.
  apply (editor_exclusions_are_read_by_the_form
           (editForm (CPE.excludedFieldsString ["Name"; "Amount__c"]) "")
           ["Name"; "Amount__c"]); [| reflexivity].
  repeat constructor; try discriminate; unfold freeOf; simpl; intuition discriminate.
Defined.

(** ** Format classes *)





(** ** What is shown was requested *)

Lemma defaultApplied_blank this fieldId slot slot' :
  defaultApplied this fieldId slot slot' -> isBlankSpace slot' = isBlankSpace slot.
Proof. intros [-> | [_ [_ [d [_ ->]]]]]; reflexivity. Qed.

(** X27.  Every field that the form shows for an existing record was
    requested from the server: the id of an enhanced field of the view
    model made by [processFieldData], unless it is a blank space, is among
    the field names that [fetchFieldValues] hands to the wire for the same
    layout. *)
Theorem shown_fields_were_requested this config recordData fetched view
  recordData' :
  fetchFieldValues this config = Ok fetched ->
  processFieldData this config recordData = Ok (view, recordData') ->
  forall ef,
    In ef (assembledFields view) ->
    enhanced_isBlankSpace ef = false ->
    In (enhanced_fieldId ef) (fieldApiNamesForWire fetched).
Proof.
  unfold fetchFieldValues, processFieldData.
  destruct (parseFlexiPageJson config) as [parsedSections|e]; [| discriminate].
  rewrite !bind_Ok. cbv zeta. intros [= <-].
  destruct (calculateVisibility _ _) as [visible|e] eqn:Hvis; [| discriminate].
  rewrite bind_Ok. intros [= <- <-] ef Hef Hblank.
  cbn [fieldApiNamesForWire].
  apply processSections_enhanced in Hef as [fieldId [slot [Hslot ->]]].
  apply enhanceField_value in Hblank as [Hblank [-> _]].
  destruct (calculateVisibility_slot _ _ _ _ _ Hvis Hslot) as [slot1 [Hslot1 Hblank1]].
  apply slotIn_removeExcludedFields in Hslot1 as [[slot2 [-> Hslot2]] Hkept].
  cbn [jsonCopySlot isBlankSpace] in Hblank1.
  destruct (applyDefaultValues_slot this recordData parsedSections _ _ Hslot2)
    as [slot0 [Hslot0 Happlied]].
  apply defaultApplied_blank in Happlied.
  apply filter_In. split; [| exact Hkept].
  apply collectFields_In. exists slot0. split; [exact Hslot0 |].
  split; [congruence | exact Hkept].
Qed.

Lemma shown_fields_were_requested_witness :
  exists fetched view recordData',
    fetchFieldValues (editForm "" "") (Some sectionPage) = Ok fetched
    /\ processFieldData (editForm "" "") (Some sectionPage) statusRecord
       = Ok (view, recordData')
    /\ fieldApiNamesForWire fetched = ["Name"; "Status__c"; "Amount__c"]
    /\ List.map enhanced_fieldId (assembledFields view)
       = ["Name"; "blank1"; "Amount__c"]
    /\ forall ef,
         In ef (assembledFields view) ->
         enhanced_isBlankSpace ef = false ->
         In (enhanced_fieldId ef) (fieldApiNamesForWire fetched).
Proof.
  eexists _, _, _. split; [reflexivity |]. split; [reflexivity |].
  split; [reflexivity |]. split; [reflexivity |].
  refine (shown_fields_were_requested (editForm "" "") (Some sectionPage)
            statusRecord _ _ _ _ _); reflexivity.
Defined.

(** ** Default values of a new record *)

(** C8.  With the default values ["Amount__c:100;Stage__c:Prospecting"] the
    parsed maps hold the number 100 for [Amount__c] and the string
    ["Prospecting"] for [Stage__c], under the original and under the
    lower-cased names.  For a new record [applyDefaultValues] keeps the slots
    of the layout, gives the slots of these two fields these values and
    mirrors both into the record data under [amount__c] and [stage__c]; the
    record data that [connectedCallback] starts a new record with holds them
    too; in the assembled view model, whichever of the two ways it is
    assembled, the two fields show these values; and the view model that
    [connectedCallback] assembles for the new record has a field for every
    slot of the layout that is named [Amount__c] or [Stage__c], is no blank
    space and is not excluded, with the number 100 and the string
    ["Prospecting"] as its value. *)
Theorem default_values_scenario this recordData parsedSections :
  api_defaultValues this = "Amount__c:100;Stage__c:Prospecting" ->
  isNewRecord this = true ->
  let applied := applyDefaultValues this recordData parsedSections in
  parseDefaultValues this
  = {| original := [("Amount__c", VNum (Int 100)); ("Stage__c", VStr "Prospecting")];
       lowercase := [("amount__c", VNum (Int 100)); ("stage__c", VStr "Prospecting")] |}
  /\ allFieldIds (applied_sections applied) = allFieldIds parsedSections
  /\ (forall sid section cid column fieldId field,
        In (sid, section) (applied_sections applied) ->
        In (cid, column) (columns section) ->
        In (fieldId, field) (fields column) ->
        isBlankSpace field = false ->
        (JsString.toLowerCase fieldId = "amount__c" ->
         value field = VNum (Int 100)
         /\ applied_recordData applied !! "amount__c" = Some (VNum (Int 100)))
        /\ (JsString.toLowerCase fieldId = "stage__c" ->
            value field = VStr "Prospecting"
            /\ applied_recordData applied !! "stage__c" = Some (VStr "Prospecting")))
  /\ recordDataOfDefaults (lowercase (parseDefaultValues this)) !! "amount__c"
     = Some (VNum (Int 100))
  /\ recordDataOfDefaults (lowercase (parseDefaultValues this)) !! "stage__c"
     = Some (VStr "Prospecting")
  /\ (forall config view recordData' ef,
        processFieldData this config recordData = Ok (view, recordData')
        \/ connectedCallbackNewRecord this config = Ok (view, recordData') ->
        In ef (assembledFields view) ->
        enhanced_isBlankSpace ef = false ->
        (JsString.toLowerCase (enhanced_fieldId ef) = "amount__c" ->
         enhanced_value ef = VNum (Int 100)
         /\ recordData' !! "amount__c" = Some (VNum (Int 100)))
        /\ (JsString.toLowerCase (enhanced_fieldId ef) = "stage__c" ->
            enhanced_value ef = VStr "Prospecting"
            /\ recordData' !! "stage__c" = Some (VStr "Prospecting")))
  /\ (forall (Json : Type) (JSON_parse : string -> result Json)
        (JSON_style : Json -> option StyleObject)
        (server : string -> result (option IconRuleSet))
        config layout view shownFields,
        parseFlexiPageJson config = Ok layout ->
        (connectedCallbackSettled Json JSON_parse JSON_style server this config).2
        = FormShown view shownFields ->
        (connectedCallbackSettled Json JSON_parse JSON_style server this config).1
          !! "amount__c" = Some (VNum (Int 100))
        /\ (connectedCallbackSettled Json JSON_parse JSON_style server this config).1
             !! "stage__c" = Some (VStr "Prospecting")
        /\ forall fieldId field,
             slotIn layout fieldId field ->
             isBlankSpace field = false ->
             notExcluded this fieldId = true ->
             (JsString.toLowerCase fieldId = "amount__c" ->
              exists ef,
                In ef (assembledFields view)
                /\ enhanced_fieldId ef = fieldId
                /\ enhanced_isBlankSpace ef = false
                /\ enhanced_value ef = VNum (Int 100))
             /\ (JsString.toLowerCase fieldId = "stage__c" ->
                 exists ef,
                   In ef (assembledFields view)
                   /\ enhanced_fieldId ef = fieldId
                   /\ enhanced_isBlankSpace ef = false
                   /\ enhanced_value ef = VStr "Prospecting")).
Proof.
  intros Hdefaults Hnew applied.
  assert (Hparse : parseDefaultValues this
    = {| original := [("Amount__c", VNum (Int 100)); ("Stage__c", VStr "Prospecting")];
         lowercase := [("amount__c", VNum (Int 100)); ("stage__c", VStr "Prospecting")] |})
    by (unfold parseDefaultValues; rewrite Hdefaults; reflexivity).
  split; [exact Hparse |].
  split; [apply applyDefaultValues_ids |].
  split; [| rewrite Hparse; split; [reflexivity | split; [reflexivity | split]]].
  - intros sid section cid column fieldId field Hsec Hcol Hfield Hblank.
    pose proof (applyDefaultValues_new this recordData parsedSections Hnew
                  sid section cid column fieldId field Hsec Hcol Hfield Hblank)
      as Hslot.
    rewrite Hparse in Hslot. simpl lowercase in Hslot.
    split; intros Hid; rewrite Hid in Hslot; apply Hslot; reflexivity.
  - intros config view recordData' ef Hrun Hef Hblank.
    pose proof (assembled_default_value this config recordData view recordData'
                  ef) as Hshown.
    rewrite Hparse in Hshown. simpl lowercase in Hshown.
    split; intros Hid; rewrite Hid in Hshown;
      apply Hshown; auto; reflexivity.
  - intros Json JSON_parse JSON_style server config layout view shownFields
      Hlayout Hshown.
    apply connectedCallbackSettled_shown in Hshown.
    unfold connectedCallbackNewRecord in Hshown.
    rewrite Hlayout, bind_Ok in Hshown. cbv zeta in Hshown.
    injection Hshown as Hview.
    unfold connectedCallbackSettled. cbn [fst].
    rewrite Hparse in Hview |- *. cbn [lowercase] in Hview |- *.
    split; [reflexivity | split; [reflexivity |]].
    subst view.
    intros fieldId field Hslot Hblank Hkept.
    assert (Hin : In (enhanceField
                        (recordDataOfDefaults
                           [("amount__c", VNum (Int 100));
                            ("stage__c", VStr "Prospecting")])
                        (fieldId, jsonCopySlot field))
                    (assembledFields
                       (processSections
                          (recordDataOfDefaults
                             [("amount__c", VNum (Int 100));
                              ("stage__c", VStr "Prospecting")])
                          (removeExcludedFields this layout)))).
    { apply processSections_shows.
      - apply slotIn_removeExcludedFields. split; [| exact Hkept].
        exists field. auto.
      - cbn [jsonCopySlot isVisible].
        rewrite (parseFlexiPageJson_visible _ _ _ _ Hlayout Hslot). reflexivity. }
    unfold enhanceField in Hin. cbn [fst snd jsonCopySlot isBlankSpace] in Hin.
    rewrite Hblank in Hin.
    split; intros Hid; rewrite Hid in Hin;
      eexists; (split; [exact Hin |]); repeat split; reflexivity.
Qed.

Lemma default_values_scenario_witness :
  exists view shownFields,
    connectedCallbackSettled bool parseFlag flagStyle scoreServer
      (editForm "" "Amount__c:100;Stage__c:Prospecting") (Some systemPage)
    = (recordDataOfDefaults
         [("amount__c", VNum (Int 100)); ("stage__c", VStr "Prospecting")],
       FormShown view shownFields)
    /\ shownFields = ["Name"; "Amount__c"; "Stage__c"]
    /\ (exists amount,
          In amount (assembledFields view)
          /\ enhanced_fieldId amount = "Amount__c"
          /\ enhanced_isBlankSpace amount = false
          /\ enhanced_value amount = VNum (Int 100))
    /\ (exists stage,
          In stage (assembledFields view)
          /\ enhanced_fieldId stage = "Stage__c"
          /\ enhanced_isBlankSpace stage = false
          /\ enhanced_value stage = VStr "Prospecting").
Proof.
  eexists _, _. split; [reflexivity |]. split; [reflexivity |].
  pose proof (default_values_scenario
                (editForm "" "Amount__c:100;Stage__c:Prospecting") ∅ []
                eq_refl eq_refl) as [_ [_ [_ [_ [_ [_ Hshown]]]]]].
  destruct (Hshown bool parseFlag flagStyle scoreServer (Some systemPage)
              _ _ _ eq_refl eq_refl) as [_ [_ Hfields]].
  assert (Hslots : forall fieldId,
             In fieldId ["Amount__c"; "Stage__c"] ->
             exists field,
               slotIn (parseSimpleLayout
                         [flatRegion "main"
                            ["Name"; "Id"; "OWNERID"; "Amount__c"; "Stage__c"]])
                 fieldId field
               /\ isBlankSpace field = false).
  { intros fieldId [<- | [<- | []]]; eexists; split.
    - eexists _, _, _, _. split; [left; reflexivity |].
      cbn [columns]. split; [left; reflexivity |].
      cbn [fields]. right. right. right. left. reflexivity.
    - reflexivity.
    - eexists _, _, _, _. split; [left; reflexivity |].
      cbn [columns]. split; [left; reflexivity |].
      cbn [fields]. right. right. right. right. left. reflexivity.
    - reflexivity. }
  split.
  - destruct (Hslots "Amount__c" (or_introl eq_refl)) as [field [Hslot Hblank]].
    exact (proj1 (Hfields "Amount__c" field Hslot Hblank eq_refl) eq_refl).
  - destruct (Hslots "Stage__c" (or_intror (or_introl eq_refl)))
      as [field [Hslot Hblank]].
    exact (proj2 (Hfields "Stage__c" field Hslot Hblank eq_refl) eq_refl).
Defined.
